(** * Game of Life (life.cpp): generation engine, stability detector, grid loader

    A shallow embedding of the functions of [life.cpp] that compute on
    grids: [countNeighbors], [calculateNextGeneration], [isStable] and
    [readInGrid].  C++ [int] values are integers of [Z] with the 32-bit
    two's-complement wrap-around written out; the library calls that can
    fail ([Grid] indexing, [Grid::resize], [Vector] indexing,
    [stringToInteger]) return in an error monad.

    C++ leaves the overflow of a signed [int] undefined.  Where a
    statement needs an [int] result to be the mathematical one (an age
    plus one, a sum of ages), it says so with a premise that the result
    is representable. *)

From Stdlib Require Import ZArith Lia String Ascii.
From stdpp Require Import base option list.

Local Open Scope Z_scope.

(** ** C++ [int] *)

Definition INT_MIN : Z := -2147483648.
Definition INT_MAX : Z := 2147483647.

Definition in_int (z : Z) : Prop := INT_MIN ≤ z ≤ INT_MAX.

(** The value an [int] holds after an operation whose mathematical result
    is [z]. *)
Definition wrap_int (z : Z) : Z := (z + 2147483648) `mod` 4294967296 - 2147483648.

Definition int_add (a b : Z) : Z := wrap_int (a + b).
Definition int_sub (a b : Z) : Z := wrap_int (a - b).
Definition int_mul (a b : Z) : Z := wrap_int (a * b).

(** ** Errors raised by the library ([error(...)] throws) *)

Inductive error : Set :=
  | GridIndexOutOfRange     (* Grid operator[]: "Grid index values out of range" *)
  | GridInvalidSize         (* Grid::resize with a negative dimension *)
  | VectorIndexOutOfRange   (* Vector operator[] *)
  | IllegalInteger.         (* stringToInteger: "Illegal integer format" *)

Inductive result (A : Type) : Type :=
  | Ok (a : A)
  | Err (e : error).
Arguments Ok {A} a.
Arguments Err {A} e.

#[global] Instance result_ret : MRet result := λ A a, Ok a.
#[global] Instance result_bind : MBind result := λ A B f m,
  match m with
  | Ok a => f a
  | Err e => Err e
  end.

(** ** Counted loops

    [for_int lo hi body s] is [for (int i = lo; i < hi; i++) body], the
    loop state threaded through.  The counter stays below [hi], an [int],
    so [i++] never wraps. *)

Fixpoint for_up {St : Type} (n : nat) (i : Z) (body : Z → St → result St) (s : St)
  : result St :=
  match n with
  | O => Ok s
  | S n' => s' ← body i s; for_up n' (i + 1) body s'
  end.

Definition for_int {St : Type} (lo hi : Z) (body : Z → St → result St) (s : St)
  : result St :=
  for_up (Z.to_nat (hi - lo)) lo body s.

(** ** Grid<int>

    The [Grid] class template belongs to the course library (grid.h) and
    is not part of [life.cpp].  Its model follows section 4.1 of the
    specification: a fixed-size 2-D container constructible with explicit
    row and column counts, resizable (all contents replaced by zeros),
    with the existence test [inBounds] and indexed read and write access;
    indexing out of bounds fails fast. *)

(** Modelled from the spec: the class [Grid<int>] (grid.h), missing from
    the sources; the row and column counts and the cells, here in
    row-major order. *)
Record Grid : Type := mkGrid {
  numRows : Z;
  numCols : Z;
  elements : list Z
}.

(** Modelled from the spec: the default constructor of [Grid]
    ("default empty"). *)
Definition Grid_empty : Grid := mkGrid 0 0 [].

(** Modelled from the spec: [Grid::inBounds], the "bounds-checked
    existence test". *)
Definition inBounds (g : Grid) (row col : Z) : bool :=
  (0 <=? row) && (0 <=? col) && (row <? numRows g) && (col <? numCols g).

Definition Grid_index (g : Grid) (row col : Z) : nat :=
  Z.to_nat (row * numCols g + col).

(** Modelled from the spec: the read [g[row][col]] of [Grid]; "out-of-bounds
    indexed access is a programming error (fails fast)". *)
Definition Grid_get (g : Grid) (row col : Z) : result Z :=
  if inBounds g row col then
    match elements g !! Grid_index g row col with
    | Some v => Ok v
    | None => Err GridIndexOutOfRange
    end
  else Err GridIndexOutOfRange.

(** Modelled from the spec: the write [g[row][col] = v] of [Grid], which
    fails fast out of bounds as the read does. *)
Definition Grid_set (g : Grid) (row col : Z) (v : Z) : result Grid :=
  if inBounds g row col then
    Ok (mkGrid (numRows g) (numCols g) (<[Grid_index g row col := v]> (elements g)))
  else Err GridIndexOutOfRange.

(** Modelled from the spec: [Grid::resize] and the constructor
    [Grid(nRows, nCols)]: "replaces all contents with zeros"; a negative
    count is an error of the library. *)
Definition Grid_resize (nRows nCols : Z) : result Grid :=
  if (nRows <? 0) || (nCols <? 0) then Err GridInvalidSize
  else Ok (mkGrid nRows nCols (replicate (Z.to_nat (nRows * nCols)) 0)).

(** Representation invariant of a [Grid<int>]. *)
Definition Grid_wf (g : Grid) : Prop :=
  0 ≤ numRows g ≤ INT_MAX ∧ 0 ≤ numCols g ≤ INT_MAX ∧
  length (elements g) = Z.to_nat (numRows g * numCols g) ∧
  Forall in_int (elements g).

(** ** countNeighbors (life.cpp, lines 319-330)

    The offsets run over -1, 0, 1: [rowOffset <= 1] is [rowOffset < 2].
    [row+rowOffset] and [col+colOffset] are [int] sums. *)

Definition countNeighbors (currentGrid : Grid) (row col : Z) : result Z :=
  for_int (-1) 2 (λ rowOffset neighbors,
    for_int (-1) 2 (λ colOffset neighbors,
      if inBounds currentGrid (int_add row rowOffset) (int_add col colOffset)
         && negb ((rowOffset =? 0) && (colOffset =? 0))
      then
        age ← Grid_get currentGrid (int_add row rowOffset) (int_add col colOffset);
        Ok (if 0 <? age then int_add neighbors 1 else neighbors)
      else Ok neighbors)
    neighbors)
  0.

(** ** calculateNextGeneration (life.cpp, lines 283-307) *)

Definition calculateNextGeneration (currentGrid : Grid) : result Grid :=
  scratchGrid ← Grid_resize (numRows currentGrid) (numCols currentGrid);
  for_int 0 (numRows currentGrid) (λ row scratchGrid,
    for_int 0 (numCols currentGrid) (λ col scratchGrid,
      age ← Grid_get currentGrid row col;
      neighbors ← countNeighbors currentGrid row col;
      if neighbors =? 2 then
        if 0 <? age then Grid_set scratchGrid row col (int_add age 1)
        else Grid_set scratchGrid row col 0
      else if neighbors =? 3 then Grid_set scratchGrid row col (int_add age 1)
      else Grid_set scratchGrid row col 0)
    scratchGrid)
  scratchGrid.

(** ** isStable (life.cpp, lines 340-359)

    The four counters are the loop state.  The message written to [cout]
    on the stable branch is not modelled. *)

Record tallies : Type := mkTallies {
  currentGridAge : Z;
  scratchGridAge : Z;
  currentGridCells : Z;
  scratchGridCells : Z
}.

Definition tally (currentGrid scratchGrid : Grid) : result tallies :=
  for_int 0 (numRows currentGrid) (λ row t,
    for_int 0 (numCols currentGrid) (λ col t,
      cur ← Grid_get currentGrid row col;
      scr ← Grid_get scratchGrid row col;
      Ok (mkTallies
            (int_add (currentGridAge t) cur)
            (int_add (scratchGridAge t) scr)
            (if 0 <? cur then int_add (currentGridCells t) 1 else currentGridCells t)
            (if 0 <? scr then int_add (scratchGridCells t) 1 else scratchGridCells t)))
    t)
  (mkTallies 0 0 0 0).

Section MaxAge.

(** [kMaxAge] is declared in life-constants.h, which is not part of
    [life.cpp]; it is an [int] constant. *)
Variable kMaxAge : Z.

Definition isStable (currentGrid scratchGrid : Grid) : result bool :=
  t ← tally currentGrid scratchGrid;
  Ok ((int_mul (scratchGridCells t) kMaxAge <=? scratchGridAge t)
      && (int_sub (scratchGridAge t) (currentGridAge t) =? currentGridCells t)).

End MaxAge.

(** ** readInGrid (life.cpp, lines 133-152)

    [readEntireFile] (filelib.h) hands the lines of the file over as a
    [Vector<string>]; the file is therefore given as its list of lines.
    [Vector] indexing and [remove] are bounds-checked by the library. *)

Definition Vector_size (v : list string) : Z := Z.of_nat (length v).

Definition Vector_get (v : list string) (i : Z) : result string :=
  if (0 <=? i) && (i <? Vector_size v) then
    match v !! Z.to_nat i with
    | Some x => Ok x
    | None => Err VectorIndexOutOfRange
    end
  else Err VectorIndexOutOfRange.

Definition Vector_remove (v : list string) (i : Z) : result (list string) :=
  if (0 <=? i) && (i <? Vector_size v) then Ok (delete (Z.to_nat i) v)
  else Err VectorIndexOutOfRange.

(** [for (int i = hi; i >= lo; i--) body]. *)
Fixpoint for_down {St : Type} (n : nat) (i : Z) (body : Z → St → result St) (s : St)
  : result St :=
  match n with
  | O => Ok s
  | S n' => s' ← body i s; for_down n' (i - 1) body s'
  end.

Definition for_int_down {St : Type} (hi lo : Z) (body : Z → St → result St) (s : St)
  : result St :=
  for_down (Z.to_nat (hi - lo + 1)) hi body s.

(** [s.find(c) != string::npos] for a one-character pattern. *)
Fixpoint string_has (c : ascii) (s : string) : bool :=
  match s with
  | EmptyString => false
  | String a s' => Ascii.eqb a c || string_has c s'
  end.

Definition commentMark : ascii := "#"%char.
Definition emptyCell : string := "-"%string.
Definition fileRowDimension : Z := 0.
Definition fileColDimension : Z := 1.

Section ReadInGrid.

(** [stringToInteger] (strlib.h) is a library call: it returns the
    [int] a string denotes or raises an error. *)
Variable stringToInteger : string → result Z.

(** The grid passed by reference is overwritten by [resize]; the model
    returns the grid it holds at the end.  The two [stringToInteger]
    calls are arguments of one call, their order is the compiler's. *)
Definition readInGrid (file : list string) : result Grid :=
  linesInFile ←
    for_int_down (Vector_size file - 1) 0 (λ i linesInFile,
      line ← Vector_get linesInFile i;
      if string_has commentMark line then Vector_remove linesInFile i
      else Ok linesInFile)
    file;
  rowLine ← Vector_get linesInFile fileRowDimension;
  nRows ← stringToInteger rowLine;
  colLine ← Vector_get linesInFile fileColDimension;
  nCols ← stringToInteger colLine;
  currentGrid ← Grid_resize nRows nCols;
  for_int (fileColDimension + 1) (Vector_size linesInFile) (λ numLines currentGrid,
    line ← Vector_get linesInFile numLines;
    for_int 0 (Z.of_nat (String.length line)) (λ numChars currentGrid,
      if String.eqb (substring (Z.to_nat numChars) 1 line) emptyCell
      then Grid_set currentGrid (numLines - (fileColDimension + 1)) numChars 0
      else Grid_set currentGrid (numLines - (fileColDimension + 1)) numChars 1)
    currentGrid)
  currentGrid.

End ReadInGrid.

(** ** A reader of decimal integers, to run [readInGrid] with *)

Definition digit_of (c : ascii) : option Z :=
  let n := Z.of_nat (nat_of_ascii c) in
  if (48 <=? n) && (n <=? 57) then Some (n - 48) else None.

Fixpoint read_digits (acc : Z) (s : string) : option Z :=
  match s with
  | EmptyString => Some acc
  | String c s' =>
      match digit_of c with
      | Some d => read_digits (10 * acc + d) s'
      | None => None
      end
  end.

Definition read_unsigned (s : string) : option Z :=
  match s with
  | EmptyString => None
  | _ => read_digits 0 s
  end.

(** Modelled from the spec: [stringToInteger] (strlib.h) is missing from
    the sources; section 6 of the specification has both dimension lines
    hold "decimal integers, one per line".  This reader (an optional sign,
    then digits, the value within [int]) stands for it where [readInGrid]
    is run on a file. *)
Definition decimalToInteger (s : string) : result Z :=
  let parsed :=
    match s with
    | String "-"%char s' => Z.opp <$> read_unsigned s'
    | String "+"%char s' => read_unsigned s'
    | _ => read_unsigned s
    end in
  match parsed with
  | Some z => if (INT_MIN <=? z) && (z <=? INT_MAX) then Ok z else Err IllegalInteger
  | None => Err IllegalInteger
  end.

(** ** What the specification says, as definitions to compare the code with *)

(** Age of a cell, 0 off the grid. *)
Definition Grid_cell (g : Grid) (row col : Z) : Z :=
  match Grid_get g row col with
  | Ok age => age
  | Err _ => 0
  end.

(** In bounds and of age > 0. *)
Definition liveAt (g : Grid) (row col : Z) : bool :=
  match Grid_get g row col with
  | Ok age => 0 <? age
  | Err _ => false
  end.

(** The 8 offsets in {-1,0,+1} x {-1,0,+1} without (0,0). *)
Definition neighborOffsets : list (Z * Z) :=
  [(-1,-1); (-1,0); (-1,1); (0,-1); (0,1); (1,-1); (1,0); (1,1)].

Definition liveNeighbors (g : Grid) (row col : Z) : Z :=
  Z.of_nat (length (filter (λ d, liveAt g (row + d.1) (col + d.2) = true) neighborOffsets)).

(** The transition rule of section 4.3, [++age] being an [int] increment. *)
Definition nextAge (g : Grid) (row col : Z) : Z :=
  let age := Grid_cell g row col in
  let n := liveNeighbors g row col in
  if n =? 2 then (if 0 <? age then int_add age 1 else 0)
  else if n =? 3 then int_add age 1
  else 0.

(** Total summed age and number of live cells of a grid. *)
Definition sumAges (l : list Z) : Z := foldr Z.add 0 l.
Definition countLive (l : list Z) : Z := Z.of_nat (length (filter (λ age, 0 < age) l)).

Definition totalAge (g : Grid) : Z := sumAges (elements g).
Definition liveCells (g : Grid) : Z := countLive (elements g).

(** Every quantity [isStable] computes is representable as an [int]. *)
Definition tallies_fit (kMaxAge : Z) (currentGrid scratchGrid : Grid) : Prop :=
  in_int (totalAge currentGrid) ∧ in_int (totalAge scratchGrid) ∧
  in_int (liveCells currentGrid) ∧ in_int (liveCells scratchGrid) ∧
  in_int (liveCells scratchGrid * kMaxAge) ∧
  in_int (totalAge scratchGrid - totalAge currentGrid).

Definition allZero (g : Grid) : Prop := Forall (λ age, age = 0) (elements g).

(** A grid of [nRows] by [nCols] dead cells but for the 2x2 block with
    upper left corner ([row], [col]), its four cells of age [age]. *)
Definition blockGrid (nRows nCols row col age : Z) : result Grid :=
  g ← Grid_resize nRows nCols;
  g ← Grid_set g row col age;
  g ← Grid_set g row (col + 1) age;
  g ← Grid_set g (row + 1) col age;
  Grid_set g (row + 1) (col + 1) age.

(** A row-data line of [n] live cells. *)
Fixpoint liveLine (n : nat) : string :=
  match n with
  | O => EmptyString
  | S n' => String "X"%char (liveLine n')
  end.

(** Lines that survive the removal of comment lines. *)
Definition stripComments (file : list string) : list string :=
  filter (λ line, string_has commentMark line = false) file.

(** Age the file gives cell ([row], [col]): 0 for the dead marker, 1 for
    any other character, 0 where no character stands. *)
Definition fileAge (rows : list string) (row col : Z) : Z :=
  match rows !! Z.to_nat row with
  | Some line =>
      match String.get (Z.to_nat col) line with
      | Some c => if Ascii.eqb c "-"%char then 0 else 1
      | None => 0
      end
  | None => 0
  end.

(** ** Grids and files to run the code on *)

(** A 2x2 block of age 1 in the middle of a 4x4 grid. *)
Definition block4 : Grid :=
  mkGrid 4 4 [0;0;0;0; 0;1;1;0; 0;1;1;0; 0;0;0;0].

(** Scenario C of the specification. *)
Definition scenarioC : list string :=
  ["# test"; "3"; "3"; "-X-"; "X-X"; "-XX"]%string.

(** ** Loop invariants *)

(** Rows above [row], and the cells of [row] left of [col], are done. *)
Definition scratch_inv (g : Grid) (row col : Z) (s : Grid) : Prop :=
  numRows s = numRows g ∧ numCols s = numCols g ∧
  length (elements s) = Z.to_nat (numRows g * numCols g) ∧
  Forall in_int (elements s) ∧
  ∀ r c, inBounds g r c = true → r < row ∨ (r = row ∧ c < col) →
         elements s !! Grid_index g r c = Some (nextAge g r c).

(** The counters after the first [k] cells, in row-major order. *)
Definition tallies_of (cur scr : list Z) (k : nat) : tallies :=
  mkTallies (wrap_int (sumAges (take k cur))) (wrap_int (sumAges (take k scr)))
            (wrap_int (countLive (take k cur))) (wrap_int (countLive (take k scr))).

(** Cells before ([row], [col]) in reading order hold what the file says,
    the others still hold the zero of [resize]. *)
Definition fill_inv (R C : Z) (rows : list string) (row col : Z) (t : Grid) : Prop :=
  numRows t = R ∧ numCols t = C ∧ length (elements t) = Z.to_nat (R * C) ∧
  ∀ r c, 0 ≤ r < R → 0 ≤ c < C →
    elements t !! Z.to_nat (r * C + c)
    = Some (if bool_decide (r < row ∨ (r = row ∧ c < col)) then fileAge rows r c else 0).

(** [if (live) neighbors++], as a function of the counter. *)
Definition bump (live : bool) (neighbors : Z) : Z :=
  if live then int_add neighbors 1 else neighbors.

(** Membership in the 2x2 block with upper left corner ([r0], [c0]). *)
Definition inSpan (x0 x : Z) : bool := (x =? x0) || (x =? x0 + 1).
Definition inBlock (r0 c0 r c : Z) : bool := inSpan r0 r && inSpan c0 c.

(** ** drawGrid and advanceGrid (life.cpp, lines 183-189 and 268-271) *)

(** Modelled from the spec: the class [LifeDisplay] (life-graphics.h) is
    missing from the sources; section 6 of the specification gives its
    contract, "drawCellAt(row, col, age) called once per cell per
    generation".  The display is the list of the [drawCellAt] calls made
    on it, oldest first. *)
Abbreviation LifeDisplay := (list (Z * Z * Z)).

Definition drawCellAt (display : LifeDisplay) (row col age : Z) : LifeDisplay :=
  display ++ [(row, col, age)].

Definition drawGrid (currentGrid : Grid) (display : LifeDisplay) : result LifeDisplay :=
  for_int 0 (numRows currentGrid) (λ row display,
    for_int 0 (numCols currentGrid) (λ col display,
      age ← Grid_get currentGrid row col;
      Ok (drawCellAt display row col age))
    display)
  display.

(** [currentGrid = scratchGrid; drawGrid(currentGrid, display)]: the new
    current grid and the display. *)
Definition advanceGrid (currentGrid : Grid) (display : LifeDisplay) (scratchGrid : Grid)
  : result (Grid * LifeDisplay) :=
  display' ← drawGrid scratchGrid display;
  Ok (scratchGrid, display').

(** ** randomizeGrid (life.cpp, lines 162-173)

    [randomInteger] (random.h) is a library call; the numbers it returns
    are given as the list of the (row, col) pairs drawn, in order.  The
    result is [None] while the loop still asks for numbers. *)

Definition kNumCells : Z := 800.
Definition kBoardDimension : Z := 40.
Definition kNumRows : Z := kBoardDimension.
Definition kNumColumns : Z := kBoardDimension.

Fixpoint randomizeLoop (draws : list (Z * Z)) (currentGrid : Grid) (numCellsPlaced : Z)
  : result (option Grid) :=
  if numCellsPlaced <? kNumCells then
    match draws with
    | [] => Ok None
    | (row, col) :: draws' =>
        cell ← Grid_get currentGrid row col;
        if cell =? 0 then
          currentGrid' ← Grid_set currentGrid row col 1;
          randomizeLoop draws' currentGrid' (int_add numCellsPlaced 1)
        else randomizeLoop draws' currentGrid numCellsPlaced
    end
  else Ok (Some currentGrid).

Definition randomizeGrid (draws : list (Z * Z)) : result (option Grid) :=
  currentGrid ← Grid_resize kNumRows kNumColumns;
  randomizeLoop draws currentGrid 0.

(** ** The console: newGetLine, newGetInteger, setSimulationSpeed
    (life.cpp, lines 378-387, 394-406 and 234-257)

    [cin] holds the lines the user types, in order, [cout] the texts
    written, oldest first.  When [cin] runs out the program waits for a
    line: the functions then return no value ([None]). *)

Record console : Type := mkConsole {
  cin : list string;
  cout : list string
}.

Definition write (text : string) (c : console) : console :=
  mkConsole (cin c) (cout c ++ [text]).

Definition nl : string := String "010"%char EmptyString.
Definition tab : string := String "009"%char EmptyString.
Definition quote : string := String "034"%char EmptyString.

(** [cout << text << endl]. *)
Definition writeln (text : string) (c : console) : console :=
  write (String.append text nl) c.

Definition userAffirmative : string := "yes"%string.
Definition userNegative : string := "no"%string.
Definition stopWord : string := "quit"%string.
Definition simSpeedMin : Z := 1.
Definition simSpeedManual : Z := 4.
Definition msToPauseMin : Z := 1.
Definition msToPauseMid : Z := 100.
Definition msToPauseMax : Z := 500.

Fixpoint newGetLineLoop (input : list string) (c : console) : option string * console :=
  match input with
  | [] => (None, mkConsole [] (cout c))
  | line :: input' =>
      if String.eqb line userAffirmative || String.eqb line userNegative
      then (Some line, mkConsole input' (cout c))
      else newGetLineLoop input' (writeln "Please answer yes or no." c)
  end.

Definition newGetLine (prompt : string) (c : console) : option string * console :=
  newGetLineLoop (cin c) (write prompt c).

Section Console.

(** [streamInteger line] is the outcome of [stream >> value >> ws] on an
    [istringstream] of the line: the value when the stream has not
    failed and is at its end, [None] otherwise.  The stream classes are
    the C++ library's. *)
Variable streamInteger : string → option Z.

Fixpoint newGetIntegerLoop (input : list string) (c : console) : option Z * console :=
  match input with
  | [] => (None, mkConsole [] (cout c))
  | line :: input' =>
      match streamInteger line with
      | Some value =>
          if (simSpeedMin <=? value) && (value <=? simSpeedManual)
          then (Some value, mkConsole input' (cout c))
          else newGetIntegerLoop input'
                 (write (String.append nl "Please enter your choice between 1 and 4: ") c)
      | None =>
          newGetIntegerLoop input'
            (write (String.append nl "Please enter your choice between 1 and 4: ") c)
      end
  end.

Definition newGetInteger (prompt : string) (c : console) : option Z * console :=
  newGetIntegerLoop (cin c) (write prompt c).

Definition clickToEnd : string :=
  String.append nl
    "Click and hold the mouse button on the graphics window to end the simulation.".

(** The speed chosen, the pause length ([None] while the [int] passed by
    reference has not been assigned) and the console. *)
Definition setSimulationSpeed (pauseLength : option Z) (c : console)
  : option Z * option Z * console :=
  let c := writeln (String.append nl "You choose how fast to run the simulation.") c in
  let c := writeln (String.append tab "1 = As fast as this chip can go!") c in
  let c := writeln (String.append tab "2 = Not too fast; this is a school zone.") c in
  let c := writeln (String.append tab "3 = Nice and slow I can watch everything that happens.") c in
  let c := writeln (String.append tab "4 = Wait for user to hit enter between generations.") c in
  match newGetInteger "Your choice: " c with
  | (None, c) => (None, pauseLength, c)
  | (Some simulationSpeed, c) =>
      if simulationSpeed =? 1 then (Some simulationSpeed, Some msToPauseMin, writeln clickToEnd c)
      else if simulationSpeed =? 2 then (Some simulationSpeed, Some msToPauseMid, writeln clickToEnd c)
      else if simulationSpeed =? 3 then (Some simulationSpeed, Some msToPauseMax, writeln clickToEnd c)
      else (Some simulationSpeed, pauseLength, c)
  end.

(** ** runSimulation (life.cpp, lines 204-223)

    [events] holds what the successive calls of
    [getNextEvent(MOUSE_EVENT)] return.  A [pause] with a pause length
    that was never assigned is recorded as [None]. *)

Inductive eventType : Set :=
  | MOUSE_CLICKED
  | MOUSE_OTHER       (* pressed, released, moved, dragged *)
  | NULL_EVENT.

Inductive stop : Set :=
  | Stable            (* isStable broke the loop *)
  | Clicked           (* a mouse click did *)
  | Quit.             (* the user typed the stop word *)

Record simulation : Type := mkSimulation {
  sim_grid : Grid;
  sim_display : LifeDisplay;
  sim_console : console;
  sim_events : list eventType;
  sim_paused : list (option Z)
}.

Definition manualPrompt : string :=
  String.append "Hit [enter] to continue (or "
    (String.append quote
       (String.append "quit" (String.append quote " to end the simulation): "))).

Variable kMaxAge : Z.

(** The [while (true)] loop, at most [fuel] turns of it.  The result is
    [None] when the loop has not stopped: the turns, the events or the
    typed lines have run out. *)
Fixpoint simulationLoop (fuel : nat) (simulationSpeed : Z) (pauseLength : option Z)
    (s : simulation) : result (option stop * simulation) :=
  match fuel with
  | O => Ok (None, s)
  | S fuel' =>
      scratchGrid ← calculateNextGeneration (sim_grid s);
      stable ← isStable kMaxAge (sim_grid s) scratchGrid;
      if (stable : bool) then
        Ok (Some Stable,
            mkSimulation (sim_grid s) (sim_display s)
              (writeln "Stable Configuration" (sim_console s)) (sim_events s) (sim_paused s))
      else
        '(currentGrid, display) ← advanceGrid (sim_grid s) (sim_display s) scratchGrid;
        if negb (simulationSpeed =? simSpeedManual) then
          match sim_events s with
          | [] =>
              Ok (None, mkSimulation currentGrid display (sim_console s) [] (sim_paused s))
          | MOUSE_CLICKED :: events' =>
              Ok (Some Clicked,
                  mkSimulation currentGrid display (sim_console s) events' (sim_paused s))
          | NULL_EVENT :: events' =>
              simulationLoop fuel' simulationSpeed pauseLength
                (mkSimulation currentGrid display (sim_console s) events'
                   (sim_paused s ++ [pauseLength]))
          | MOUSE_OTHER :: events' =>
              simulationLoop fuel' simulationSpeed pauseLength
                (mkSimulation currentGrid display (sim_console s) events' (sim_paused s))
          end
        else
          match cin (sim_console s) with
          | [] =>
              Ok (None,
                  mkSimulation currentGrid display
                    (mkConsole [] (cout (write manualPrompt (sim_console s))))
                    (sim_events s) (sim_paused s))
          | line :: input' =>
              if String.eqb line stopWord then
                Ok (Some Quit,
                    mkSimulation currentGrid display
                      (mkConsole input' (cout (write manualPrompt (sim_console s))))
                      (sim_events s) (sim_paused s))
              else
                simulationLoop fuel' simulationSpeed pauseLength
                  (mkSimulation currentGrid display
                     (mkConsole input' (cout (write manualPrompt (sim_console s))))
                     (sim_events s) (sim_paused s))
          end
  end.

(** Each turn that goes on takes an event or a line, so the turns given
    here never run out before they do. *)
Definition runSimulation (currentGrid : Grid) (display : LifeDisplay) (c : console)
    (events : list eventType) : result (option stop * simulation) :=
  match setSimulationSpeed None c with
  | (None, pauseLength, c) => Ok (None, mkSimulation currentGrid display c events [])
  | (Some simulationSpeed, pauseLength, c) =>
      simulationLoop (S (length events + length (cin c))) simulationSpeed pauseLength
        (mkSimulation currentGrid display c events [])
  end.

End Console.

(** ** Runs of several generations *)

(** [k] generations on from a grid. *)
Fixpoint generations (k : nat) (g : Grid) : result Grid :=
  match k with
  | O => Ok g
  | S k' => g' ← calculateNextGeneration g; generations k' g'
  end.

(** The display once each of the next [k] generations has been drawn. *)
Fixpoint redraws (k : nat) (g : Grid) (display : LifeDisplay) : result LifeDisplay :=
  match k with
  | O => Ok display
  | S k' =>
      g' ← calculateNextGeneration g;
      display' ← drawGrid g' display;
      redraws k' g' display'
  end.

(** The calls that draw a grid: every cell, row by row. *)
Definition cellCalls (g : Grid) : LifeDisplay :=
  imap (λ i age, (Z.of_nat i `div` numCols g, Z.of_nat i `mod` numCols g, age)) (elements g).

(** ** Invariants and tests of the loops above *)

(** Dimensions, size and ages 0 or 1. *)
Definition bits_inv (R C : Z) (t : Grid) : Prop :=
  numRows t = R ∧ numCols t = C ∧ length (elements t) = Z.to_nat (R * C) ∧
  Forall (λ age, 0 ≤ age ≤ 1) (elements t).

(** The board of [randomizeGrid] with [placed] cells on it. *)
Definition random_inv (placed : Z) (g : Grid) : Prop :=
  bits_inv kNumRows kNumColumns g ∧ countLive (elements g) = placed ∧
  0 ≤ placed ≤ kNumCells.

(** The board of [randomizeGrid] with exactly the cells of [cells] alive. *)
Definition placed_inv (cells : list (Z * Z)) (g : Grid) : Prop :=
  numRows g = kNumRows ∧ numCols g = kNumColumns ∧
  length (elements g) = Z.to_nat (kNumRows * kNumColumns) ∧
  ∀ r c, inBounds g r c = true →
         Grid_get g r c = Ok (if bool_decide ((r, c) ∈ cells) then 1 else 0).

(** The line is one of the two answers [newGetLine] takes. *)
Definition yesOrNo (line : string) : bool :=
  String.eqb line userAffirmative || String.eqb line userNegative.

(** The line reads as a speed from 1 to 4. *)
Definition speedOf (streamInteger : string → option Z) (line : string) : option Z :=
  match streamInteger line with
  | Some value =>
      if (simSpeedMin <=? value) && (value <=? simSpeedManual) then Some value else None
  | None => None
  end.

(** A stand-in for the stream test, to run the console on examples: it
    takes a line that is a decimal numeral, signed or not, and nothing
    else.  It is not the library's test, which skips white space and
    whose answer on a numeral that ends the line is the library's own;
    the statements about the console hold for every [streamInteger]. *)
Definition decimalStream (line : string) : option Z :=
  match decimalToInteger line with
  | Ok value => Some value
  | Err _ => None
  end.

(** ** Small runs *)

Example block4_next :
  calculateNextGeneration block4
  = Ok (mkGrid 4 4 [0;0;0;0; 0;2;2;0; 0;2;2;0; 0;0;0;0]).
Proof. vm_compute. reflexivity. Qed.

Example blinker_next :
  calculateNextGeneration (mkGrid 3 3 [0;5;0; 0;1;0; 0;3;0])
  = Ok (mkGrid 3 3 [0;0;0; 1;2;1; 0;0;0]).
Proof. vm_compute. reflexivity. Qed.

Example scenarioA_next :
  calculateNextGeneration (mkGrid 3 3 [0;0;0; 0;1;0; 0;0;0])
  = Ok (mkGrid 3 3 [0;0;0; 0;0;0; 0;0;0]).
Proof. vm_compute. reflexivity. Qed.

Example scenarioA_stable :
  isStable 12 (mkGrid 3 3 [0;0;0; 0;0;0; 0;0;0]) (mkGrid 3 3 [0;0;0; 0;0;0; 0;0;0])
  = Ok true.
Proof. vm_compute. reflexivity. Qed.

Example block4_not_stable :
  isStable 12 block4 (mkGrid 4 4 [0;0;0;0; 0;2;2;0; 0;2;2;0; 0;0;0;0]) = Ok false.
Proof. vm_compute. reflexivity. Qed.

Example scenarioC_grid :
  readInGrid decimalToInteger scenarioC = Ok (mkGrid 3 3 [0;1;0; 1;0;1; 0;1;1]).
Proof. vm_compute. reflexivity. Qed.

Example long_line_fails :
  readInGrid decimalToInteger ["1"; "1"; "XX"]%string = Err GridIndexOutOfRange.
Proof. vm_compute. reflexivity. Qed.

Example comment_in_the_middle :
  readInGrid decimalToInteger ["2"; "# c"; "2"; "X"; "#"; "-X"; "# end"]%string
  = Ok (mkGrid 2 2 [1;0; 0;1]).
Proof. vm_compute. reflexivity. Qed.

Example blockGrid_4 : blockGrid 4 4 1 1 1 = Ok block4.
Proof. vm_compute. reflexivity. Qed.

(** ** [int] arithmetic *)

Lemma wrap_int_id z : in_int z → wrap_int z = z.
Proof.
  unfold in_int, INT_MIN, INT_MAX, wrap_int. intros Hz.
  rewrite Z.mod_small by lia. lia.
Qed.

Lemma wrap_int_in_int z : in_int (wrap_int z).
Proof.
  unfold in_int, INT_MIN, INT_MAX, wrap_int.
  pose proof (Z.mod_pos_bound (z + 2147483648) 4294967296). lia.
Qed.

Lemma wrap_int_add_l a b : wrap_int (wrap_int a + b) = wrap_int (a + b).
Proof.
  unfold wrap_int. f_equal.
  replace ((a + 2147483648) `mod` 4294967296 - 2147483648 + b + 2147483648)
    with ((a + 2147483648) `mod` 4294967296 + b) by lia.
  rewrite Zplus_mod_idemp_l. f_equal. lia.
Qed.

Lemma int_add_wrap_l a b : int_add (wrap_int a) b = wrap_int (a + b).
Proof. apply wrap_int_add_l. Qed.

Lemma int_add_small a b : in_int (a + b) → int_add a b = a + b.
Proof. apply wrap_int_id. Qed.

(** ** Loops: an invariant gives the final state *)

Lemma for_up_inv {St : Type} (P : Z → St → Prop) (body : Z → St → result St) n :
  ∀ i s,
    P i s →
    (∀ j t, i ≤ j < i + Z.of_nat n → P j t → ∃ t', body j t = Ok t' ∧ P (j + 1) t') →
    ∃ s', for_up n i body s = Ok s' ∧ P (i + Z.of_nat n) s'.
Proof.
  induction n as [|n IH]; intros i s Hs Hbody.
  - exists s. split; [done|]. by replace (i + Z.of_nat 0) with i by lia.
  - destruct (Hbody i s) as (t & Ht & HP); [lia|done|].
    destruct (IH (i + 1) t) as (s' & Hs' & HP'); [done| |].
    + intros j u Hj Hu. apply Hbody; [lia|done].
    + exists s'. cbn [for_up]. rewrite Ht. split; [exact Hs'|].
      by replace (i + Z.of_nat (S n)) with (i + 1 + Z.of_nat n) by lia.
Qed.

Lemma for_int_inv {St : Type} (P : Z → St → Prop) (body : Z → St → result St) lo hi s :
  lo ≤ hi →
  P lo s →
  (∀ j t, lo ≤ j < hi → P j t → ∃ t', body j t = Ok t' ∧ P (j + 1) t') →
  ∃ s', for_int lo hi body s = Ok s' ∧ P hi s'.
Proof.
  intros Hle Hs Hbody. unfold for_int.
  destruct (for_up_inv P body (Z.to_nat (hi - lo)) lo s) as (s' & Hs' & HP); [done| |].
  - intros j t Hj. apply Hbody. lia.
  - exists s'. split; [done|].
    replace (lo + Z.of_nat (Z.to_nat (hi - lo))) with hi in HP by lia. done.
Qed.

(** The loop stops with the error of the first iteration that raises one. *)
Lemma for_up_err {St : Type} (P : St → Prop) (e : error) (body : Z → St → result St) n :
  ∀ i s k,
    i ≤ k < i + Z.of_nat n →
    P s →
    (∀ j t, i ≤ j < k → P t → ∃ t', body j t = Ok t' ∧ P t') →
    (∀ t, P t → body k t = Err e) →
    for_up n i body s = Err e.
Proof.
  induction n as [|n IH]; intros i s k Hk Hs Hbefore Hat; [lia|].
  cbn [for_up]. destruct (decide (i = k)) as [->|Hne].
  - by rewrite Hat.
  - destruct (Hbefore i s) as (t & Ht & HP); [lia|done|]. rewrite Ht. cbn.
    apply (IH _ _ k); [lia|done| |done]. intros j u Hj. apply Hbefore. lia.
Qed.

Lemma for_int_err {St : Type} (P : St → Prop) (e : error) (body : Z → St → result St)
    lo hi s k :
  lo ≤ k < hi →
  P s →
  (∀ j t, lo ≤ j < k → P t → ∃ t', body j t = Ok t' ∧ P t') →
  (∀ t, P t → body k t = Err e) →
  for_int lo hi body s = Err e.
Proof. intros Hk. unfold for_int. apply for_up_err. lia. Qed.

(** ** Grid access *)

Lemma inBounds_spec g row col :
  inBounds g row col = true ↔ 0 ≤ row < numRows g ∧ 0 ≤ col < numCols g.
Proof. unfold inBounds. rewrite !andb_true_iff, !Z.leb_le, !Z.ltb_lt. lia. Qed.

Lemma Grid_index_lt g row col :
  inBounds g row col = true →
  (Grid_index g row col < Z.to_nat (numRows g * numCols g))%nat.
Proof. rewrite inBounds_spec. unfold Grid_index. intros H. apply Z2Nat.inj_lt; nia. Qed.

Lemma Grid_index_inj g row col row' col' :
  inBounds g row col = true → inBounds g row' col' = true →
  Grid_index g row col = Grid_index g row' col' → row = row' ∧ col = col'.
Proof.
  rewrite !inBounds_spec. unfold Grid_index. intros H H' Heq.
  apply Z2Nat.inj in Heq; [|nia..].
  assert (row = row') as ->.
  { destruct (Z.lt_trichotomy row row') as [Hlt|[Heq'|Hgt]]; [|done|]; exfalso.
    - assert ((row + 1) * numCols g ≤ row' * numCols g) by nia. lia.
    - assert ((row' + 1) * numCols g ≤ row * numCols g) by nia. lia. }
  split; [done|lia].
Qed.

Lemma Grid_get_lookup g row col :
  length (elements g) = Z.to_nat (numRows g * numCols g) →
  inBounds g row col = true →
  ∃ v, elements g !! Grid_index g row col = Some v ∧ Grid_get g row col = Ok v.
Proof.
  intros Hlen Hin. unfold Grid_get. rewrite Hin.
  destruct (lookup_lt_is_Some_2 (elements g) (Grid_index g row col)) as [v Hv].
  - rewrite Hlen. by apply Grid_index_lt.
  - exists v. by rewrite Hv.
Qed.

Lemma Grid_get_Ok g row col v :
  Grid_get g row col = Ok v →
  inBounds g row col = true ∧ elements g !! Grid_index g row col = Some v.
Proof.
  unfold Grid_get. destruct (inBounds g row col); [|done].
  destruct (elements g !! Grid_index g row col); [|done]. by intros [= ->].
Qed.

Lemma Grid_get_outside g row col :
  inBounds g row col = false → Grid_get g row col = Err GridIndexOutOfRange.
Proof. unfold Grid_get. by intros ->. Qed.

Lemma Grid_cell_get g row col :
  Grid_wf g → inBounds g row col = true → Grid_get g row col = Ok (Grid_cell g row col).
Proof.
  intros (_ & _ & Hlen & _) Hin.
  destruct (Grid_get_lookup g row col Hlen Hin) as (v & _ & Hv).
  unfold Grid_cell. by rewrite Hv.
Qed.

Lemma Grid_cell_in_int g row col : Grid_wf g → in_int (Grid_cell g row col).
Proof.
  intros (_ & _ & _ & Hall). unfold Grid_cell.
  destruct (Grid_get g row col) as [v|] eqn:Hv; [|unfold in_int, INT_MIN, INT_MAX; lia].
  apply Grid_get_Ok in Hv as [_ Hv].
  rewrite Forall_lookup in Hall. by eapply Hall.
Qed.

(** Every position of the cell list is the index of a cell of the grid. *)
Lemma Grid_index_cover g i :
  0 ≤ numCols g → (i < Z.to_nat (numRows g * numCols g))%nat →
  ∃ row col, inBounds g row col = true ∧ Grid_index g row col = i.
Proof.
  intros HC0 Hi. set (R := numRows g) in *. set (C := numCols g) in *.
  assert (0 < R * C) as HRC by lia.
  assert (0 < C) as HC.
  { destruct (decide (C = 0)) as [E|]; [rewrite E, Z.mul_0_r in HRC|]; lia. }
  assert (0 < R) as HR.
  { destruct (decide (0 < R)) as [|Hn]; [done|].
    pose proof (Z.mul_nonpos_nonneg R C). lia. }
  pose proof (Z.div_mod (Z.of_nat i) C ltac:(lia)) as Hdm.
  pose proof (Z.mod_pos_bound (Z.of_nat i) C HC) as Hmod.
  assert (0 ≤ Z.of_nat i `div` C) as Hdiv0 by (apply Z.div_pos; lia).
  assert (Z.of_nat i `div` C < R) as HdivR.
  { apply Z.div_lt_upper_bound; [done|]. nia. }
  exists (Z.of_nat i `div` C), (Z.of_nat i `mod` C). split.
  - apply inBounds_spec. fold R C. lia.
  - unfold Grid_index. fold C. lia.
Qed.

Lemma Grid_cells_Forall (P : Z → Prop) g :
  0 ≤ numCols g →
  length (elements g) = Z.to_nat (numRows g * numCols g) →
  (∀ row col v, Grid_get g row col = Ok v → P v) →
  Forall P (elements g).
Proof.
  intros HC0 Hlen HP. apply Forall_lookup. intros i v Hv.
  destruct (Grid_index_cover g i HC0) as (row & col & Hin & Hidx).
  { rewrite <- Hlen. by eapply lookup_lt_Some. }
  apply (HP row col). unfold Grid_get. by rewrite Hin, Hidx, Hv.
Qed.

(** ** countNeighbors *)

Lemma int_add_offset r d :
  in_int r → -1 ≤ d ≤ 1 →
  int_add r d = r + d ∨
  (¬ (0 ≤ r + d ≤ INT_MAX) ∧ (int_add r d < 0 ∨ int_add r d = INT_MAX)).
Proof.
  unfold in_int, INT_MIN, INT_MAX. intros Hr Hd.
  destruct (decide (-2147483648 ≤ r + d ≤ 2147483647)) as [Hin|Hout].
  - left. by apply int_add_small.
  - right. split; [lia|]. unfold int_add.
    destruct (decide (r + d = 2147483648)) as [->|Hne]; [left; by vm_compute|].
    right. replace (r + d) with (-2147483649) by lia. by vm_compute.
Qed.

Lemma inBounds_outside g x y :
  x < 0 ∨ numRows g ≤ x ∨ y < 0 ∨ numCols g ≤ y → inBounds g x y = false.
Proof.
  intros Hxy. destruct (inBounds g x y) eqn:E; [|done].
  apply inBounds_spec in E. lia.
Qed.

(** Wrapping the coordinate of a neighbour changes nothing: a coordinate
    that wraps lies off the grid before and after. *)
Lemma Grid_get_offset g r c dr dc :
  Grid_wf g → in_int r → in_int c → -1 ≤ dr ≤ 1 → -1 ≤ dc ≤ 1 →
  inBounds g (int_add r dr) (int_add c dc) = inBounds g (r + dr) (c + dc) ∧
  Grid_get g (int_add r dr) (int_add c dc) = Grid_get g (r + dr) (c + dc).
Proof.
  intros (HR & HC & _) Hr Hc Hdr Hdc.
  destruct (int_add_offset r dr Hr Hdr) as [Er|[Hr1 Hr2]].
  - destruct (int_add_offset c dc Hc Hdc) as [Ec|[Hc1 Hc2]].
    + by rewrite Er, Ec.
    + rewrite Er.
      assert (inBounds g (r + dr) (int_add c dc) = false) as E1
        by (apply inBounds_outside; unfold INT_MAX in *; lia).
      assert (inBounds g (r + dr) (c + dc) = false) as E2
        by (apply inBounds_outside; unfold INT_MAX in *; lia).
      by rewrite !Grid_get_outside, E1, E2.
  - assert (inBounds g (int_add r dr) (int_add c dc) = false) as E1
      by (apply inBounds_outside; unfold INT_MAX in *; lia).
    assert (inBounds g (r + dr) (c + dc) = false) as E2
      by (apply inBounds_outside; unfold INT_MAX in *; lia).
    by rewrite !Grid_get_outside, E1, E2.
Qed.

Lemma neighbor_step g r c dr dc n :
  Grid_wf g → in_int r → in_int c → -1 ≤ dr ≤ 1 → -1 ≤ dc ≤ 1 →
  (if inBounds g (int_add r dr) (int_add c dc) && negb ((dr =? 0) && (dc =? 0))
   then age ← Grid_get g (int_add r dr) (int_add c dc);
        Ok (if 0 <? age then int_add n 1 else n)
   else Ok n)
  = Ok (bump (negb ((dr =? 0) && (dc =? 0)) && liveAt g (r + dr) (c + dc)) n).
Proof.
  intros Hwf Hr Hc Hdr Hdc.
  destruct (Grid_get_offset g r c dr dc Hwf Hr Hc Hdr Hdc) as [-> ->].
  unfold liveAt, bump.
  destruct (inBounds g (r + dr) (c + dc)) eqn:Hin.
  - rewrite (Grid_cell_get g _ _ Hwf Hin).
    destruct (negb ((dr =? 0) && (dc =? 0))); cbn; [done|].
    by destruct (0 <? Grid_cell g (r + dr) (c + dc)).
  - rewrite (Grid_get_outside g _ _ Hin). cbn. by rewrite andb_false_r.
Qed.

Lemma filter_bool_ext {A : Type} (f h : A → bool) (l : list A) :
  (∀ x, x ∈ l → f x = h x) →
  filter (λ x, f x = true) l = filter (λ x, h x = true) l.
Proof.
  induction l as [|a l IH]; intros Hfh; [done|].
  rewrite !filter_cons, (Hfh a) by left.
  rewrite IH; [done|]. intros x Hx. apply Hfh. by right.
Qed.

Lemma countNeighbors_spec g row col :
  Grid_wf g → in_int row → in_int col →
  countNeighbors g row col = Ok (liveNeighbors g row col).
Proof.
  intros Hwf Hr Hc. unfold countNeighbors, for_int.
  change (Z.to_nat (2 - -1)) with 3%nat. cbn [for_up].
  change (-1 + 1) with 0. change (0 + 1) with 1.
  repeat (rewrite neighbor_step by (done || lia); cbn [mbind result_bind]).
  unfold liveNeighbors, neighborOffsets.
  rewrite !filter_cons, filter_nil. cbn [fst snd].
  change (negb ((0 =? 0) && (0 =? 0)) && liveAt g (row + 0) (col + 0)) with false.
  generalize (liveAt g (row + -1) (col + -1)), (liveAt g (row + -1) (col + 0)),
    (liveAt g (row + -1) (col + 1)), (liveAt g (row + 0) (col + -1)),
    (liveAt g (row + 0) (col + 1)), (liveAt g (row + 1) (col + -1)),
    (liveAt g (row + 1) (col + 0)), (liveAt g (row + 1) (col + 1)).
  clear. intros [] [] [] [] [] [] [] []; vm_compute; reflexivity.
Qed.

Lemma liveNeighbors_range g row col : 0 ≤ liveNeighbors g row col ≤ 8.
Proof.
  unfold liveNeighbors.
  pose proof (length_filter (λ d, liveAt g (row + d.1) (col + d.2) = true) neighborOffsets) as H.
  change (length neighborOffsets) with 8%nat in H. lia.
Qed.

(** ** calculateNextGeneration *)

Lemma nextAge_in_int g row col : in_int (nextAge g row col).
Proof.
  unfold nextAge, int_add.
  repeat case_match; try apply wrap_int_in_int; unfold in_int, INT_MIN, INT_MAX; lia.
Qed.

(** One cell of the double loop: the body stores [nextAge]. *)
Lemma next_cell_step g s row col :
  Grid_wf g → inBounds g row col = true →
  numRows s = numRows g → numCols s = numCols g →
  (age ← Grid_get g row col;
   neighbors ← countNeighbors g row col;
   if neighbors =? 2 then
     if 0 <? age then Grid_set s row col (int_add age 1) else Grid_set s row col 0
   else if neighbors =? 3 then Grid_set s row col (int_add age 1)
   else Grid_set s row col 0)
  = Ok (mkGrid (numRows g) (numCols g)
          (<[Grid_index g row col := nextAge g row col]> (elements s))).
Proof.
  intros Hwf Hin HR HC.
  assert (inBounds s row col = true) as Hin'.
  { apply inBounds_spec. rewrite HR, HC. by apply inBounds_spec. }
  assert (in_int row ∧ in_int col) as [Hr Hc].
  { apply inBounds_spec in Hin. destruct Hwf as (? & ? & _).
    unfold in_int, INT_MIN, INT_MAX in *. lia. }
  rewrite (Grid_cell_get g row col Hwf Hin). cbn [mbind result_bind].
  rewrite (countNeighbors_spec g row col Hwf Hr Hc). cbn [mbind result_bind].
  unfold nextAge, Grid_set, Grid_index. rewrite Hin', HR, HC.
  by repeat case_match.
Qed.

Lemma scratch_inv_step g s row col :
  Grid_wf g → inBounds g row col = true → scratch_inv g row col s →
  scratch_inv g row (col + 1)
    (mkGrid (numRows g) (numCols g)
       (<[Grid_index g row col := nextAge g row col]> (elements s))).
Proof.
  intros Hwf Hin (HR & HC & Hlen & Hall & Hdone).
  repeat split; cbn [numRows numCols elements].
  - by rewrite length_insert.
  - apply Forall_insert; [done|]. apply nextAge_in_int.
  - intros r c Hrc Hbefore.
    destruct (decide (Grid_index g row col = Grid_index g r c)) as [Heq|Hne].
    + apply Grid_index_inj in Heq as [-> ->]; [|done..].
      apply list_lookup_insert_eq. rewrite Hlen. by apply Grid_index_lt.
    + rewrite list_lookup_insert_ne by done. apply Hdone; [done|].
      destruct (decide (r = row)) as [->|]; [|lia].
      right. split; [done|]. destruct (decide (c = col)) as [->|]; [done|lia].
Qed.

Lemma calculateNextGeneration_spec g :
  Grid_wf g →
  ∃ next, calculateNextGeneration g = Ok next ∧
          numRows next = numRows g ∧ numCols next = numCols g ∧ Grid_wf next ∧
          ∀ row col, inBounds g row col = true →
                     Grid_get next row col = Ok (nextAge g row col).
Proof.
  intros Hwf. pose proof Hwf as (HR & HC & Hlen & Hcells).
  unfold calculateNextGeneration, Grid_resize.
  replace ((numRows g <? 0) || (numCols g <? 0)) with false
    by (symmetry; apply orb_false_iff; rewrite !Z.ltb_ge; lia).
  cbn [mbind result_bind].
  destruct (for_int_inv (λ i s, scratch_inv g i 0 s)
              (λ row scratchGrid,
                 for_int 0 (numCols g) (λ col scratchGrid,
                   age ← Grid_get g row col;
                   neighbors ← countNeighbors g row col;
                   if neighbors =? 2 then
                     if 0 <? age then Grid_set scratchGrid row col (int_add age 1)
                     else Grid_set scratchGrid row col 0
                   else if neighbors =? 3 then Grid_set scratchGrid row col (int_add age 1)
                   else Grid_set scratchGrid row col 0)
                 scratchGrid)
              0 (numRows g)
              (mkGrid (numRows g) (numCols g)
                 (replicate (Z.to_nat (numRows g * numCols g)) 0)))
    as (next & Hnext & Hinv).
  - lia.
  - repeat split; cbn [numRows numCols elements].
    + by rewrite length_replicate.
    + apply Forall_replicate. unfold in_int, INT_MIN, INT_MAX. lia.
    + intros r c Hrc. apply inBounds_spec in Hrc. lia.
  - intros i s Hi Hs.
    destruct (for_int_inv (λ j t, scratch_inv g i j t)
                (λ col scratchGrid,
                   age ← Grid_get g i col;
                   neighbors ← countNeighbors g i col;
                   if neighbors =? 2 then
                     if 0 <? age then Grid_set scratchGrid i col (int_add age 1)
                     else Grid_set scratchGrid i col 0
                   else if neighbors =? 3 then Grid_set scratchGrid i col (int_add age 1)
                   else Grid_set scratchGrid i col 0)
                0 (numCols g) s) as (t & Ht & Hinv); [lia|done| |].
    + intros j u Hj Hu.
      assert (inBounds g i j = true) as Hin by (apply inBounds_spec; lia).
      pose proof Hu as (HuR & HuC & _).
      eexists. split; [by apply next_cell_step|]. by apply scratch_inv_step.
    + exists t. split; [done|].
      destruct Hinv as (HtR & HtC & Htlen & Htall & Htdone).
      repeat split; try done. intros r c Hrc Hbefore. apply Htdone; [done|].
      apply inBounds_spec in Hrc. lia.
  - exists next. split; [done|].
    destruct Hinv as (HnR & HnC & Hnlen & Hnall & Hndone).
    repeat split; try done; try lia.
    intros row col Hin. unfold Grid_get.
    replace (inBounds next row col) with true
      by (symmetry; apply inBounds_spec; rewrite HnR, HnC; by apply inBounds_spec).
    unfold Grid_index in *. rewrite HnC, Hndone; [done..|].
    apply inBounds_spec in Hin. lia.
Qed.

(** ** isStable *)

Lemma sumAges_app l1 l2 : sumAges (l1 ++ l2) = sumAges l1 + sumAges l2.
Proof. unfold sumAges. induction l1 as [|x l1 IH]; cbn; [done|]. rewrite IH. lia. Qed.

Lemma countLive_app l1 l2 : countLive (l1 ++ l2) = countLive l1 + countLive l2.
Proof. unfold countLive. rewrite filter_app, length_app. lia. Qed.

Lemma sumAges_take_S l k x :
  l !! k = Some x → sumAges (take (S k) l) = sumAges (take k l) + x.
Proof.
  intros Hk. rewrite (take_S_r _ _ _ Hk), sumAges_app. unfold sumAges. cbn. lia.
Qed.

Lemma countLive_take_S l k x :
  l !! k = Some x →
  countLive (take (S k) l) = countLive (take k l) + (if 0 <? x then 1 else 0).
Proof.
  intros Hk. rewrite (take_S_r _ _ _ Hk), countLive_app. f_equal.
  unfold countLive. rewrite filter_cons, filter_nil.
  destruct (Z.ltb_spec 0 x); case_decide; (done || lia).
Qed.

Lemma tally_step cur scr k x y :
  cur !! k = Some x → scr !! k = Some y →
  mkTallies
    (int_add (currentGridAge (tallies_of cur scr k)) x)
    (int_add (scratchGridAge (tallies_of cur scr k)) y)
    (if 0 <? x then int_add (currentGridCells (tallies_of cur scr k)) 1
     else currentGridCells (tallies_of cur scr k))
    (if 0 <? y then int_add (scratchGridCells (tallies_of cur scr k)) 1
     else scratchGridCells (tallies_of cur scr k))
  = tallies_of cur scr (S k).
Proof.
  intros Hx Hy. unfold tallies_of. cbn [currentGridAge scratchGridAge currentGridCells scratchGridCells].
  rewrite !int_add_wrap_l.
  rewrite (sumAges_take_S _ _ _ Hx), (sumAges_take_S _ _ _ Hy).
  rewrite (countLive_take_S _ _ _ Hx), (countLive_take_S _ _ _ Hy).
  destruct (0 <? x), (0 <? y); by rewrite ?Z.add_0_r.
Qed.

Lemma tally_spec cur scr :
  0 ≤ numRows cur → 0 ≤ numCols cur →
  numRows scr = numRows cur → numCols scr = numCols cur →
  length (elements cur) = Z.to_nat (numRows cur * numCols cur) →
  length (elements scr) = Z.to_nat (numRows scr * numCols scr) →
  tally cur scr
  = Ok (mkTallies (wrap_int (totalAge cur)) (wrap_int (totalAge scr))
                  (wrap_int (liveCells cur)) (wrap_int (liveCells scr))).
Proof.
  intros HR HC HsR HsC Hlen Hslen. unfold tally.
  destruct (for_int_inv
              (λ i t, t = tallies_of (elements cur) (elements scr) (Z.to_nat (i * numCols cur)))
              (λ row t,
                 for_int 0 (numCols cur) (λ col t,
                   cur' ← Grid_get cur row col;
                   scr' ← Grid_get scr row col;
                   Ok (mkTallies
                         (int_add (currentGridAge t) cur')
                         (int_add (scratchGridAge t) scr')
                         (if 0 <? cur' then int_add (currentGridCells t) 1 else currentGridCells t)
                         (if 0 <? scr' then int_add (scratchGridCells t) 1 else scratchGridCells t)))
                 t)
              0 (numRows cur) (mkTallies 0 0 0 0)) as (t & Ht & Hinv).
  - done.
  - by vm_compute.
  - intros i t Hi ->.
    destruct (for_int_inv
                (λ j t, t = tallies_of (elements cur) (elements scr)
                              (Z.to_nat (i * numCols cur + j)))
                (λ col t,
                   cur' ← Grid_get cur i col;
                   scr' ← Grid_get scr i col;
                   Ok (mkTallies
                         (int_add (currentGridAge t) cur')
                         (int_add (scratchGridAge t) scr')
                         (if 0 <? cur' then int_add (currentGridCells t) 1 else currentGridCells t)
                         (if 0 <? scr' then int_add (scratchGridCells t) 1 else scratchGridCells t)))
                0 (numCols cur)
                (tallies_of (elements cur) (elements scr) (Z.to_nat (i * numCols cur))))
      as (u & Hu & Hinv); [done|by rewrite Z.add_0_r| |].
    + intros j u Hj ->.
      assert (inBounds cur i j = true) as Hin by (apply inBounds_spec; lia).
      assert (inBounds scr i j = true) as Hsin by (apply inBounds_spec; lia).
      destruct (Grid_get_lookup cur i j Hlen Hin) as (x & Hx & ->).
      destruct (Grid_get_lookup scr i j Hslen Hsin) as (y & Hy & ->).
      cbn [mbind result_bind]. eexists. split; [done|].
      unfold Grid_index in Hx, Hy. rewrite HsC in Hy.
      rewrite (tally_step _ _ _ _ _ Hx Hy). f_equal. nia.
    + exists u. split; [done|]. rewrite Hinv. f_equal. nia.
  - rewrite Ht, Hinv. unfold tallies_of.
    rewrite !take_ge by (rewrite ?Hlen, ?Hslen, ?HsR, ?HsC; lia). done.
Qed.

Lemma isStable_spec kMaxAge cur scr :
  Grid_wf cur → Grid_wf scr →
  numRows scr = numRows cur → numCols scr = numCols cur →
  tallies_fit kMaxAge cur scr →
  isStable kMaxAge cur scr
  = Ok ((liveCells scr * kMaxAge <=? totalAge scr)
        && (totalAge scr - totalAge cur =? liveCells cur)).
Proof.
  intros (HR & HC & Hlen & _) (_ & _ & Hslen & _) HsR HsC (H1 & H2 & H3 & H4 & H5 & H6).
  unfold isStable. rewrite tally_spec; [|lia|lia|done..]. cbn [mbind result_bind].
  cbn [currentGridAge scratchGridAge currentGridCells scratchGridCells].
  unfold int_mul, int_sub.
  rewrite (wrap_int_id (totalAge cur)), (wrap_int_id (totalAge scr)) by done.
  rewrite (wrap_int_id (liveCells cur)), (wrap_int_id (liveCells scr)) by done.
  by rewrite !wrap_int_id.
Qed.

(** ** readInGrid: strings and the removal of comment lines *)

Lemma string_get_lt (s : string) (n : nat) :
  (n < String.length s)%nat → ∃ c, String.get n s = Some c.
Proof.
  revert n. induction s as [|a s IH]; intros n Hn; cbn in *; [lia|].
  destruct n as [|n]; [by exists a|]. apply IH. lia.
Qed.

Lemma string_get_ge (s : string) (n : nat) :
  (String.length s ≤ n)%nat → String.get n s = None.
Proof.
  revert n. induction s as [|a s IH]; intros n Hn; cbn in *; [done|].
  destruct n as [|n]; [lia|]. apply IH. lia.
Qed.

Lemma substring_one (s : string) (n : nat) (c : ascii) :
  String.get n s = Some c → substring n 1 s = String c EmptyString.
Proof.
  revert n. induction s as [|a s IH]; intros n Hn; cbn in *; [done|].
  destruct n as [|n].
  - injection Hn as ->. by destruct s.
  - by apply IH.
Qed.

Lemma empty_cell_test (s : string) (n : nat) (c : ascii) :
  String.get n s = Some c →
  String.eqb (substring n 1 s) emptyCell = Ascii.eqb c "-"%char.
Proof.
  intros Hc. rewrite (substring_one _ _ _ Hc). unfold emptyCell. cbn.
  by destruct (Ascii.eqb c "-"%char).
Qed.

Lemma Vector_get_lookup (v : list string) (i : Z) (x : string) :
  0 ≤ i → v !! Z.to_nat i = Some x → Vector_get v i = Ok x.
Proof.
  intros Hi Hx. unfold Vector_get, Vector_size.
  pose proof (lookup_lt_Some _ _ _ Hx).
  replace ((0 <=? i) && (i <? Z.of_nat (length v))) with true; [by rewrite Hx|].
  symmetry. apply andb_true_iff. rewrite Z.leb_le, Z.ltb_lt. lia.
Qed.

Lemma stripComments_snoc (pre : list string) (x : string) :
  stripComments (pre ++ [x])
  = stripComments pre ++ (if string_has commentMark x then [] else [x]).
Proof.
  unfold stripComments. rewrite filter_app. f_equal.
  rewrite filter_cons, filter_nil. destruct (string_has commentMark x); by case_decide.
Qed.

(** The backward loop over the lines removes exactly the comment lines. *)
Lemma strip_loop (pre suf : list string) :
  for_down (length pre) (Z.of_nat (length pre) - 1)
    (λ i linesInFile,
       line ← Vector_get linesInFile i;
       if string_has commentMark line then Vector_remove linesInFile i
       else Ok linesInFile)
    (pre ++ suf)
  = Ok (stripComments pre ++ suf).
Proof.
  revert suf. induction pre as [|x pre IH] using rev_ind; intros suf; [done|].
  rewrite length_app, Nat.add_1_r. cbn [for_down length].
  replace (Z.of_nat (S (length pre)) - 1) with (Z.of_nat (length pre)) by lia.
  rewrite <- app_assoc. cbn [app].
  rewrite (Vector_get_lookup _ _ x); [|lia|by rewrite Nat2Z.id, list_lookup_middle].
  cbn [mbind result_bind]. rewrite stripComments_snoc, <- app_assoc.
  destruct (string_has commentMark x).
  - unfold Vector_remove, Vector_size.
    replace ((0 <=? Z.of_nat (length pre))
             && (Z.of_nat (length pre) <? Z.of_nat (length (pre ++ x :: suf)))) with true.
    2:{ symmetry. apply andb_true_iff. rewrite Z.leb_le, Z.ltb_lt, length_app. cbn. lia. }
    cbn [mbind result_bind]. rewrite Nat2Z.id, delete_middle. apply IH.
  - cbn [mbind result_bind app]. apply IH.
Qed.

Lemma strip_loop_file (file : list string) :
  for_int_down (Vector_size file - 1) 0
    (λ i linesInFile,
       line ← Vector_get linesInFile i;
       if string_has commentMark line then Vector_remove linesInFile i
       else Ok linesInFile)
    file
  = Ok (stripComments file).
Proof.
  unfold for_int_down, Vector_size.
  replace (Z.to_nat (Z.of_nat (length file) - 1 - 0 + 1)) with (length file) by lia.
  pose proof (strip_loop file []) as H. by rewrite !app_nil_r in H.
Qed.

(** ** readInGrid: filling the grid *)

Lemma cell_index_inj (C r c r' c' : Z) :
  0 ≤ r → 0 ≤ r' → 0 ≤ c < C → 0 ≤ c' < C →
  Z.to_nat (r * C + c) = Z.to_nat (r' * C + c') → r = r' ∧ c = c'.
Proof.
  intros Hr Hr' Hc Hc' Heq.
  apply (Grid_index_inj (mkGrid (Z.max r r' + 1) C []));
    [apply inBounds_spec; cbn; lia..|exact Heq].
Qed.

Lemma fill_cell_step R C rows numLines line j t :
  rows !! Z.to_nat (numLines - 2) = Some line →
  0 ≤ numLines - 2 < R → 0 ≤ j < Z.of_nat (String.length line) → j < C →
  fill_inv R C rows (numLines - 2) j t →
  ∃ t',
    (if String.eqb (substring (Z.to_nat j) 1 line) emptyCell
     then Grid_set t (numLines - (fileColDimension + 1)) j 0
     else Grid_set t (numLines - (fileColDimension + 1)) j 1) = Ok t' ∧
    fill_inv R C rows (numLines - 2) (j + 1) t'.
Proof.
  intros Hline Hr Hj HjC (HR & HC & Hlen & Hcells).
  destruct (string_get_lt line (Z.to_nat j)) as [ch Hch]; [lia|].
  rewrite (empty_cell_test _ _ _ Hch).
  change (numLines - (fileColDimension + 1)) with (numLines - 2).
  assert (inBounds t (numLines - 2) j = true) as Hin by (apply inBounds_spec; lia).
  exists (mkGrid R C (<[Z.to_nat ((numLines - 2) * C + j) :=
                        if Ascii.eqb ch "-"%char then 0 else 1]> (elements t))).
  split.
  { unfold Grid_set, Grid_index. rewrite Hin, HR, HC. by destruct (Ascii.eqb ch "-"%char). }
  repeat split; cbn [numRows numCols elements]; [by rewrite length_insert|].
  intros r c Hr' Hc'.
  destruct (decide (Z.to_nat ((numLines - 2) * C + j) = Z.to_nat (r * C + c))) as [Heq|Hne].
  - apply cell_index_inj in Heq as [<- <-]; [|lia..].
    rewrite list_lookup_insert_eq by (rewrite Hlen; apply Z2Nat.inj_lt; nia).
    rewrite bool_decide_eq_true_2 by lia.
    unfold fileAge. by rewrite Hline, Hch.
  - rewrite list_lookup_insert_ne by done. rewrite Hcells by done.
    f_equal. apply (f_equal (λ b : bool, if b then _ else _)).
    apply bool_decide_ext.
    assert (¬ (r = numLines - 2 ∧ c = j)) by (intros [-> ->]; done). lia.
Qed.

Lemma fill_row_ok R C rows numLines line t :
  rows !! Z.to_nat (numLines - 2) = Some line →
  0 ≤ numLines - 2 < R → Z.of_nat (String.length line) ≤ C →
  fill_inv R C rows (numLines - 2) 0 t →
  ∃ t',
    for_int 0 (Z.of_nat (String.length line)) (λ numChars currentGrid,
      if String.eqb (substring (Z.to_nat numChars) 1 line) emptyCell
      then Grid_set currentGrid (numLines - (fileColDimension + 1)) numChars 0
      else Grid_set currentGrid (numLines - (fileColDimension + 1)) numChars 1) t = Ok t' ∧
    fill_inv R C rows (numLines + 1 - 2) 0 t'.
Proof.
  intros Hline Hr Hlen Ht.
  destruct (for_int_inv (λ j u, fill_inv R C rows (numLines - 2) j u)
              (λ numChars currentGrid,
                 if String.eqb (substring (Z.to_nat numChars) 1 line) emptyCell
                 then Grid_set currentGrid (numLines - (fileColDimension + 1)) numChars 0
                 else Grid_set currentGrid (numLines - (fileColDimension + 1)) numChars 1)
              0 (Z.of_nat (String.length line)) t) as (t' & Ht' & Hinv); [lia|done| |].
  - intros j u Hj Hu. by apply (fill_cell_step R C rows numLines line j u); try lia.
  - exists t'. split; [done|].
    destruct Hinv as (HR & HC & Hl & Hcells). repeat split; try done.
    intros r c Hr' Hc'. rewrite Hcells by done. f_equal.
    destruct (decide (r = numLines - 2 ∧ Z.of_nat (String.length line) ≤ c)) as [[-> Hge]|Hn].
    + rewrite bool_decide_eq_false_2 by lia. rewrite bool_decide_eq_true_2 by lia.
      unfold fileAge. rewrite Hline, string_get_ge; [done|lia].
    + apply (f_equal (λ b : bool, if b then _ else _)). apply bool_decide_ext. lia.
Qed.

Lemma fill_rows_ok R C h0 h1 rows :
  0 ≤ C → Z.of_nat (length rows) ≤ R →
  Forall (λ line, Z.of_nat (String.length line) ≤ C) rows →
  ∃ g,
    for_int (fileColDimension + 1) (Vector_size (h0 :: h1 :: rows)) (λ numLines currentGrid,
      line ← Vector_get (h0 :: h1 :: rows) numLines;
      for_int 0 (Z.of_nat (String.length line)) (λ numChars currentGrid,
        if String.eqb (substring (Z.to_nat numChars) 1 line) emptyCell
        then Grid_set currentGrid (numLines - (fileColDimension + 1)) numChars 0
        else Grid_set currentGrid (numLines - (fileColDimension + 1)) numChars 1)
      currentGrid)
    (mkGrid R C (replicate (Z.to_nat (R * C)) 0)) = Ok g ∧
    numRows g = R ∧ numCols g = C ∧
    ∀ r c, inBounds g r c = true → Grid_get g r c = Ok (fileAge rows r c).
Proof.
  intros HC HR Hfit.
  destruct (for_int_inv (λ n u, fill_inv R C rows (n - 2) 0 u)
              (λ numLines currentGrid,
                 line ← Vector_get (h0 :: h1 :: rows) numLines;
                 for_int 0 (Z.of_nat (String.length line)) (λ numChars currentGrid,
                   if String.eqb (substring (Z.to_nat numChars) 1 line) emptyCell
                   then Grid_set currentGrid (numLines - (fileColDimension + 1)) numChars 0
                   else Grid_set currentGrid (numLines - (fileColDimension + 1)) numChars 1)
                 currentGrid)
              (fileColDimension + 1) (Vector_size (h0 :: h1 :: rows))
              (mkGrid R C (replicate (Z.to_nat (R * C)) 0))) as (g & Hg & Hinv).
  - unfold fileColDimension, Vector_size. cbn [length]. lia.
  - repeat split; cbn [numRows numCols elements]; [by rewrite length_replicate|].
    intros r c Hr Hc. rewrite bool_decide_eq_false_2 by (unfold fileColDimension; lia).
    apply lookup_replicate_2. apply Z2Nat.inj_lt; nia.
  - unfold fileColDimension, Vector_size. cbn [length]. intros n u Hn Hu.
    destruct (lookup_lt_is_Some_2 rows (Z.to_nat (n - 2))) as [line Hline]; [lia|].
    rewrite (Vector_get_lookup _ _ line); [|lia|].
    2:{ replace (Z.to_nat n) with (S (S (Z.to_nat (n - 2)))) by lia. exact Hline. }
    cbn [mbind result_bind].
    apply (fill_row_ok R C rows n line u); [done|lia| |done].
    rewrite Forall_lookup in Hfit. by eapply Hfit.
  - exists g. split; [done|].
    destruct Hinv as (HgR & HgC & Hl & Hcells). repeat split; try done.
    intros r c Hin. unfold Grid_get, Grid_index. rewrite Hin.
    apply inBounds_spec in Hin. rewrite HgC, Hcells by lia.
    destruct (decide (r < Z.of_nat (length rows))) as [Hlt|Hge].
    + rewrite bool_decide_eq_true_2; [done|]. unfold Vector_size. cbn [length]. lia.
    + rewrite bool_decide_eq_false_2 by (unfold Vector_size; cbn [length]; lia).
      unfold fileAge. rewrite lookup_ge_None_2; [done|lia].
Qed.

(** ** readInGrid: the whole procedure *)

Lemma Grid_set_inside t row col v :
  inBounds t row col = true →
  Grid_set t row col v
  = Ok (mkGrid (numRows t) (numCols t) (<[Grid_index t row col := v]> (elements t))).
Proof. unfold Grid_set. by intros ->. Qed.

Lemma Grid_set_outside t row col v :
  inBounds t row col = false → Grid_set t row col v = Err GridIndexOutOfRange.
Proof. unfold Grid_set. by intros ->. Qed.

Lemma Grid_set_if (b : bool) t row col v w :
  (if b then Grid_set t row col v else Grid_set t row col w)
  = Grid_set t row col (if b then v else w).
Proof. by destruct b. Qed.

Lemma liveLine_length n : String.length (liveLine n) = n.
Proof. induction n as [|n IH]; cbn; [done|]. by rewrite IH. Qed.

Lemma liveLine_no_comment n : string_has commentMark (liveLine n) = false.
Proof. induction n as [|n IH]; cbn; done. Qed.

Lemma stripComments_clean (file : list string) :
  Forall (λ line, string_has commentMark line = false) file → stripComments file = file.
Proof.
  unfold stripComments. induction 1 as [|x l Hx Hl IH]; [done|].
  rewrite filter_cons_True by done. by rewrite IH.
Qed.

Section ReadInGridFacts.

Variable stringToInteger : string → result Z.

Lemma readInGrid_header file h0 h1 rows R C :
  stripComments file = h0 :: h1 :: rows →
  stringToInteger h0 = Ok R → stringToInteger h1 = Ok C →
  readInGrid stringToInteger file
  = (currentGrid ← Grid_resize R C;
     for_int (fileColDimension + 1) (Vector_size (h0 :: h1 :: rows))
       (λ numLines currentGrid,
          line ← Vector_get (h0 :: h1 :: rows) numLines;
          for_int 0 (Z.of_nat (String.length line)) (λ numChars currentGrid,
            if String.eqb (substring (Z.to_nat numChars) 1 line) emptyCell
            then Grid_set currentGrid (numLines - (fileColDimension + 1)) numChars 0
            else Grid_set currentGrid (numLines - (fileColDimension + 1)) numChars 1)
          currentGrid)
       currentGrid).
Proof.
  intros Hstrip H0 H1. unfold readInGrid.
  rewrite strip_loop_file, Hstrip. cbn [mbind result_bind].
  rewrite (Vector_get_lookup _ fileRowDimension h0) by done. cbn [mbind result_bind].
  rewrite H0. cbn [mbind result_bind].
  rewrite (Vector_get_lookup _ fileColDimension h1) by done. cbn [mbind result_bind].
  by rewrite H1.
Qed.

Lemma readInGrid_negative_cols file h0 h1 rows R C :
  stripComments file = h0 :: h1 :: rows →
  stringToInteger h0 = Ok R → stringToInteger h1 = Ok C →
  C < 0 → readInGrid stringToInteger file = Err GridInvalidSize.
Proof.
  intros Hstrip H0 H1 HC.
  rewrite (readInGrid_header _ _ _ _ _ _ Hstrip H0 H1). unfold Grid_resize.
  replace ((R <? 0) || (C <? 0)) with true; [done|].
  symmetry. apply orb_true_iff. right. by apply Z.ltb_lt.
Qed.

(** One row-data line, one character longer than the declared width. *)
Lemma readInGrid_long_line h0 h1 R C :
  string_has commentMark h0 = false → string_has commentMark h1 = false →
  stringToInteger h0 = Ok R → stringToInteger h1 = Ok C →
  0 ≤ R → 0 ≤ C →
  readInGrid stringToInteger [h0; h1; liveLine (Z.to_nat (C + 1))]
  = Err GridIndexOutOfRange.
Proof.
  intros Hc0 Hc1 H0 H1 HR HC.
  rewrite (readInGrid_header _ h0 h1 [liveLine (Z.to_nat (C + 1))] R C); [|..|done|done].
  2:{ apply stripComments_clean. repeat constructor; try done.
      apply liveLine_no_comment. }
  unfold Grid_resize.
  replace ((R <? 0) || (C <? 0)) with false
    by (symmetry; apply orb_false_iff; rewrite !Z.ltb_ge; lia).
  cbn [mbind result_bind]. unfold for_int, fileColDimension, Vector_size.
  cbn [length]. change (Z.to_nat (Z.of_nat 3 - (1 + 1))) with 1%nat. cbn [for_up].
  rewrite (Vector_get_lookup _ _ (liveLine (Z.to_nat (C + 1)))) by done.
  cbn [mbind result_bind]. rewrite liveLine_length.
  rewrite (for_up_err (λ t, numRows t = R ∧ numCols t = C) GridIndexOutOfRange _ _ _ _
             (if decide (R = 0) then 0 else C)); [done|..].
  - case_decide; lia.
  - done.
  - intros j t Hj [HtR HtC].
    assert (inBounds t (1 + 1 - (1 + 1)) j = true) as Hin
      by (apply inBounds_spec; case_decide; lia).
    rewrite Grid_set_if, Grid_set_inside by done. eexists. split; [done|]. done.
  - intros t [HtR HtC].
    assert (inBounds t (1 + 1 - (1 + 1)) (if decide (R = 0) then 0 else C) = false) as Hout
      by (apply inBounds_outside; case_decide; lia).
    by rewrite Grid_set_if, Grid_set_outside.
Qed.

(** One row-data line more than the declared height. *)
Lemma readInGrid_many_rows h0 h1 R C :
  string_has commentMark h0 = false → string_has commentMark h1 = false →
  stringToInteger h0 = Ok R → stringToInteger h1 = Ok C →
  0 ≤ R → 0 < C →
  readInGrid stringToInteger (h0 :: h1 :: replicate (Z.to_nat (R + 1)) (liveLine 1))
  = Err GridIndexOutOfRange.
Proof.
  intros Hc0 Hc1 H0 H1 HR HC.
  rewrite (readInGrid_header _ h0 h1 (replicate (Z.to_nat (R + 1)) (liveLine 1)) R C);
    [|..|done|done].
  2:{ apply stripComments_clean. repeat constructor; try done.
      apply Forall_replicate. done. }
  unfold Grid_resize.
  replace ((R <? 0) || (C <? 0)) with false
    by (symmetry; apply orb_false_iff; rewrite !Z.ltb_ge; lia).
  cbn [mbind result_bind].
  assert (∀ n, 2 ≤ n < R + 3 →
               Vector_get (h0 :: h1 :: replicate (Z.to_nat (R + 1)) (liveLine 1)) n
               = Ok (liveLine 1)) as Hget.
  { intros n Hn. apply Vector_get_lookup; [lia|].
    replace (Z.to_nat n) with (S (S (Z.to_nat (n - 2)))) by lia.
    cbn [lookup list_lookup]. apply lookup_replicate_2. lia. }
  apply (for_int_err (λ t, numRows t = R ∧ numCols t = C) _ _ _ _ _ (R + 2)).
  - unfold fileColDimension, Vector_size. cbn [length]. rewrite length_replicate. lia.
  - done.
  - unfold fileColDimension. intros n t Hn [HtR HtC]. rewrite Hget by lia.
    cbn [mbind result_bind]. unfold for_int.
    change (Z.to_nat (Z.of_nat (String.length (liveLine 1)) - 0)) with 1%nat.
    cbn [for_up].
    assert (inBounds t (n - (1 + 1)) 0 = true) as Hin by (apply inBounds_spec; lia).
    rewrite Grid_set_if, Grid_set_inside by done. cbn [mbind result_bind].
    eexists. split; [done|]. done.
  - unfold fileColDimension. intros t [HtR HtC]. rewrite Hget by lia.
    cbn [mbind result_bind]. unfold for_int.
    change (Z.to_nat (Z.of_nat (String.length (liveLine 1)) - 0)) with 1%nat.
    cbn [for_up].
    assert (inBounds t (R + 2 - (1 + 1)) 0 = false) as Hout
      by (apply inBounds_outside; lia).
    by rewrite Grid_set_if, Grid_set_outside.
Qed.

End ReadInGridFacts.

(** ** The 2x2 block *)

Lemma Grid_ext g1 g2 :
  numRows g1 = numRows g2 → numCols g1 = numCols g2 → 0 ≤ numCols g1 →
  length (elements g1) = Z.to_nat (numRows g1 * numCols g1) →
  length (elements g2) = Z.to_nat (numRows g2 * numCols g2) →
  (∀ r c, inBounds g1 r c = true → Grid_get g1 r c = Grid_get g2 r c) →
  g1 = g2.
Proof.
  intros HR HC HC0 Hl1 Hl2 Hget.
  assert (elements g1 = elements g2) as Hel.
  { apply (list_eq_same_length _ _ (Z.to_nat (numRows g1 * numCols g1)));
      [by rewrite Hl2, HR, HC|done|].
    intros i x y Hi Hx Hy.
    destruct (Grid_index_cover g1 i HC0 Hi) as (r & c & Hin & Hidx).
    assert (inBounds g2 r c = true) as Hin'.
    { apply inBounds_spec. rewrite <- HR, <- HC. by apply inBounds_spec. }
    specialize (Hget r c Hin). unfold Grid_get in Hget.
    rewrite Hin, Hin' in Hget.
    assert (Grid_index g2 r c = i) as Hidx' by (unfold Grid_index in *; by rewrite <- HC).
    rewrite Hidx, Hidx', Hx, Hy in Hget. congruence. }
  destruct g1, g2. cbn in *. congruence.
Qed.

Lemma sumAges_insert l i x v :
  l !! i = Some x → sumAges (<[i:=v]> l) = sumAges l - x + v.
Proof.
  intros Hx. pose proof (lookup_lt_Some _ _ _ Hx) as Hi.
  rewrite insert_take_drop by done. rewrite <- (take_drop_middle _ _ _ Hx) at 3.
  rewrite !sumAges_app. unfold sumAges at 2 4. cbn [foldr]. fold (sumAges (drop (S i) l)). lia.
Qed.

Lemma countLive_insert l i x v :
  l !! i = Some x →
  countLive (<[i:=v]> l)
  = countLive l - (if 0 <? x then 1 else 0) + (if 0 <? v then 1 else 0).
Proof.
  intros Hx. pose proof (lookup_lt_Some _ _ _ Hx) as Hi.
  rewrite insert_take_drop by done. rewrite <- (take_drop_middle _ _ _ Hx) at 3.
  rewrite !countLive_app.
  assert (∀ a t, countLive (a :: t) = (if 0 <? a then 1 else 0) + countLive t) as Hcons.
  { intros a t. unfold countLive. rewrite filter_cons.
    destruct (Z.ltb_spec 0 a); case_decide; cbn [length]; lia. }
  rewrite !Hcons. lia.
Qed.

Lemma sumAges_replicate n : sumAges (replicate n 0) = 0.
Proof. unfold sumAges. induction n as [|n IH]; cbn; [done|]. by rewrite IH. Qed.

Lemma countLive_replicate n : countLive (replicate n 0) = 0.
Proof.
  unfold countLive. induction n as [|n IH]; cbn [replicate]; [done|].
  rewrite filter_cons_False by lia. exact IH.
Qed.

Lemma blockGrid_Ok R C r0 c0 v g :
  blockGrid R C r0 c0 v = Ok g →
  (0 ≤ r0 ∧ r0 + 1 < R ∧ 0 ≤ c0 ∧ c0 + 1 < C) ∧
  g = mkGrid R C
        (<[Z.to_nat ((r0 + 1) * C + (c0 + 1)) := v]>
           (<[Z.to_nat ((r0 + 1) * C + c0) := v]>
              (<[Z.to_nat (r0 * C + (c0 + 1)) := v]>
                 (<[Z.to_nat (r0 * C + c0) := v]> (replicate (Z.to_nat (R * C)) 0))))).
Proof.
  unfold blockGrid, Grid_resize. destruct ((R <? 0) || (C <? 0)); [done|].
  cbn [mbind result_bind]. unfold Grid_set, Grid_index. cbn [numRows numCols elements].
  destruct (inBounds _ r0 c0) eqn:H1; [|done]. cbn [mbind result_bind numRows numCols elements].
  destruct (inBounds _ r0 (c0 + 1)) eqn:H2; [|done]. cbn [mbind result_bind numRows numCols elements].
  destruct (inBounds _ (r0 + 1) c0) eqn:H3; [|done]. cbn [mbind result_bind numRows numCols elements].
  destruct (inBounds _ (r0 + 1) (c0 + 1)) eqn:H4; [|done].
  intros [= <-]. split; [|done].
  apply inBounds_spec in H1, H4. cbn [numRows numCols] in *. lia.
Qed.

Lemma blockGrid_get R C r0 c0 v g r c :
  blockGrid R C r0 c0 v = Ok g → inBounds g r c = true →
  Grid_get g r c = Ok (if inBlock r0 c0 r c then v else 0).
Proof.
  intros Hg Hin. apply blockGrid_Ok in Hg as [Hb ->].
  unfold Grid_get, Grid_index. rewrite Hin. cbn [numRows numCols elements].
  apply inBounds_spec in Hin. cbn [numRows numCols] in Hin.
  assert (∀ r' c', 0 ≤ r' → 0 ≤ c' < C →
            Z.to_nat (r' * C + c') = Z.to_nat (r * C + c) ↔ r' = r ∧ c' = c) as Hidx.
  { intros r' c' Hr' Hc'. split; [|by intros [-> ->]].
    apply cell_index_inj; lia. }
  assert (Z.to_nat (r * C + c) < Z.to_nat (R * C))%nat as Hlt by (apply Z2Nat.inj_lt; nia).
  unfold inBlock, inSpan.
  destruct (decide (r = r0 + 1 ∧ c = c0 + 1)) as [[-> ->]|N4].
  { rewrite list_lookup_insert_eq by (rewrite !length_insert, length_replicate; done).
    rewrite Z.eqb_refl, orb_true_r. cbn. by rewrite Z.eqb_refl, orb_true_r. }
  rewrite list_lookup_insert_ne by (rewrite Hidx; lia).
  destruct (decide (r = r0 + 1 ∧ c = c0)) as [[-> ->]|N3].
  { rewrite list_lookup_insert_eq by (rewrite !length_insert, length_replicate; done).
    by rewrite !Z.eqb_refl, orb_true_r. }
  rewrite list_lookup_insert_ne by (rewrite Hidx; lia).
  destruct (decide (r = r0 ∧ c = c0 + 1)) as [[-> ->]|N2].
  { rewrite list_lookup_insert_eq by (rewrite !length_insert, length_replicate; done).
    by rewrite !Z.eqb_refl, orb_true_r. }
  rewrite list_lookup_insert_ne by (rewrite Hidx; lia).
  destruct (decide (r = r0 ∧ c = c0)) as [[-> ->]|N1].
  { rewrite list_lookup_insert_eq by (rewrite length_replicate; done).
    by rewrite !Z.eqb_refl. }
  rewrite list_lookup_insert_ne by (rewrite Hidx; lia).
  rewrite lookup_replicate_2 by done.
  destruct (Z.eqb_spec r r0), (Z.eqb_spec r (r0 + 1)), (Z.eqb_spec c c0),
    (Z.eqb_spec c (c0 + 1)); cbn; try done; lia.
Qed.

Lemma blockGrid_exists R C r0 c0 v :
  0 ≤ r0 → r0 + 1 < R → 0 ≤ c0 → c0 + 1 < C → ∃ g, blockGrid R C r0 c0 v = Ok g.
Proof.
  intros Hr0 Hr1 Hc0 Hc1. unfold blockGrid, Grid_resize.
  replace ((R <? 0) || (C <? 0)) with false
    by (symmetry; apply orb_false_iff; rewrite !Z.ltb_ge; lia).
  cbn [mbind result_bind].
  rewrite Grid_set_inside by (apply inBounds_spec; cbn; lia). cbn [mbind result_bind].
  rewrite Grid_set_inside by (apply inBounds_spec; cbn; lia). cbn [mbind result_bind].
  rewrite Grid_set_inside by (apply inBounds_spec; cbn; lia). cbn [mbind result_bind].
  rewrite Grid_set_inside by (apply inBounds_spec; cbn; lia). by eexists.
Qed.

Lemma blockGrid_wf R C r0 c0 v g :
  blockGrid R C r0 c0 v = Ok g → R ≤ INT_MAX → C ≤ INT_MAX → in_int v → Grid_wf g.
Proof.
  intros Hg HR HC Hv. apply blockGrid_Ok in Hg as [Hb ->].
  repeat split; cbn [numRows numCols elements]; try lia.
  - by rewrite !length_insert, length_replicate.
  - repeat (apply Forall_insert; [|done]). apply Forall_replicate.
    unfold in_int, INT_MIN, INT_MAX. lia.
Qed.

Lemma blockGrid_tallies R C r0 c0 v g :
  blockGrid R C r0 c0 v = Ok g →
  totalAge g = 4 * v ∧ liveCells g = 4 * (if 0 <? v then 1 else 0).
Proof.
  intros Hg. apply blockGrid_Ok in Hg as [Hb ->].
  unfold totalAge, liveCells. cbn [elements].
  assert (∀ r c, 0 ≤ r < R → 0 ≤ c < C → (Z.to_nat (r * C + c) < Z.to_nat (R * C))%nat)
    as Hlt by (intros r c Hr Hc; apply Z2Nat.inj_lt; nia).
  assert (∀ r c r' c', 0 ≤ r → 0 ≤ r' → 0 ≤ c < C → 0 ≤ c' < C → (r, c) ≠ (r', c') →
            Z.to_nat (r * C + c) ≠ Z.to_nat (r' * C + c')) as Hne.
  { intros r c r' c' Hr Hr' Hc Hc' Hneq Heq.
    apply cell_index_inj in Heq as [-> ->]; done || lia. }
  set (l0 := replicate (Z.to_nat (R * C)) 0).
  set (l1 := <[Z.to_nat (r0 * C + c0) := v]> l0).
  set (l2 := <[Z.to_nat (r0 * C + (c0 + 1)) := v]> l1).
  set (l3 := <[Z.to_nat ((r0 + 1) * C + c0) := v]> l2).
  assert (l0 !! Z.to_nat (r0 * C + c0) = Some 0) as H0
    by (apply lookup_replicate_2, Hlt; lia).
  assert (l1 !! Z.to_nat (r0 * C + (c0 + 1)) = Some 0) as H1.
  { unfold l1. rewrite list_lookup_insert_ne by (apply Hne; try lia; intros [=]; lia).
    apply lookup_replicate_2, Hlt; lia. }
  assert (l2 !! Z.to_nat ((r0 + 1) * C + c0) = Some 0) as H2.
  { unfold l2, l1. rewrite !list_lookup_insert_ne by (apply Hne; try lia; intros [=]; lia).
    apply lookup_replicate_2, Hlt; lia. }
  assert (l3 !! Z.to_nat ((r0 + 1) * C + (c0 + 1)) = Some 0) as H3.
  { unfold l3, l2, l1. rewrite !list_lookup_insert_ne by (apply Hne; try lia; intros [=]; lia).
    apply lookup_replicate_2, Hlt; lia. }
  subst l3 l2 l1 l0.
  rewrite (sumAges_insert _ _ _ _ H3), (sumAges_insert _ _ _ _ H2),
    (sumAges_insert _ _ _ _ H1), (sumAges_insert _ _ _ _ H0).
  rewrite (countLive_insert _ _ _ _ H3), (countLive_insert _ _ _ _ H2),
    (countLive_insert _ _ _ _ H1), (countLive_insert _ _ _ _ H0).
  rewrite sumAges_replicate, countLive_replicate.
  change (0 <? 0) with false. cbv iota. lia.
Qed.

Lemma liveAt_block R C r0 c0 v g x y :
  blockGrid R C r0 c0 v = Ok g → 0 < v → liveAt g x y = inBlock r0 c0 x y.
Proof.
  intros Hg Hv. unfold liveAt.
  destruct (inBounds g x y) eqn:Hin.
  - rewrite (blockGrid_get _ _ _ _ _ _ _ _ Hg Hin).
    destruct (inBlock r0 c0 x y); [by apply Z.ltb_lt|done].
  - rewrite Grid_get_outside by done.
    apply blockGrid_Ok in Hg as [Hb ->]. unfold inBlock, inSpan.
    destruct (Z.eqb_spec x r0), (Z.eqb_spec x (r0 + 1)), (Z.eqb_spec y c0),
      (Z.eqb_spec y (c0 + 1)); cbn; try done;
      exfalso; apply not_true_iff_false in Hin; apply Hin, inBounds_spec; cbn; lia.
Qed.

Lemma block_liveNeighbors R C r0 c0 v g r c :
  blockGrid R C r0 c0 v = Ok g → 0 < v →
  liveNeighbors g r c
  = Z.of_nat (length (filter (λ d, inBlock r0 c0 (r + d.1) (c + d.2) = true) neighborOffsets)).
Proof.
  intros Hg Hv. unfold liveNeighbors. do 2 f_equal.
  apply list_filter_iff. intros d. by rewrite (liveAt_block _ _ _ _ _ _ _ _ Hg Hv).
Qed.

(** Which of x-1, x, x+1 lie in the span {x0, x0+1}. *)
Lemma span_pattern x0 x :
  (inSpan x0 (x + -1), inSpan x0 (x + 0), inSpan x0 (x + 1))
  ∈ [(false, false, false); (false, false, true); (false, true, true);
     (true, true, false); (true, false, false)].
Proof.
  unfold inSpan.
  destruct (Z.eqb_spec (x + -1) x0), (Z.eqb_spec (x + -1) (x0 + 1)),
    (Z.eqb_spec (x + 0) x0), (Z.eqb_spec (x + 0) (x0 + 1)),
    (Z.eqb_spec (x + 1) x0), (Z.eqb_spec (x + 1) (x0 + 1));
    try lia; cbn [orb]; repeat constructor.
Qed.

Lemma block_nextAge R C r0 c0 g r c :
  blockGrid R C r0 c0 1 = Ok g → inBounds g r c = true →
  nextAge g r c = if inBlock r0 c0 r c then 2 else 0.
Proof.
  intros Hg Hin. unfold nextAge, Grid_cell.
  rewrite (blockGrid_get _ _ _ _ _ _ _ _ Hg Hin).
  rewrite (block_liveNeighbors _ _ _ _ _ _ r c Hg) by lia.
  unfold neighborOffsets. rewrite !filter_cons, filter_nil. cbn [fst snd]. unfold inBlock.
  replace (inSpan r0 r) with (inSpan r0 (r + 0)) by (by rewrite Z.add_0_r).
  replace (inSpan c0 c) with (inSpan c0 (c + 0)) by (by rewrite Z.add_0_r).
  pose proof (span_pattern r0 r) as Hr. pose proof (span_pattern c0 c) as Hc.
  revert Hr Hc.
  generalize (inSpan r0 (r + -1)), (inSpan r0 (r + 0)), (inSpan r0 (r + 1)),
    (inSpan c0 (c + -1)), (inSpan c0 (c + 0)), (inSpan c0 (c + 1)).
  clear. intros a1 a2 a3 b1 b2 b3 Hr Hc.
  repeat (apply elem_of_cons in Hr as [[= -> -> ->]|Hr]);
    [..|by apply elem_of_nil in Hr];
    (repeat (apply elem_of_cons in Hc as [[= -> -> ->]|Hc]);
     [..|by apply elem_of_nil in Hc]); vm_compute; reflexivity.
Qed.

Lemma block_cell_neighbors R C r0 c0 v g r c :
  blockGrid R C r0 c0 v = Ok g → 0 < v →
  (r = r0 ∨ r = r0 + 1) → (c = c0 ∨ c = c0 + 1) →
  liveNeighbors g r c = 3.
Proof.
  intros Hg Hv Hr Hc. rewrite (block_liveNeighbors _ _ _ _ _ _ r c Hg Hv).
  unfold neighborOffsets. rewrite !filter_cons, filter_nil. cbn [fst snd]. unfold inBlock.
  assert (inSpan r0 (r + 0) = true) as Hr'.
  { unfold inSpan. apply orb_true_iff. rewrite !Z.eqb_eq. lia. }
  assert (inSpan c0 (c + 0) = true) as Hc'.
  { unfold inSpan. apply orb_true_iff. rewrite !Z.eqb_eq. lia. }
  pose proof (span_pattern r0 r) as Pr. pose proof (span_pattern c0 c) as Pc.
  revert Hr' Hc' Pr Pc.
  generalize (inSpan r0 (r + -1)), (inSpan r0 (r + 0)), (inSpan r0 (r + 1)),
    (inSpan c0 (c + -1)), (inSpan c0 (c + 0)), (inSpan c0 (c + 1)).
  clear. intros a1 a2 a3 b1 b2 b3 -> -> Pr Pc.
  repeat (apply elem_of_cons in Pr as [[= -> ->]|Pr]; try discriminate);
    [..|by apply elem_of_nil in Pr];
    (repeat (apply elem_of_cons in Pc as [[= -> ->]|Pc]; try discriminate);
     [..|by apply elem_of_nil in Pc]); vm_compute; reflexivity.
Qed.

(** ** The all-dead grid *)

Lemma allZero_replicate g :
  allZero g → elements g = replicate (length (elements g)) 0.
Proof.
  unfold allZero. induction 1 as [|x l -> _ IH]; cbn [length replicate]; [done|].
  by rewrite <- IH.
Qed.

Lemma allZero_tallies g : allZero g → totalAge g = 0 ∧ liveCells g = 0.
Proof.
  intros Hz. unfold totalAge, liveCells. rewrite (allZero_replicate g Hz).
  by rewrite sumAges_replicate, countLive_replicate.
Qed.

Lemma allZero_get g row col age : allZero g → Grid_get g row col = Ok age → age = 0.
Proof.
  intros Hz Hget. apply Grid_get_Ok in Hget as [_ Hl].
  unfold allZero in Hz. rewrite Forall_lookup in Hz. by eapply Hz.
Qed.

Lemma allZero_nextAge g row col : allZero g → nextAge g row col = 0.
Proof.
  intros Hz.
  assert (∀ x y, liveAt g x y = false) as Hdead.
  { intros x y. unfold liveAt. destruct (Grid_get g x y) as [age|] eqn:E; [|done].
    by rewrite (allZero_get _ _ _ _ Hz E). }
  unfold nextAge, liveNeighbors, neighborOffsets.
  rewrite !filter_cons, filter_nil, !Hdead. by vm_compute.
Qed.

(** ** Statements of the specification *)

(** C1.  The cell (row, col) of the grid returned by
    [calculateNextGeneration] is fixed by the old grid.  Let n be the
    number of live neighbours of the cell in the old grid, that is the
    number of the 8 cells around it that are in bounds and of age above
    0 ([liveNeighbors]), which is what [countNeighbors] returns.  With n
    exactly 2 a live cell ages by one and a dead cell stays 0, so the
    cell keeps its status; with n exactly 3 the cell is alive at the
    prior age plus one (a dead cell at age 1); with any other n it is
    0.  The increment is the [int] increment [++age], which is the prior
    age plus one whenever that is an [int] (prior age below [INT_MAX]). *)
Theorem calculateNextGeneration_rule (g : Grid) (row col age : Z) :
  Grid_wf g →
  Grid_get g row col = Ok age →
  ∃ next n v,
    calculateNextGeneration g = Ok next ∧
    n = liveNeighbors g row col ∧
    countNeighbors g row col = Ok n ∧
    Grid_get next row col = Ok v ∧
    0 ≤ n ≤ 8 ∧
    (n = 2 → 0 < age → age < INT_MAX → v = age + 1 ∧ 0 < v) ∧
    (n = 2 → age ≤ 0 → v = 0) ∧
    (n = 3 → age < INT_MAX → v = age + 1) ∧
    (n = 3 → 0 ≤ age < INT_MAX → 0 < v) ∧
    (n = 3 → age = 0 → v = 1) ∧
    (n ≠ 2 → n ≠ 3 → v = 0).
Proof.
  intros Hwf Hage. pose proof Hage as [Hin Hl]%Grid_get_Ok.
  destruct (calculateNextGeneration_spec g Hwf) as (next & Hnext & _ & _ & _ & Hcells).
  assert (in_int row ∧ in_int col) as [Hr Hc].
  { apply inBounds_spec in Hin. destruct Hwf as (? & ? & _).
    unfold in_int, INT_MIN, INT_MAX in *. lia. }
  assert (in_int age) as Hint.
  { destruct Hwf as (_ & _ & _ & Hall). rewrite Forall_lookup in Hall. by eapply Hall. }
  exists next, (liveNeighbors g row col), (nextAge g row col).
  split; [done|]. split; [done|].
  split; [by apply countNeighbors_spec|]. split; [by apply Hcells|].
  split; [apply liveNeighbors_range|].
  assert (age < INT_MAX → int_add age 1 = age + 1) as Hinc.
  { intros Hlt. apply int_add_small. unfold in_int, INT_MIN, INT_MAX in *. lia. }
  unfold nextAge, Grid_cell. rewrite Hage.
  split_and!.
  - intros -> Hpos Hlt. cbn. rewrite (proj2 (Z.ltb_lt 0 age)) by done.
    rewrite Hinc by done. lia.
  - intros -> Hdead. cbn. by rewrite (proj2 (Z.ltb_ge 0 age)).
  - intros -> Hlt. cbn. by apply Hinc.
  - intros -> Hrange. cbn. rewrite Hinc by lia. lia.
  - intros -> ->. by vm_compute.
  - intros Hn2 Hn3.
    rewrite (proj2 (Z.eqb_neq _ 2)) by done. by rewrite (proj2 (Z.eqb_neq _ 3)).
Qed.

Lemma calculateNextGeneration_rule_witness :
  Grid_wf block4 ∧ Grid_get block4 1 1 = Ok 1 ∧
  ∃ next n v,
    calculateNextGeneration block4 = Ok next ∧
    n = liveNeighbors block4 1 1 ∧
    countNeighbors block4 1 1 = Ok n ∧
    Grid_get next 1 1 = Ok v ∧
    0 ≤ n ≤ 8 ∧
    (n = 2 → 0 < 1 → 1 < INT_MAX → v = 1 + 1 ∧ 0 < v) ∧
    (n = 2 → 1 ≤ 0 → v = 0) ∧
    (n = 3 → 1 < INT_MAX → v = 1 + 1) ∧
    (n = 3 → 0 ≤ 1 < INT_MAX → 0 < v) ∧
    (n = 3 → 1 = 0 → v = 1) ∧
    (n ≠ 2 → n ≠ 3 → v = 0).
Proof.
  assert (Grid_wf block4) as Hwf.
  { unfold Grid_wf, in_int, INT_MIN, INT_MAX. cbn.
    repeat split; try lia. repeat (constructor; [lia|]). constructor. }
  split; [exact Hwf|]. split; [reflexivity|].
  apply (calculateNextGeneration_rule block4 1 1 1); [exact Hwf|reflexivity].
Defined.

(** C2.  For two grids of equal size, [isStable current next] returns
    true exactly when (a) the total age of [next] is at least its number
    of live cells times [kMaxAge] and (b) the total age of [next] minus
    that of [current] equals the number of live cells of [current].  The
    sums, counts, product and difference are the [int] values the code
    computes, taken to be representable ([tallies_fit]). *)
Theorem isStable_iff (kMaxAge : Z) (current next : Grid) :
  Grid_wf current → Grid_wf next →
  numRows next = numRows current → numCols next = numCols current →
  tallies_fit kMaxAge current next →
  ∃ b, isStable kMaxAge current next = Ok b ∧
       (b = true ↔
        liveCells next * kMaxAge ≤ totalAge next ∧
        totalAge next - totalAge current = liveCells current).
Proof.
  intros Hc Hn HR HC Hfit. eexists. split; [by apply isStable_spec|].
  rewrite andb_true_iff, Z.leb_le, Z.eqb_eq. done.
Qed.

Lemma isStable_iff_witness :
  Grid_wf block4 ∧ Grid_wf (mkGrid 4 4 [0;0;0;0; 0;2;2;0; 0;2;2;0; 0;0;0;0]) ∧
  4 = numRows block4 ∧ 4 = numCols block4 ∧
  tallies_fit 2 block4 (mkGrid 4 4 [0;0;0;0; 0;2;2;0; 0;2;2;0; 0;0;0;0]) ∧
  ∃ b, isStable 2 block4 (mkGrid 4 4 [0;0;0;0; 0;2;2;0; 0;2;2;0; 0;0;0;0]) = Ok b ∧
       (b = true ↔
        liveCells (mkGrid 4 4 [0;0;0;0; 0;2;2;0; 0;2;2;0; 0;0;0;0]) * 2
          ≤ totalAge (mkGrid 4 4 [0;0;0;0; 0;2;2;0; 0;2;2;0; 0;0;0;0]) ∧
        totalAge (mkGrid 4 4 [0;0;0;0; 0;2;2;0; 0;2;2;0; 0;0;0;0]) - totalAge block4
          = liveCells block4).
Proof.
  assert (Grid_wf block4) as Hwf.
  { unfold Grid_wf, in_int, INT_MIN, INT_MAX. cbn.
    repeat split; try lia. repeat (constructor; [lia|]). constructor. }
  assert (Grid_wf (mkGrid 4 4 [0;0;0;0; 0;2;2;0; 0;2;2;0; 0;0;0;0])) as Hwf'.
  { unfold Grid_wf, in_int, INT_MIN, INT_MAX. cbn.
    repeat split; try lia. repeat (constructor; [lia|]). constructor. }
  assert (tallies_fit 2 block4 (mkGrid 4 4 [0;0;0;0; 0;2;2;0; 0;2;2;0; 0;0;0;0])) as Hfit.
  { unfold tallies_fit, in_int, INT_MIN, INT_MAX. vm_compute. repeat split; discriminate. }
  split; [exact Hwf|]. split; [exact Hwf'|]. split; [reflexivity|]. split; [reflexivity|].
  split; [exact Hfit|].
  apply (isStable_iff 2 block4 (mkGrid 4 4 [0;0;0;0; 0;2;2;0; 0;2;2;0; 0;0;0;0]));
    [exact Hwf|exact Hwf'|reflexivity|reflexivity|exact Hfit].
Defined.

(** C3.  [countNeighbors grid row col] returns the number, between 0 and
    8, of the offsets in {-1,0,+1} x {-1,0,+1} other than (0,0) whose
    cell is in bounds with age > 0; cells off the grid count for nothing
    (no wrap-around).  The result is a function of those cells of the
    grid passed in only: a grid that agrees on them gives the same
    count. *)
Theorem countNeighbors_count (g : Grid) (row col : Z) :
  Grid_wf g → in_int row → in_int col →
  ∃ n, countNeighbors g row col = Ok n ∧
       0 ≤ n ≤ 8 ∧
       n = Z.of_nat (length (filter (λ d, liveAt g (row + d.1) (col + d.2) = true)
                               neighborOffsets)) ∧
       ∀ g', Grid_wf g' →
             (∀ d, d ∈ neighborOffsets →
                   Grid_get g' (row + d.1) (col + d.2) = Grid_get g (row + d.1) (col + d.2)) →
             countNeighbors g' row col = Ok n.
Proof.
  intros Hwf Hr Hc. exists (liveNeighbors g row col).
  split; [by apply countNeighbors_spec|]. split; [apply liveNeighbors_range|].
  split; [done|]. intros g' Hwf' Hsame.
  rewrite (countNeighbors_spec g' row col Hwf' Hr Hc). f_equal.
  unfold liveNeighbors. do 2 f_equal. apply filter_bool_ext.
  intros d Hd. unfold liveAt. by rewrite (Hsame d Hd).
Qed.

Lemma countNeighbors_count_witness :
  Grid_wf block4 ∧ in_int 0 ∧ in_int 3 ∧
  ∃ n, countNeighbors block4 0 3 = Ok n ∧
       0 ≤ n ≤ 8 ∧
       n = Z.of_nat (length (filter (λ d, liveAt block4 (0 + d.1) (3 + d.2) = true)
                               neighborOffsets)) ∧
       ∀ g', Grid_wf g' →
             (∀ d, d ∈ neighborOffsets →
                   Grid_get g' (0 + d.1) (3 + d.2) = Grid_get block4 (0 + d.1) (3 + d.2)) →
             countNeighbors g' 0 3 = Ok n.
Proof.
  assert (Grid_wf block4) as Hwf.
  { unfold Grid_wf, in_int, INT_MIN, INT_MAX. cbn.
    repeat split; try lia. repeat (constructor; [lia|]). constructor. }
  assert (in_int 0 ∧ in_int 3) as [H0 H3] by (unfold in_int, INT_MIN, INT_MAX; lia).
  split; [exact Hwf|]. split; [exact H0|]. split; [exact H3|].
  apply (countNeighbors_count block4 0 3); [exact Hwf|exact H0|exact H3].
Defined.

(** C5.  The grid returned by [calculateNextGeneration] has the row and
    column counts of the grid it is given. *)
Theorem calculateNextGeneration_dimensions (g : Grid) :
  Grid_wf g →
  ∃ next, calculateNextGeneration g = Ok next ∧
          numRows next = numRows g ∧ numCols next = numCols g.
Proof.
  intros Hwf.
  destruct (calculateNextGeneration_spec g Hwf) as (next & Hnext & HR & HC & _).
  by exists next.
Qed.

Lemma calculateNextGeneration_dimensions_witness :
  Grid_wf block4 ∧
  ∃ next, calculateNextGeneration block4 = Ok next ∧
          numRows next = numRows block4 ∧ numCols next = numCols block4.
Proof.
  assert (Grid_wf block4) as Hwf.
  { unfold Grid_wf, in_int, INT_MIN, INT_MAX. cbn.
    repeat split; try lia. repeat (constructor; [lia|]). constructor. }
  split; [exact Hwf|]. apply (calculateNextGeneration_dimensions block4 Hwf).
Defined.

(** C6.  A grid of dead cells only is stable against itself, its own
    next generation, whatever [kMaxAge] is. *)
Theorem isStable_allZero (kMaxAge : Z) (g : Grid) :
  Grid_wf g → allZero g → isStable kMaxAge g g = Ok true.
Proof.
  intros Hwf Hz. destruct (allZero_tallies g Hz) as [Hage Hcells].
  rewrite isStable_spec; [|done..|].
  - by rewrite Hage, Hcells.
  - unfold tallies_fit. rewrite Hage, Hcells. cbn.
    unfold in_int, INT_MIN, INT_MAX. lia.
Qed.

Lemma isStable_allZero_witness :
  Grid_wf (mkGrid 3 3 [0;0;0; 0;0;0; 0;0;0]) ∧ allZero (mkGrid 3 3 [0;0;0; 0;0;0; 0;0;0]) ∧
  isStable 12 (mkGrid 3 3 [0;0;0; 0;0;0; 0;0;0]) (mkGrid 3 3 [0;0;0; 0;0;0; 0;0;0]) = Ok true.
Proof.
  assert (Grid_wf (mkGrid 3 3 [0;0;0; 0;0;0; 0;0;0])) as Hwf.
  { unfold Grid_wf, in_int, INT_MIN, INT_MAX. cbn.
    repeat split; try lia. repeat (constructor; [lia|]). constructor. }
  assert (allZero (mkGrid 3 3 [0;0;0; 0;0;0; 0;0;0])) as Hz.
  { unfold allZero. cbn. repeat (constructor; [reflexivity|]). constructor. }
  split; [exact Hwf|]. split; [exact Hz|].
  apply (isStable_allZero 12 (mkGrid 3 3 [0;0;0; 0;0;0; 0;0;0]) Hwf Hz).
Defined.

(** C7.  [calculateNextGeneration] of a grid of dead cells only returns a
    grid of dead cells only, the same grid. *)
Theorem calculateNextGeneration_allZero (g : Grid) :
  Grid_wf g → allZero g →
  ∃ next, calculateNextGeneration g = Ok next ∧ allZero next ∧ next = g.
Proof.
  intros Hwf Hz.
  destruct (calculateNextGeneration_spec g Hwf) as (next & Hnext & HR & HC & Hnwf & Hcells).
  assert (next = g) as ->; [|by exists g].
  destruct Hwf as (_ & HC0 & Hlen & _). destruct Hnwf as (_ & _ & Hnlen & _).
  apply Grid_ext; [done|done|lia|done|done|].
  intros r c Hin.
  assert (inBounds g r c = true) as Hin'.
  { apply inBounds_spec. rewrite <- HR, <- HC. by apply inBounds_spec. }
  rewrite (Hcells r c Hin'), (allZero_nextAge g r c Hz).
  destruct (Grid_get_lookup g r c Hlen Hin') as (v & _ & Hv).
  rewrite Hv. f_equal. symmetry. by apply (allZero_get g r c).
Qed.

Lemma calculateNextGeneration_allZero_witness :
  Grid_wf (mkGrid 2 3 [0;0;0; 0;0;0]) ∧ allZero (mkGrid 2 3 [0;0;0; 0;0;0]) ∧
  ∃ next, calculateNextGeneration (mkGrid 2 3 [0;0;0; 0;0;0]) = Ok next ∧
          allZero next ∧ next = mkGrid 2 3 [0;0;0; 0;0;0].
Proof.
  assert (Grid_wf (mkGrid 2 3 [0;0;0; 0;0;0])) as Hwf.
  { unfold Grid_wf, in_int, INT_MIN, INT_MAX. cbn.
    repeat split; try lia. repeat (constructor; [lia|]). constructor. }
  assert (allZero (mkGrid 2 3 [0;0;0; 0;0;0])) as Hz.
  { unfold allZero. cbn. repeat (constructor; [reflexivity|]). constructor. }
  split; [exact Hwf|]. split; [exact Hz|].
  apply (calculateNextGeneration_allZero (mkGrid 2 3 [0;0;0; 0;0;0]) Hwf Hz).
Defined.

(** C8.  In a grid whose only live cells are the four cells of a 2x2
    block, each of age 1, every cell of the block has exactly 3 live
    neighbours, [calculateNextGeneration] returns the same block at age 2
    and nothing else, and with [kMaxAge] greater than 2 (the product the
    code forms with it being an [int]) [isStable] on the two grids
    returns false. *)
Theorem block_generation (kMaxAge R C r0 c0 : Z) (g : Grid) :
  blockGrid R C r0 c0 1 = Ok g → R ≤ INT_MAX → C ≤ INT_MAX →
  (countNeighbors g r0 c0 = Ok 3 ∧ countNeighbors g r0 (c0 + 1) = Ok 3 ∧
   countNeighbors g (r0 + 1) c0 = Ok 3 ∧ countNeighbors g (r0 + 1) (c0 + 1) = Ok 3) ∧
  ∃ next, calculateNextGeneration g = Ok next ∧
          blockGrid R C r0 c0 2 = Ok next ∧
          (2 < kMaxAge → 4 * kMaxAge ≤ INT_MAX → isStable kMaxAge g next = Ok false).
Proof.
  intros Hg HR HC.
  assert (in_int 1 ∧ in_int 2) as [Hi1 Hi2] by (unfold in_int, INT_MIN, INT_MAX; lia).
  pose proof (blockGrid_wf _ _ _ _ _ _ Hg HR HC Hi1) as Hwf.
  pose proof (blockGrid_Ok _ _ _ _ _ _ Hg) as [Hb Hgeq].
  assert (numRows g = R ∧ numCols g = C) as [HgR HgC] by (by rewrite Hgeq).
  assert (∀ r c, (r = r0 ∨ r = r0 + 1) → (c = c0 ∨ c = c0 + 1) →
                 countNeighbors g r c = Ok 3) as Hthree.
  { intros r c Hr Hc. rewrite countNeighbors_spec; [|done|unfold in_int, INT_MIN, INT_MAX in *; lia..].
    f_equal. by apply (block_cell_neighbors R C r0 c0 1). }
  split; [split_and!; apply Hthree; lia|].
  destruct (calculateNextGeneration_spec g Hwf) as (next & Hnext & HnR & HnC & Hnwf & Hcells).
  destruct (blockGrid_exists R C r0 c0 2) as [g2 Hg2]; [lia..|].
  pose proof (blockGrid_wf _ _ _ _ _ _ Hg2 HR HC Hi2) as Hwf2.
  pose proof (blockGrid_Ok _ _ _ _ _ _ Hg2) as [_ Hg2eq].
  assert (numRows g2 = R ∧ numCols g2 = C) as [H2R H2C] by (by rewrite Hg2eq).
  assert (next = g2) as ->.
  { destruct Hnwf as (_ & _ & Hnlen & _). destruct Hwf2 as (_ & _ & H2len & _).
    apply Grid_ext; [congruence|congruence|lia|done|done|].
    intros r c Hin.
    assert (inBounds g r c = true) as Hin1.
    { apply inBounds_spec. rewrite <- HnR, <- HnC. by apply inBounds_spec. }
    assert (inBounds g2 r c = true) as Hin2.
    { apply inBounds_spec. rewrite H2R, H2C, <- HgR, <- HgC. by apply inBounds_spec. }
    rewrite (Hcells r c Hin1), (block_nextAge _ _ _ _ _ _ _ Hg Hin1).
    by rewrite (blockGrid_get _ _ _ _ _ _ _ _ Hg2 Hin2). }
  exists g2. split; [done|]. split; [done|]. intros Hk Hk4.
  destruct (blockGrid_tallies _ _ _ _ _ _ Hg) as [Hage Hlive].
  destruct (blockGrid_tallies _ _ _ _ _ _ Hg2) as [Hage2 Hlive2].
  change (4 * (if 0 <? 1 then 1 else 0)) with 4 in Hlive.
  change (4 * (if 0 <? 2 then 1 else 0)) with 4 in Hlive2.
  rewrite isStable_spec; [|done|done|congruence|congruence|].
  - rewrite Hage, Hlive, Hage2, Hlive2. f_equal.
    apply andb_false_iff. left. apply Z.leb_gt. lia.
  - unfold tallies_fit. rewrite Hage, Hlive, Hage2, Hlive2.
    unfold in_int, INT_MIN, INT_MAX in *. lia.
Qed.

Lemma block_generation_witness :
  blockGrid 4 4 1 1 1 = Ok block4 ∧ 4 ≤ INT_MAX ∧
  (countNeighbors block4 1 1 = Ok 3 ∧ countNeighbors block4 1 (1 + 1) = Ok 3 ∧
   countNeighbors block4 (1 + 1) 1 = Ok 3 ∧ countNeighbors block4 (1 + 1) (1 + 1) = Ok 3) ∧
  ∃ next, calculateNextGeneration block4 = Ok next ∧
          blockGrid 4 4 1 1 2 = Ok next ∧
          (2 < 12 → 4 * 12 ≤ INT_MAX → isStable 12 block4 next = Ok false).
Proof.
  assert (4 ≤ INT_MAX) as H4 by (unfold INT_MAX; lia).
  split; [reflexivity|]. split; [exact H4|].
  apply (block_generation 12 4 4 1 1 block4); [reflexivity|exact H4|exact H4].
Defined.

(** C9.  In a grid whose cells are all non-negative (and below
    [INT_MAX], so that a prior age plus one is an [int]), every cell of
    the result of [calculateNextGeneration] is non-negative, and the
    cell (row, col) is 0 or the prior age of (row, col) plus one; when
    alive it is exactly one more than the prior age. *)
Theorem calculateNextGeneration_ages (g : Grid) :
  Grid_wf g →
  Forall (λ age, 0 ≤ age < INT_MAX) (elements g) →
  ∃ next,
    calculateNextGeneration g = Ok next ∧
    Forall (λ v, 0 ≤ v) (elements next) ∧
    ∀ row col age,
      Grid_get g row col = Ok age →
      ∃ v, Grid_get next row col = Ok v ∧
           (v = 0 ∨ v = age + 1) ∧ (0 < v → v = age + 1).
Proof.
  intros Hwf Hpos.
  destruct (calculateNextGeneration_spec g Hwf) as (next & Hnext & HR & HC & Hnwf & Hcells).
  assert (∀ row col age, Grid_get g row col = Ok age →
            Grid_get next row col = Ok (nextAge g row col) ∧
            (nextAge g row col = 0 ∨ nextAge g row col = age + 1)) as Hrule.
  { intros row col age Hage. pose proof Hage as [Hin Hl]%Grid_get_Ok.
    split; [by apply Hcells|].
    assert (0 ≤ age < INT_MAX) as Hrange by (rewrite Forall_lookup in Hpos; by eapply Hpos).
    assert (int_add age 1 = age + 1) as Hinc.
    { apply int_add_small. unfold in_int, INT_MIN, INT_MAX in *. lia. }
    unfold nextAge, Grid_cell. rewrite Hage, Hinc. repeat case_match; lia. }
  exists next. split; [done|]. split.
  - destruct Hnwf as (_ & HC0 & Hlen & _).
    apply Grid_cells_Forall; [lia|done|]. intros row col v Hv.
    assert (inBounds g row col = true) as Hin.
    { apply Grid_get_Ok in Hv as [Hin _]. apply inBounds_spec.
      rewrite <- HR, <- HC. by apply inBounds_spec. }
    destruct Hwf as (_ & _ & Hglen & _).
    destruct (Grid_get_lookup g row col Hglen Hin) as (age & Hl & Hage).
    destruct (Hrule row col age Hage) as [Hv' Hcases].
    assert (0 ≤ age) by (rewrite Forall_lookup in Hpos; by eapply Hpos).
    rewrite Hv in Hv'. injection Hv' as ->. lia.
  - intros row col age Hage. destruct (Hrule row col age Hage) as [Hv Hcases].
    exists (nextAge g row col). split; [done|]. split; [done|].
    assert (0 ≤ age) by (apply Grid_get_Ok in Hage as [_ Hl];
                         rewrite Forall_lookup in Hpos; by eapply Hpos).
    lia.
Qed.

Lemma calculateNextGeneration_ages_witness :
  Grid_wf block4 ∧ Forall (λ age, 0 ≤ age < INT_MAX) (elements block4) ∧
  ∃ next,
    calculateNextGeneration block4 = Ok next ∧
    Forall (λ v, 0 ≤ v) (elements next) ∧
    ∀ row col age,
      Grid_get block4 row col = Ok age →
      ∃ v, Grid_get next row col = Ok v ∧
           (v = 0 ∨ v = age + 1) ∧ (0 < v → v = age + 1).
Proof.
  assert (Grid_wf block4) as Hwf.
  { unfold Grid_wf, in_int, INT_MIN, INT_MAX. cbn.
    repeat split; try lia. repeat (constructor; [lia|]). constructor. }
  assert (Forall (λ age, 0 ≤ age < INT_MAX) (elements block4)) as Hpos.
  { unfold INT_MAX. cbn. repeat (constructor; [lia|]). constructor. }
  split; [exact Hwf|]. split; [exact Hpos|].
  apply (calculateNextGeneration_ages block4 Hwf Hpos).
Defined.

(** C4, with the premises the code needs.  When, the lines holding the
    comment mark removed, the first two lines read as integers R and C,
    C not negative, at most R row-data lines follow and none is longer
    than C, [readInGrid] returns the R-by-C grid whose cell (r, c) is 0
    where the character c of row-data line r is the dead marker, 1 where
    it is any other character, and 0 where there is no such character. *)
Theorem readInGrid_fills (stringToInteger : string → result Z)
    (file : list string) (h0 h1 : string) (rows : list string) (R C : Z) :
  stripComments file = h0 :: h1 :: rows →
  stringToInteger h0 = Ok R → stringToInteger h1 = Ok C →
  0 ≤ C →
  Z.of_nat (length rows) ≤ R →
  Forall (λ line, Z.of_nat (String.length line) ≤ C) rows →
  ∃ g, readInGrid stringToInteger file = Ok g ∧
       numRows g = R ∧ numCols g = C ∧
       ∀ r c, inBounds g r c = true → Grid_get g r c = Ok (fileAge rows r c).
Proof.
  intros Hstrip H0 H1 HC HR Hfit.
  rewrite (readInGrid_header _ _ _ _ _ _ _ Hstrip H0 H1). unfold Grid_resize.
  replace ((R <? 0) || (C <? 0)) with false
    by (symmetry; apply orb_false_iff; rewrite !Z.ltb_ge; lia).
  cbn [mbind result_bind]. by apply fill_rows_ok.
Qed.

Lemma readInGrid_fills_witness :
  stripComments scenarioC = ["3"; "3"; "-X-"; "X-X"; "-XX"]%string ∧
  decimalToInteger "3" = Ok 3 ∧ 0 ≤ 3 ∧
  Z.of_nat (length ["-X-"; "X-X"; "-XX"]%string) ≤ 3 ∧
  Forall (λ line, Z.of_nat (String.length line) ≤ 3) ["-X-"; "X-X"; "-XX"]%string ∧
  ∃ g, readInGrid decimalToInteger scenarioC = Ok g ∧
       numRows g = 3 ∧ numCols g = 3 ∧
       ∀ r c, inBounds g r c = true →
              Grid_get g r c = Ok (fileAge ["-X-"; "X-X"; "-XX"]%string r c).
Proof.
  assert (Forall (λ line, Z.of_nat (String.length line) ≤ 3) ["-X-"; "X-X"; "-XX"]%string)
    as Hfit by (repeat (constructor; [cbn; lia|]); constructor).
  split; [reflexivity|]. split; [reflexivity|]. split; [lia|]. split; [cbn; lia|].
  split; [exact Hfit|].
  apply (readInGrid_fills decimalToInteger scenarioC "3" "3" ["-X-"; "X-X"; "-XX"]%string 3 3);
    [reflexivity|reflexivity|reflexivity|lia|cbn; lia|exact Hfit].
Defined.

(** C4 as stated fails: a file that declares a 1-by-1 grid and then holds
    a row-data line of two characters makes [readInGrid] raise the grid's
    index error; no grid is filled. *)
Lemma readInGrid_fills_counterexample :
  stripComments ["1"; "1"; "XX"]%string = ["1"; "1"; "XX"]%string ∧
  decimalToInteger "1" = Ok 1 ∧
  readInGrid decimalToInteger ["1"; "1"; "XX"]%string = Err GridIndexOutOfRange ∧
  ¬ ∃ g, readInGrid decimalToInteger ["1"; "1"; "XX"]%string = Ok g.
Proof.
  split; [reflexivity|]. split; [reflexivity|]. split; [by vm_compute|].
  intros [g Hg]. vm_compute in Hg. discriminate.
Qed.

(** C10.  When every row-data line is at most as long as the declared
    column count C and there are at most R of them, [readInGrid] never
    raises the grid's index error: it writes within bounds only.  For
    any declared R and C there is a file with a row-data line longer
    than C, and (C positive) a file with more than R row-data lines,
    none longer than C, on which [readInGrid] raises that error. *)
Theorem readInGrid_bounds (stringToInteger : string → result Z) :
  (∀ file h0 h1 rows R C,
     stripComments file = h0 :: h1 :: rows →
     stringToInteger h0 = Ok R → stringToInteger h1 = Ok C →
     Z.of_nat (length rows) ≤ R →
     Forall (λ line, Z.of_nat (String.length line) ≤ C) rows →
     readInGrid stringToInteger file ≠ Err GridIndexOutOfRange) ∧
  (∀ h0 h1 R C,
     string_has commentMark h0 = false → string_has commentMark h1 = false →
     stringToInteger h0 = Ok R → stringToInteger h1 = Ok C →
     0 ≤ R → 0 ≤ C →
     (∃ file rows,
        stripComments file = h0 :: h1 :: rows ∧
        Exists (λ line, C < Z.of_nat (String.length line)) rows ∧
        readInGrid stringToInteger file = Err GridIndexOutOfRange) ∧
     (0 < C →
      ∃ file rows,
        stripComments file = h0 :: h1 :: rows ∧
        R < Z.of_nat (length rows) ∧
        Forall (λ line, Z.of_nat (String.length line) ≤ C) rows ∧
        readInGrid stringToInteger file = Err GridIndexOutOfRange)).
Proof.
  split.
  - intros file h0 h1 rows R C Hstrip H0 H1 HR Hfit.
    destruct (decide (0 ≤ C)) as [HC|HC].
    + rewrite (readInGrid_header _ _ _ _ _ _ _ Hstrip H0 H1). unfold Grid_resize.
      replace ((R <? 0) || (C <? 0)) with false
        by (symmetry; apply orb_false_iff; rewrite !Z.ltb_ge; lia).
      cbn [mbind result_bind].
      destruct (fill_rows_ok R C h0 h1 rows HC HR Hfit) as (g & -> & _). done.
    + rewrite (readInGrid_negative_cols stringToInteger file h0 h1 rows R C); [done..|lia].
  - intros h0 h1 R C Hc0 Hc1 H0 H1 HR HC. split.
    + exists [h0; h1; liveLine (Z.to_nat (C + 1))], [liveLine (Z.to_nat (C + 1))].
      split; [|split].
      * apply stripComments_clean. repeat constructor; try done. apply liveLine_no_comment.
      * apply Exists_cons_hd. rewrite liveLine_length. lia.
      * by apply (readInGrid_long_line stringToInteger h0 h1 R C).
    + intros HCpos.
      exists (h0 :: h1 :: replicate (Z.to_nat (R + 1)) (liveLine 1)),
        (replicate (Z.to_nat (R + 1)) (liveLine 1)).
      split; [|split; [|split]].
      * apply stripComments_clean. repeat constructor; try done. by apply Forall_replicate.
      * rewrite length_replicate. lia.
      * apply Forall_replicate. cbn. lia.
      * by apply (readInGrid_many_rows stringToInteger h0 h1 R C).
Qed.

Lemma readInGrid_bounds_witness :
  readInGrid decimalToInteger scenarioC ≠ Err GridIndexOutOfRange ∧
  (∃ file rows,
     stripComments file = "2"%string :: "3"%string :: rows ∧
     Exists (λ line, 3 < Z.of_nat (String.length line)) rows ∧
     readInGrid decimalToInteger file = Err GridIndexOutOfRange) ∧
  (∃ file rows,
     stripComments file = "2"%string :: "3"%string :: rows ∧
     2 < Z.of_nat (length rows) ∧
     Forall (λ line, Z.of_nat (String.length line) ≤ 3) rows ∧
     readInGrid decimalToInteger file = Err GridIndexOutOfRange).
Proof.
  destruct (readInGrid_bounds decimalToInteger) as [Hin Hout].
  split.
  - apply (Hin scenarioC "3" "3" ["-X-"; "X-X"; "-XX"] 3 3)%string;
      [reflexivity|reflexivity|reflexivity|cbn; lia|].
    repeat (constructor; [cbn; lia|]). constructor.
  - destruct (Hout "2" "3" 2 3)%string as [Hlong Hmany];
      [reflexivity|reflexivity|reflexivity|reflexivity|lia|lia|].
    split; [exact Hlong|]. apply Hmany. lia.
Defined.

(** ** drawGrid *)

Lemma cellCalls_length g : length (cellCalls g) = length (elements g).
Proof. unfold cellCalls. apply length_imap. Qed.

Lemma cellCalls_at g row col :
  0 ≤ row → 0 ≤ col < numCols g →
  cellCalls g !! Z.to_nat (row * numCols g + col)
  = (λ age, (row, col, age)) <$> elements g !! Z.to_nat (row * numCols g + col).
Proof.
  intros Hr Hc. unfold cellCalls. rewrite list_lookup_imap.
  destruct (elements g !! Z.to_nat (row * numCols g + col)) as [age|]; [|done].
  cbn. do 3 f_equal.
  - rewrite Z2Nat.id by nia. rewrite Z.div_add_l by lia. rewrite Z.div_small by lia. lia.
  - rewrite Z2Nat.id by nia. rewrite Z.add_comm, Z.mod_add by lia. by apply Z.mod_small.
Qed.

Lemma drawGrid_spec g display :
  0 ≤ numRows g → 0 ≤ numCols g →
  length (elements g) = Z.to_nat (numRows g * numCols g) →
  drawGrid g display = Ok (display ++ cellCalls g).
Proof.
  intros HR HC Hlen. unfold drawGrid.
  destruct (for_int_inv
              (λ i d, d = display ++ take (Z.to_nat (i * numCols g)) (cellCalls g))
              (λ row display,
                 for_int 0 (numCols g) (λ col display,
                   age ← Grid_get g row col;
                   Ok (drawCellAt display row col age))
                 display)
              0 (numRows g) display) as (d & -> & Hd).
  - done.
  - cbn. by rewrite app_nil_r.
  - intros i d Hi ->.
    destruct (for_int_inv
                (λ j d, d = display ++ take (Z.to_nat (i * numCols g + j)) (cellCalls g))
                (λ col display,
                   age ← Grid_get g i col;
                   Ok (drawCellAt display i col age))
                0 (numCols g)
                (display ++ take (Z.to_nat (i * numCols g)) (cellCalls g)))
      as (d & -> & Hd); [done|by rewrite Z.add_0_r| |].
    + intros j d Hj ->.
      assert (inBounds g i j = true) as Hin by (apply inBounds_spec; lia).
      destruct (Grid_get_lookup g i j Hlen Hin) as (age & Hage & ->).
      cbn [mbind result_bind]. eexists. split; [done|].
      unfold drawCellAt, Grid_index in *. rewrite <- app_assoc. f_equal.
      replace (Z.to_nat (i * numCols g + (j + 1))) with (S (Z.to_nat (i * numCols g + j)))
        by lia.
      symmetry. apply take_S_r. rewrite cellCalls_at by lia. by rewrite Hage.
    + eexists. split; [done|]. rewrite Hd. do 2 f_equal. lia.
  - rewrite Hd. do 2 f_equal. apply take_ge. rewrite cellCalls_length, Hlen. lia.
Qed.

Lemma cellCalls_of_cell g row col age :
  Grid_get g row col = Ok age →
  cellCalls g !! Grid_index g row col = Some (row, col, age).
Proof.
  intros [Hin Hage]%Grid_get_Ok. apply inBounds_spec in Hin.
  unfold Grid_index in *. rewrite cellCalls_at by lia. by rewrite Hage.
Qed.

Lemma cellCalls_to_cell g i row col age :
  0 ≤ numCols g →
  length (elements g) = Z.to_nat (numRows g * numCols g) →
  cellCalls g !! i = Some (row, col, age) →
  Grid_get g row col = Ok age ∧ Grid_index g row col = i.
Proof.
  intros HC Hlen Hi.
  destruct (Grid_index_cover g i HC) as (r & c & Hin & Hidx).
  { rewrite <- Hlen, <- cellCalls_length. by eapply lookup_lt_Some. }
  destruct (Grid_get_lookup g r c Hlen Hin) as (v & Hv & Hget).
  pose proof (cellCalls_of_cell g r c v Hget) as Hcall.
  rewrite Hidx, Hi in Hcall. injection Hcall as -> -> ->. done.
Qed.

(** ** readInGrid: what a returned grid tells *)

Lemma for_up_keeps {St : Type} (Q : St → Prop) (body : Z → St → result St) n :
  (∀ j t t', body j t = Ok t' → Q t → Q t') →
  ∀ i s s', Q s → for_up n i body s = Ok s' → Q s'.
Proof.
  intros Hbody. induction n as [|n IH]; intros i s s' Hs; cbn [for_up].
  - by intros [= <-].
  - destruct (body i s) as [t|e] eqn:Ht; [|done]. cbn [mbind result_bind].
    apply IH. by eapply Hbody.
Qed.

Lemma Grid_set_bits R C t row col v t' :
  0 ≤ v ≤ 1 → Grid_set t row col v = Ok t' → bits_inv R C t → bits_inv R C t'.
Proof.
  intros Hv Hset (HR & HC & Hlen & Hall). unfold Grid_set in Hset.
  destruct (inBounds t row col); [|done]. injection Hset as <-.
  repeat split; cbn [numRows numCols elements]; [done..| |].
  - by rewrite length_insert.
  - by apply Forall_insert.
Qed.

Lemma stripComments_idemp (file : list string) :
  stripComments (stripComments file) = stripComments file.
Proof.
  apply stripComments_clean. unfold stripComments.
  induction file as [|x l IH]; [constructor|].
  rewrite filter_cons. case_decide; [by constructor|done].
Qed.

Lemma readInGrid_returned (stringToInteger : string → result Z) file g :
  readInGrid stringToInteger file = Ok g →
  ∃ h0 h1 rows R C,
    stripComments file = h0 :: h1 :: rows ∧
    stringToInteger h0 = Ok R ∧ stringToInteger h1 = Ok C ∧
    0 ≤ R ∧ 0 ≤ C ∧ bits_inv R C g.
Proof.
  unfold readInGrid. rewrite strip_loop_file. cbn [mbind result_bind].
  destruct (stripComments file) as [|h0 [|h1 rows]] eqn:Hstrip.
  - by cbn.
  - rewrite (Vector_get_lookup _ fileRowDimension h0) by done. cbn [mbind result_bind].
    destruct (stringToInteger h0); by cbn.
  - rewrite (Vector_get_lookup _ fileRowDimension h0) by done. cbn [mbind result_bind].
    destruct (stringToInteger h0) as [R|] eqn:H0; [|done]. cbn [mbind result_bind].
    rewrite (Vector_get_lookup _ fileColDimension h1) by done. cbn [mbind result_bind].
    destruct (stringToInteger h1) as [C|] eqn:H1; [|done]. cbn [mbind result_bind].
    unfold Grid_resize. destruct ((R <? 0) || (C <? 0)) eqn:Hneg; [done|].
    apply orb_false_iff in Hneg as [HR%Z.ltb_ge HC%Z.ltb_ge].
    cbn [mbind result_bind]. unfold for_int. intros Hloop.
    exists h0, h1, rows, R, C. split_and!; [done..|].
    revert Hloop. apply (for_up_keeps (bits_inv R C)).
    + intros n t t'. destruct (Vector_get (h0 :: h1 :: rows) n) as [line|]; [|done].
      cbn [mbind result_bind]. unfold for_int. intros Hrow Ht.
      eapply (for_up_keeps (bits_inv R C)); [|exact Ht|exact Hrow].
      intros j u u' Hset. cbv beta in Hset. rewrite Grid_set_if in Hset. revert Hset.
      apply Grid_set_bits. by destruct (String.eqb _ _).
    + repeat split; cbn [numRows numCols elements]; [by rewrite length_replicate|].
      apply Forall_replicate. lia.
Qed.

Lemma readInGrid_only_lines (stringToInteger : string → result Z) file1 file2 :
  stripComments file1 = stripComments file2 →
  readInGrid stringToInteger file1 = readInGrid stringToInteger file2.
Proof.
  intros Hsame. unfold readInGrid. by rewrite !strip_loop_file, Hsame.
Qed.

(** ** randomizeGrid *)

Lemma sumAges_bits l : Forall (λ age, 0 ≤ age ≤ 1) l → sumAges l = countLive l.
Proof.
  unfold sumAges, countLive. induction 1 as [|x l Hx Hl IH]; [done|].
  cbn [foldr]. rewrite filter_cons, IH. case_decide; cbn [length]; lia.
Qed.

Lemma randomizeLoop_inv draws :
  ∀ g placed,
    random_inv placed g →
    Forall (λ d, 0 ≤ d.1 < kNumRows ∧ 0 ≤ d.2 < kNumColumns) draws →
    ∃ r, randomizeLoop draws g placed = Ok r ∧
         ∀ g', r = Some g' → random_inv kNumCells g'.
Proof.
  induction draws as [|[row col] draws IH]; intros g placed Hinv Hdraws.
  - cbn [randomizeLoop]. destruct (Z.ltb_spec placed kNumCells) as [Hlt|Hge].
    + eexists. split; [done|]. by intros g' [=].
    + eexists. split; [done|]. intros g' [= <-].
      destruct Hinv as (Hb & Hc & Hp). replace kNumCells with placed by lia. done.
  - cbn [randomizeLoop]. destruct (Z.ltb_spec placed kNumCells) as [Hlt|Hge].
    2:{ eexists. split; [done|]. intros g' [= <-].
        destruct Hinv as (Hb & Hc & Hp). replace kNumCells with placed by lia. done. }
    apply Forall_cons in Hdraws as [[Hrow Hcol] Hdraws]. cbn [fst snd] in Hrow, Hcol.
    pose proof Hinv as ((HR & HC & Hlen & Hbits) & Hcount & Hplaced).
    assert (inBounds g row col = true) as Hin by (apply inBounds_spec; lia).
    destruct (Grid_get_lookup g row col) as (cell & Hcell & ->); [by rewrite HR, HC|done|].
    cbn [mbind result_bind].
    destruct (Z.eqb_spec cell 0) as [->|Hlive]; [|by apply IH].
    rewrite Grid_set_inside by done. cbn [mbind result_bind].
    apply IH; [|done]. unfold kNumCells in *.
    rewrite int_add_small by (unfold in_int, INT_MIN, INT_MAX; lia).
    repeat split; cbn [numRows numCols elements]; try done; try lia.
    + by rewrite length_insert.
    + apply Forall_insert; [done|lia].
    + rewrite (countLive_insert _ _ _ _ Hcell). cbn. lia.
    + unfold kNumCells. lia.
Qed.

Lemma Grid_get_after_set g row col v r c :
  length (elements g) = Z.to_nat (numRows g * numCols g) →
  inBounds g row col = true → inBounds g r c = true →
  Grid_get (mkGrid (numRows g) (numCols g) (<[Grid_index g row col := v]> (elements g))) r c
  = if decide ((r, c) = (row, col)) then Ok v else Grid_get g r c.
Proof.
  intros Hlen Hin Hin'. unfold Grid_get at 1. unfold inBounds at 1.
  cbn [numRows numCols elements]. fold (inBounds g r c). rewrite Hin'.
  change (Grid_index (mkGrid (numRows g) (numCols g) _) r c) with (Grid_index g r c).
  case_decide as Heq.
  - injection Heq as -> ->.
    rewrite list_lookup_insert_eq; [done|]. rewrite Hlen. by apply Grid_index_lt.
  - rewrite list_lookup_insert_ne.
    + unfold Grid_get. by rewrite Hin'.
    + intros Hidx. apply Grid_index_inj in Hidx as [-> ->]; done.
Qed.

Lemma randomizeLoop_fresh draws :
  ∀ cells g,
    placed_inv cells g →
    Z.of_nat (length cells) ≤ kNumCells →
    NoDup (cells ++ draws) →
    Forall (λ d, 0 ≤ d.1 < kNumRows ∧ 0 ≤ d.2 < kNumColumns) draws →
    kNumCells ≤ Z.of_nat (length cells + length draws) →
    ∃ g', randomizeLoop draws g (Z.of_nat (length cells)) = Ok (Some g') ∧
          placed_inv (cells ++ take (Z.to_nat kNumCells - length cells) draws) g'.
Proof.
  induction draws as [|[row col] draws IH]; intros cells g Hinv Hfew Hnodup Hdraws Hmany.
  - cbn [randomizeLoop length] in *.
    replace (Z.of_nat (length cells) <? kNumCells) with false
      by (symmetry; apply Z.ltb_ge; lia).
    exists g. split; [done|]. by rewrite take_nil, app_nil_r.
  - cbn [randomizeLoop]. destruct (Z.ltb_spec (Z.of_nat (length cells)) kNumCells) as [Hlt|Hge].
    2:{ exists g. split; [done|].
        replace (Z.to_nat kNumCells - length cells)%nat with 0%nat by lia.
        by rewrite take_0, app_nil_r. }
    apply Forall_cons in Hdraws as [[Hrow Hcol] Hdraws]. cbn [fst snd] in Hrow, Hcol.
    pose proof Hinv as (HR & HC & Hlen & Hcells).
    assert (inBounds g row col = true) as Hin by (apply inBounds_spec; lia).
    assert ((row, col) ∉ cells) as Hfresh.
    { apply NoDup_app in Hnodup as (_ & Hdisj & _). intros Hel.
      apply (Hdisj _ Hel). left. }
    rewrite (Hcells row col Hin), bool_decide_eq_false_2 by done.
    cbn [mbind result_bind]. change (0 =? 0) with true. cbv iota.
    rewrite Grid_set_inside by done. cbn [mbind result_bind].
    rewrite int_add_small by (unfold in_int, INT_MIN, INT_MAX, kNumCells in *; lia).
    replace (Z.of_nat (length cells) + 1) with (Z.of_nat (length (cells ++ [(row, col)])))
      by (rewrite length_app; cbn; lia).
    destruct (IH (cells ++ [(row, col)])
                (mkGrid (numRows g) (numCols g)
                   (<[Grid_index g row col := 1]> (elements g)))) as (g' & Hg' & Hinv').
    + repeat split; cbn [numRows numCols elements]; [done..| |].
      * by rewrite length_insert.
      * intros r c Hrc.
        assert (inBounds g r c = true) as Hrc' by exact Hrc.
        rewrite Grid_get_after_set by (done || by rewrite HR, HC).
        case_decide as Heq.
        -- rewrite bool_decide_eq_true_2; [done|].
           rewrite Heq. apply elem_of_app. right. left.
        -- rewrite (Hcells r c Hrc'). f_equal.
           apply (f_equal (λ b : bool, if b then _ else _)). apply bool_decide_ext.
           rewrite elem_of_app, list_elem_of_singleton.
           split; [by left|by intros [?|?]].
    + rewrite length_app. cbn. lia.
    + by rewrite <- app_assoc.
    + done.
    + rewrite length_app. cbn [length] in *. lia.
    + exists g'. split; [done|].
      replace (Z.to_nat kNumCells - length cells)%nat
        with (S (Z.to_nat kNumCells - length (cells ++ [(row, col)])))
        by (rewrite length_app; cbn; lia).
      cbn [take]. by rewrite cons_middle, app_assoc.
Qed.

(** ** The console *)

Lemma newGetLineLoop_answer pre x rest :
  ∀ c,
    Forall (λ line, yesOrNo line = false) pre → yesOrNo x = true →
    newGetLineLoop (pre ++ x :: rest) c
    = (Some x,
       mkConsole rest
         (cout c ++ replicate (length pre) (String.append "Please answer yes or no." nl))).
Proof.
  induction pre as [|y pre IH]; intros c Hpre Hx; cbn [app newGetLineLoop].
  - fold (yesOrNo x). rewrite Hx. cbn. by rewrite app_nil_r.
  - apply Forall_cons in Hpre as [Hy Hpre]. fold (yesOrNo y). rewrite Hy.
    rewrite IH by done. cbn [writeln write cout length replicate].
    by rewrite <- app_assoc.
Qed.

Lemma newGetLineLoop_waiting input :
  ∀ c,
    Forall (λ line, yesOrNo line = false) input →
    newGetLineLoop input c
    = (None,
       mkConsole []
         (cout c ++ replicate (length input) (String.append "Please answer yes or no." nl))).
Proof.
  induction input as [|y input IH]; intros c Hin; cbn [newGetLineLoop].
  - cbn. by rewrite app_nil_r.
  - apply Forall_cons in Hin as [Hy Hin]. fold (yesOrNo y). rewrite Hy.
    rewrite IH by done. cbn [writeln write cout length replicate].
    by rewrite <- app_assoc.
Qed.

Section ConsoleFacts.

Variable streamInteger : string → option Z.

Lemma newGetIntegerLoop_step line input c :
  newGetIntegerLoop streamInteger (line :: input) c
  = match speedOf streamInteger line with
    | Some value => (Some value, mkConsole input (cout c))
    | None =>
        newGetIntegerLoop streamInteger input
          (write (String.append nl "Please enter your choice between 1 and 4: ") c)
    end.
Proof.
  cbn [newGetIntegerLoop]. unfold speedOf.
  destruct (streamInteger line) as [value|]; [|done].
  by destruct ((simSpeedMin <=? value) && (value <=? simSpeedManual)).
Qed.

Lemma newGetIntegerLoop_choice pre x rest value :
  ∀ c,
    Forall (λ line, speedOf streamInteger line = None) pre → speedOf streamInteger x = Some value →
    newGetIntegerLoop streamInteger (pre ++ x :: rest) c
    = (Some value,
       mkConsole rest
         (cout c ++ replicate (length pre)
                      (String.append nl "Please enter your choice between 1 and 4: "))).
Proof.
  induction pre as [|y pre IH]; intros c Hpre Hx; cbn [app].
  - rewrite newGetIntegerLoop_step, Hx. cbn. by rewrite app_nil_r.
  - apply Forall_cons in Hpre as [Hy Hpre]. rewrite newGetIntegerLoop_step, Hy.
    rewrite IH by done. cbn [write cout length replicate]. by rewrite <- app_assoc.
Qed.

Lemma newGetIntegerLoop_waiting input :
  ∀ c,
    Forall (λ line, speedOf streamInteger line = None) input →
    newGetIntegerLoop streamInteger input c
    = (None,
       mkConsole []
         (cout c ++ replicate (length input)
                      (String.append nl "Please enter your choice between 1 and 4: "))).
Proof.
  induction input as [|y input IH]; intros c Hin.
  - cbn. by rewrite app_nil_r.
  - apply Forall_cons in Hin as [Hy Hin]. rewrite newGetIntegerLoop_step, Hy.
    rewrite IH by done. cbn [write cout length replicate]. by rewrite <- app_assoc.
Qed.

Lemma speedOf_range line value : speedOf streamInteger line = Some value → 1 ≤ value ≤ 4.
Proof.
  unfold speedOf, simSpeedMin, simSpeedManual.
  destruct (streamInteger line) as [v|]; [|done].
  destruct ((1 <=? v) && (v <=? 4)) eqn:E; [|done]. intros [= <-].
  apply andb_true_iff in E as [?%Z.leb_le ?%Z.leb_le]. lia.
Qed.

Lemma newGetIntegerLoop_range input :
  ∀ c value c',
    newGetIntegerLoop streamInteger input c = (Some value, c') → 1 ≤ value ≤ 4.
Proof.
  induction input as [|y input IH]; intros c value c'; [done|].
  rewrite newGetIntegerLoop_step. destruct (speedOf streamInteger y) as [v|] eqn:Hy.
  - intros [= <- <-]. by eapply speedOf_range.
  - apply IH.
Qed.

End ConsoleFacts.

(** ** runSimulation *)

Lemma isStable_returns kMaxAge cur scr :
  Grid_wf cur → Grid_wf scr →
  numRows scr = numRows cur → numCols scr = numCols cur →
  ∃ b, isStable kMaxAge cur scr = Ok b.
Proof.
  intros (HR & HC & Hlen & _) (_ & _ & Hslen & _) HsR HsC.
  unfold isStable. rewrite tally_spec; [|lia|lia|done..]. by eexists.
Qed.

Lemma drawGrid_wf g display :
  Grid_wf g → drawGrid g display = Ok (display ++ cellCalls g).
Proof. intros (HR & HC & Hlen & _). apply drawGrid_spec; (lia || done). Qed.

(** One turn of the loop, up to the wait for an event or a line. *)
Lemma simulation_turn kMaxAge g display :
  Grid_wf g →
  ∃ scratch b,
    calculateNextGeneration g = Ok scratch ∧ Grid_wf scratch ∧
    isStable kMaxAge g scratch = Ok b ∧
    advanceGrid g display scratch = Ok (scratch, display ++ cellCalls scratch).
Proof.
  intros Hwf.
  destruct (calculateNextGeneration_spec g Hwf) as (scratch & Hnext & HR & HC & Hswf & _).
  destruct (isStable_returns kMaxAge g scratch Hwf Hswf HR HC) as [b Hb].
  exists scratch, b. split_and!; [done..|].
  unfold advanceGrid. by rewrite drawGrid_wf.
Qed.

Lemma simulationLoop_run kMaxAge simulationSpeed pauseLength fuel :
  ∀ s,
    Grid_wf (sim_grid s) →
    ∃ o s' k,
      simulationLoop kMaxAge fuel simulationSpeed pauseLength s = Ok (o, s') ∧
      Grid_wf (sim_grid s') ∧
      generations k (sim_grid s) = Ok (sim_grid s') ∧
      redraws k (sim_grid s) (sim_display s) = Ok (sim_display s') ∧
      (k ≤ fuel)%nat ∧
      (o = Some Stable →
       ∃ scratch, calculateNextGeneration (sim_grid s') = Ok scratch ∧
                  isStable kMaxAge (sim_grid s') scratch = Ok true) ∧
      (o = Some Clicked ∨ o = Some Quit → (0 < k)%nat) ∧
      (o = Some Clicked → simulationSpeed ≠ simSpeedManual) ∧
      (o = Some Quit → simulationSpeed = simSpeedManual) ∧
      ∃ j, sim_paused s' = sim_paused s ++ replicate j pauseLength ∧
           (j ≤ k)%nat ∧ (simulationSpeed = simSpeedManual → j = 0%nat).
Proof.
  induction fuel as [|fuel IH]; intros s Hwf.
  { exists None, s, 0%nat. cbn. split_and!; try done.
    - by intros [?|?].
    - exists 0%nat. cbn. by rewrite app_nil_r. }
  destruct (simulation_turn kMaxAge (sim_grid s) (sim_display s) Hwf)
    as (scratch & b & Hnext & Hswf & Hb & Hadv).
  cbn [simulationLoop]. rewrite Hnext. cbn [mbind result_bind].
  rewrite Hb. cbn [mbind result_bind]. destruct b.
  { eexists (Some Stable), _, 0%nat. split; [done|]. cbn. split_and!; try done.
    - lia.
    - intros _. by exists scratch.
    - by intros [?|?].
    - exists 0%nat. cbn. by rewrite app_nil_r. }
  rewrite Hadv. cbn [mbind result_bind].
  assert (generations 1 (sim_grid s) = Ok scratch) as Hgen1.
  { cbn [generations]. by rewrite Hnext. }
  assert (redraws 1 (sim_grid s) (sim_display s) = Ok (sim_display s ++ cellCalls scratch))
    as Hred1.
  { cbn [redraws]. rewrite Hnext. cbn [mbind result_bind]. by rewrite drawGrid_wf. }
  assert (∀ o s',
            (∃ c events paused,
               s' = mkSimulation scratch (sim_display s ++ cellCalls scratch) c events paused ∧
               paused = sim_paused s) →
            o ≠ Some Stable →
            (o = Some Clicked → simulationSpeed ≠ simSpeedManual) →
            (o = Some Quit → simulationSpeed = simSpeedManual) →
            ∃ k,
              Grid_wf (sim_grid s') ∧
              generations k (sim_grid s) = Ok (sim_grid s') ∧
              redraws k (sim_grid s) (sim_display s) = Ok (sim_display s') ∧
              (k ≤ S fuel)%nat ∧
              (o = Some Stable →
               ∃ scratch, calculateNextGeneration (sim_grid s') = Ok scratch ∧
                          isStable kMaxAge (sim_grid s') scratch = Ok true) ∧
              (o = Some Clicked ∨ o = Some Quit → (0 < k)%nat) ∧
              (o = Some Clicked → simulationSpeed ≠ simSpeedManual) ∧
              (o = Some Quit → simulationSpeed = simSpeedManual) ∧
              ∃ j, sim_paused s' = sim_paused s ++ replicate j pauseLength ∧
                   (j ≤ k)%nat ∧ (simulationSpeed = simSpeedManual → j = 0%nat)) as Hleaf.
  { intros o s' (c & events & paused & -> & ->) Hns Hck Hq. exists 1%nat.
    cbn [sim_grid sim_display sim_paused]. split_and!; try done; try lia.
    exists 0%nat. cbn [replicate]. split_and!; [by rewrite app_nil_r|lia|done]. }
  assert (∀ s1 extra,
            sim_grid s1 = scratch → sim_display s1 = sim_display s ++ cellCalls scratch →
            sim_paused s1 = sim_paused s ++ replicate extra pauseLength →
            (extra ≤ 1)%nat → (simulationSpeed = simSpeedManual → extra = 0%nat) →
            ∃ o s' k,
              simulationLoop kMaxAge fuel simulationSpeed pauseLength s1 = Ok (o, s') ∧
              Grid_wf (sim_grid s') ∧
              generations k (sim_grid s) = Ok (sim_grid s') ∧
              redraws k (sim_grid s) (sim_display s) = Ok (sim_display s') ∧
              (k ≤ S fuel)%nat ∧
              (o = Some Stable →
               ∃ scratch, calculateNextGeneration (sim_grid s') = Ok scratch ∧
                          isStable kMaxAge (sim_grid s') scratch = Ok true) ∧
              (o = Some Clicked ∨ o = Some Quit → (0 < k)%nat) ∧
              (o = Some Clicked → simulationSpeed ≠ simSpeedManual) ∧
              (o = Some Quit → simulationSpeed = simSpeedManual) ∧
              ∃ j, sim_paused s' = sim_paused s ++ replicate j pauseLength ∧
                   (j ≤ k)%nat ∧ (simulationSpeed = simSpeedManual → j = 0%nat)) as Hstep.
  { intros s1 extra Hg Hd Hp Hextra Hextra0.
    destruct (IH s1) as (o & s' & k & Hrun & Hwf' & Hgen & Hred & Hk & Hst & Hck & Hc & Hq
                         & j & Hj & Hjk & Hj0); [by rewrite Hg|].
    exists o, s', (S k). split; [done|]. split_and!; try done; try lia.
    - cbn [generations]. rewrite Hnext. cbn [mbind result_bind]. by rewrite <- Hg.
    - cbn [redraws]. rewrite Hnext. cbn [mbind result_bind]. rewrite drawGrid_wf by done.
      cbn [mbind result_bind]. rewrite <- Hd, <- Hg. done.
    - exists (extra + j)%nat. split_and!; [|lia|].
      + by rewrite Hj, Hp, replicate_add, app_assoc.
      + intros Hm. rewrite (Hextra0 Hm), (Hj0 Hm). done. }
  destruct (Z.eqb_spec simulationSpeed simSpeedManual) as [Hman|Hauto]; cbn [negb].
  - destruct (cin (sim_console s)) as [|line input'].
    { destruct (Hleaf None (mkSimulation scratch (sim_display s ++ cellCalls scratch)
                              (mkConsole [] (cout (write manualPrompt (sim_console s))))
                              (sim_events s) (sim_paused s))) as (k & Hk);
        [by eexists _, _, _|done..|].
      by eexists _, _, k. }
    destruct (String.eqb line stopWord).
    { destruct (Hleaf (Some Quit) (mkSimulation scratch (sim_display s ++ cellCalls scratch)
                              (mkConsole input' (cout (write manualPrompt (sim_console s))))
                              (sim_events s) (sim_paused s))) as (k & Hk);
        [by eexists _, _, _|done..|].
      by eexists _, _, k. }
    apply (Hstep _ 0%nat); cbn [sim_grid sim_display sim_paused replicate];
      [done|done|by rewrite app_nil_r|lia|done].
  - destruct (sim_events s) as [|[| |] events'].
    + destruct (Hleaf None (mkSimulation scratch (sim_display s ++ cellCalls scratch)
                              (sim_console s) [] (sim_paused s))) as (k & Hk);
        [by eexists _, _, _|done..|].
      by eexists _, _, k.
    + destruct (Hleaf (Some Clicked) (mkSimulation scratch (sim_display s ++ cellCalls scratch)
                              (sim_console s) events' (sim_paused s))) as (k & Hk);
        [by eexists _, _, _|done..|].
      by eexists _, _, k.
    + apply (Hstep _ 0%nat); cbn [sim_grid sim_display sim_paused replicate];
        [done|done|by rewrite app_nil_r|lia|done].
    + apply (Hstep _ 1%nat); cbn [sim_grid sim_display sim_paused replicate];
        [done|done|done|lia|done].
Qed.

(** ** Several generations *)

Lemma generations_wf k :
  ∀ g, Grid_wf g →
       ∃ final, generations k g = Ok final ∧ Grid_wf final ∧
                numRows final = numRows g ∧ numCols final = numCols g.
Proof.
  induction k as [|k IH]; intros g Hwf; [by exists g|].
  destruct (calculateNextGeneration_spec g Hwf) as (next & Hnext & HR & HC & Hnwf & _).
  destruct (IH next Hnwf) as (final & Hfinal & Hfwf & HfR & HfC).
  exists final. cbn [generations]. rewrite Hnext. cbn [mbind result_bind].
  split_and!; [done|done|congruence|congruence].
Qed.

Lemma redraws_length k :
  ∀ g display, Grid_wf g →
    ∃ display', redraws k g display = Ok display' ∧
                Z.of_nat (length display')
                = Z.of_nat (length display) + Z.of_nat k * (numRows g * numCols g).
Proof.
  induction k as [|k IH]; intros g display Hwf.
  { exists display. split; [done|]. lia. }
  destruct (calculateNextGeneration_spec g Hwf) as (next & Hnext & HR & HC & Hnwf & _).
  destruct (IH next (display ++ cellCalls next) Hnwf) as (display' & Hd & Hlen).
  exists display'. cbn [redraws]. rewrite Hnext. cbn [mbind result_bind].
  rewrite drawGrid_wf by done. cbn [mbind result_bind]. split; [done|].
  rewrite Hlen, length_app, cellCalls_length, HR, HC.
  destruct Hnwf as (? & ? & Hnlen & _). rewrite Hnlen, HR, HC. nia.
Qed.

Lemma next_ages_bounded m g next :
  Grid_wf g → Forall (λ age, 0 ≤ age ≤ m) (elements g) → m < INT_MAX →
  calculateNextGeneration g = Ok next →
  Forall (λ age, 0 ≤ age ≤ m + 1) (elements next).
Proof.
  intros Hwf Hages Hm Hnext.
  destruct (calculateNextGeneration_spec g Hwf) as (next' & Hnext' & HR & HC & Hnwf & Hcells).
  rewrite Hnext in Hnext'. injection Hnext' as <-.
  destruct Hnwf as (_ & HC0 & Hlen & _).
  apply Grid_cells_Forall; [lia|done|]. intros row col v Hv.
  assert (inBounds g row col = true) as Hin.
  { apply Grid_get_Ok in Hv as [Hin _]. apply inBounds_spec.
    rewrite <- HR, <- HC. by apply inBounds_spec. }
  rewrite (Hcells row col Hin) in Hv. injection Hv as <-.
  destruct Hwf as (_ & _ & Hglen & _).
  destruct (Grid_get_lookup g row col Hglen Hin) as (age & Hl & Hage).
  assert (0 ≤ age ≤ m) as Hrange by (rewrite Forall_lookup in Hages; by eapply Hages).
  unfold nextAge, Grid_cell. rewrite Hage.
  rewrite int_add_small by (unfold in_int, INT_MIN, INT_MAX in *; lia).
  repeat case_match; lia.
Qed.

Lemma generations_ages_bounded k :
  ∀ m g,
    Grid_wf g → Forall (λ age, 0 ≤ age ≤ m) (elements g) → m + Z.of_nat k ≤ INT_MAX →
    ∃ final, generations k g = Ok final ∧ Grid_wf final ∧
             Forall (λ age, 0 ≤ age ≤ m + Z.of_nat k) (elements final).
Proof.
  induction k as [|k IH]; intros m g Hwf Hages Hm.
  { exists g. split_and!; [done..|]. eapply Forall_impl; [exact Hages|]. cbn. lia. }
  destruct (calculateNextGeneration_spec g Hwf) as (next & Hnext & _ & _ & Hnwf & _).
  pose proof (next_ages_bounded m g next Hwf Hages ltac:(lia) Hnext) as Hnages.
  destruct (IH (m + 1) next Hnwf Hnages ltac:(lia)) as (final & Hfinal & Hfwf & Hfages).
  exists final. cbn [generations]. rewrite Hnext. cbn [mbind result_bind].
  split_and!; [done..|]. eapply Forall_impl; [exact Hfages|]. cbn. lia.
Qed.

(** ** The block as a still life *)

Lemma block_three_neighbors R C r0 c0 v g r c :
  blockGrid R C r0 c0 v = Ok g → 0 < v →
  liveNeighbors g r c = 3 ↔ inBlock r0 c0 r c = true.
Proof.
  intros Hg Hv. rewrite (block_liveNeighbors _ _ _ _ _ _ r c Hg Hv).
  unfold neighborOffsets. rewrite !filter_cons, filter_nil. cbn [fst snd]. unfold inBlock.
  replace (inSpan r0 r) with (inSpan r0 (r + 0)) by (by rewrite Z.add_0_r).
  replace (inSpan c0 c) with (inSpan c0 (c + 0)) by (by rewrite Z.add_0_r).
  pose proof (span_pattern r0 r) as Hr. pose proof (span_pattern c0 c) as Hc.
  revert Hr Hc.
  generalize (inSpan r0 (r + -1)), (inSpan r0 (r + 0)), (inSpan r0 (r + 1)),
    (inSpan c0 (c + -1)), (inSpan c0 (c + 0)), (inSpan c0 (c + 1)).
  clear. intros a1 a2 a3 b1 b2 b3 Hr Hc.
  repeat (apply elem_of_cons in Hr as [[= -> -> ->]|Hr]);
    [..|by apply elem_of_nil in Hr];
    (repeat (apply elem_of_cons in Hc as [[= -> -> ->]|Hc]);
     [..|by apply elem_of_nil in Hc]); vm_compute; split; congruence.
Qed.

Lemma block_nextAge_any R C r0 c0 v g r c :
  blockGrid R C r0 c0 v = Ok g → 0 < v < INT_MAX → inBounds g r c = true →
  nextAge g r c = if inBlock r0 c0 r c then v + 1 else 0.
Proof.
  intros Hg Hv Hin. unfold nextAge, Grid_cell.
  rewrite (blockGrid_get _ _ _ _ _ _ _ _ Hg Hin).
  pose proof (block_three_neighbors R C r0 c0 v g r c Hg ltac:(lia)) as Hthree.
  destruct (inBlock r0 c0 r c).
  - rewrite (proj2 Hthree eq_refl). cbn.
    apply int_add_small. unfold in_int, INT_MIN, INT_MAX in *. lia.
  - destruct (Z.eqb_spec (liveNeighbors g r c) 3) as [E|_].
    { apply Hthree in E. done. }
    by destruct (liveNeighbors g r c =? 2).
Qed.

(** ** Further statements about the code *)

(** X1.  [drawGrid] adds to the display exactly one [drawCellAt] call per
    cell of the grid, row by row and within a row column by column, each
    with the age of its cell; it raises no index error. *)
Theorem drawGrid_calls (g : Grid) (display : LifeDisplay) :
  Grid_wf g →
  ∃ calls,
    drawGrid g display = Ok (display ++ calls) ∧
    Z.of_nat (length calls) = numRows g * numCols g ∧
    (∀ row col age,
       Grid_get g row col = Ok age → calls !! Grid_index g row col = Some (row, col, age)) ∧
    (∀ i row col age,
       calls !! i = Some (row, col, age) →
       Grid_get g row col = Ok age ∧ Grid_index g row col = i).
Proof.
  intros Hwf. pose proof Hwf as (HR & HC & Hlen & _).
  exists (cellCalls g). split_and!.
  - by apply drawGrid_wf.
  - rewrite cellCalls_length, Hlen. nia.
  - apply cellCalls_of_cell.
  - intros i row col age. apply cellCalls_to_cell; [lia|done].
Qed.

Lemma drawGrid_calls_witness :
  Grid_wf block4 ∧
  ∃ calls,
    drawGrid block4 [(0, 0, 7)] = Ok ([(0, 0, 7)] ++ calls) ∧
    Z.of_nat (length calls) = numRows block4 * numCols block4 ∧
    (∀ row col age,
       Grid_get block4 row col = Ok age →
       calls !! Grid_index block4 row col = Some (row, col, age)) ∧
    (∀ i row col age,
       calls !! i = Some (row, col, age) →
       Grid_get block4 row col = Ok age ∧ Grid_index block4 row col = i).
Proof.
  assert (Grid_wf block4) as Hwf.
  { unfold Grid_wf, in_int, INT_MIN, INT_MAX. cbn.
    repeat split; try lia. repeat (constructor; [lia|]). constructor. }
  split; [exact Hwf|]. apply (drawGrid_calls block4 [(0, 0, 7)] Hwf).
Defined.

(** X2.  A file that fits its declared dimensions, read by [readInGrid]
    and drawn by [drawGrid] on a fresh display, gives R times C
    [drawCellAt] calls: the call for cell (r, c) stands at place r*C + c
    and carries the age the file gives that cell. *)
Theorem readInGrid_then_drawGrid (stringToInteger : string → result Z)
    (file : list string) (h0 h1 : string) (rows : list string) (R C : Z) :
  stripComments file = h0 :: h1 :: rows →
  stringToInteger h0 = Ok R → stringToInteger h1 = Ok C →
  0 ≤ C →
  Z.of_nat (length rows) ≤ R →
  Forall (λ line, Z.of_nat (String.length line) ≤ C) rows →
  ∃ g calls,
    readInGrid stringToInteger file = Ok g ∧
    drawGrid g [] = Ok calls ∧
    Z.of_nat (length calls) = R * C ∧
    ∀ r c, 0 ≤ r < R → 0 ≤ c < C →
           calls !! Z.to_nat (r * C + c) = Some (r, c, fileAge rows r c).
Proof.
  intros Hstrip H0 H1 HC HR Hfit.
  assert (∃ g, readInGrid stringToInteger file = Ok g ∧ numRows g = R ∧ numCols g = C ∧
               ∀ r c, inBounds g r c = true → Grid_get g r c = Ok (fileAge rows r c))
    as (g & Hg & HgR & HgC & Hcells).
  { rewrite (readInGrid_header _ _ _ _ _ _ _ Hstrip H0 H1). unfold Grid_resize.
    replace ((R <? 0) || (C <? 0)) with false
      by (symmetry; apply orb_false_iff; rewrite !Z.ltb_ge; lia).
    cbn [mbind result_bind]. by apply fill_rows_ok. }
  destruct (readInGrid_returned _ _ _ Hg)
    as (h0' & h1' & rows' & R' & C' & Hstrip' & H0' & H1' & HR' & HC' & Hbits).
  destruct Hbits as (HgR' & HgC' & Hlen & _).
  assert (R' = R ∧ C' = C) as [-> ->] by (split; congruence).
  exists g, (cellCalls g). split_and!.
  - done.
  - rewrite drawGrid_spec; [done|lia|lia|by rewrite HgR, HgC].
  - rewrite cellCalls_length, Hlen. lia.
  - intros r c Hr Hc.
    assert (inBounds g r c = true) as Hin by (apply inBounds_spec; lia).
    pose proof (cellCalls_of_cell g r c _ (Hcells r c Hin)) as Hcall.
    unfold Grid_index in Hcall. by rewrite HgC in Hcall.
Qed.

Lemma readInGrid_then_drawGrid_witness :
  stripComments scenarioC = ["3"; "3"; "-X-"; "X-X"; "-XX"]%string ∧
  decimalToInteger "3" = Ok 3 ∧ 0 ≤ 3 ∧
  Z.of_nat (length ["-X-"; "X-X"; "-XX"]%string) ≤ 3 ∧
  Forall (λ line, Z.of_nat (String.length line) ≤ 3) ["-X-"; "X-X"; "-XX"]%string ∧
  ∃ g calls,
    readInGrid decimalToInteger scenarioC = Ok g ∧
    drawGrid g [] = Ok calls ∧
    Z.of_nat (length calls) = 3 * 3 ∧
    ∀ r c, 0 ≤ r < 3 → 0 ≤ c < 3 →
           calls !! Z.to_nat (r * 3 + c)
           = Some (r, c, fileAge ["-X-"; "X-X"; "-XX"]%string r c).
Proof.
  assert (Forall (λ line, Z.of_nat (String.length line) ≤ 3) ["-X-"; "X-X"; "-XX"]%string)
    as Hfit by (repeat (constructor; [cbn; lia|]); constructor).
  split; [reflexivity|]. split; [reflexivity|]. split; [lia|]. split; [cbn; lia|].
  split; [exact Hfit|].
  apply (readInGrid_then_drawGrid decimalToInteger scenarioC "3" "3"
           ["-X-"; "X-X"; "-XX"]%string 3 3);
    [reflexivity|reflexivity|reflexivity|lia|cbn; lia|exact Hfit].
Defined.

(** X3.  A line that holds the comment mark counts for nothing wherever
    it stands in the file, before, between or after the dimension lines
    and the rows: with or without it [readInGrid] gives the same grid or
    the same error.  A row that uses the mark as a live cell is dropped
    in the same way. *)
Theorem readInGrid_comment_line (stringToInteger : string → result Z)
    (before : list string) (line : string) (after : list string) :
  string_has commentMark line = true →
  readInGrid stringToInteger (before ++ line :: after)
  = readInGrid stringToInteger (before ++ after).
Proof.
  intros Hline. apply readInGrid_only_lines.
  unfold stripComments. rewrite !filter_app, filter_cons_False; [done|].
  by rewrite Hline.
Qed.

Lemma readInGrid_comment_line_witness :
  string_has commentMark "X#X"%string = true ∧
  readInGrid decimalToInteger (["2"; "2"; "XX"]%string ++ "X#X"%string :: ["-X"]%string)
  = readInGrid decimalToInteger (["2"; "2"; "XX"]%string ++ ["-X"]%string).
Proof.
  split; [reflexivity|].
  apply (readInGrid_comment_line decimalToInteger ["2"; "2"; "XX"]%string "X#X"%string
           ["-X"]%string).
  reflexivity.
Defined.

(** X4.  [readInGrid] returns a grid only when, the comment lines
    removed, the file starts with two lines that read as non-negative
    integers R and C; the grid then has R rows and C columns, R*C cells,
    and no age other than 0 and 1. *)
Theorem readInGrid_grid (stringToInteger : string → result Z)
    (file : list string) (g : Grid) :
  readInGrid stringToInteger file = Ok g →
  ∃ h0 h1 rows R C,
    stripComments file = h0 :: h1 :: rows ∧
    stringToInteger h0 = Ok R ∧ stringToInteger h1 = Ok C ∧
    0 ≤ R ∧ 0 ≤ C ∧
    numRows g = R ∧ numCols g = C ∧
    length (elements g) = Z.to_nat (R * C) ∧
    Forall (λ age, age = 0 ∨ age = 1) (elements g).
Proof.
  intros Hg.
  destruct (readInGrid_returned _ _ _ Hg)
    as (h0 & h1 & rows & R & C & Hstrip & H0 & H1 & HR & HC & HgR & HgC & Hlen & Hbits).
  exists h0, h1, rows, R, C. split_and!; try done.
  eapply Forall_impl; [exact Hbits|]. cbn. lia.
Qed.

Lemma readInGrid_grid_witness :
  readInGrid decimalToInteger scenarioC = Ok (mkGrid 3 3 [0;1;0; 1;0;1; 0;1;1]) ∧
  ∃ h0 h1 rows R C,
    stripComments scenarioC = h0 :: h1 :: rows ∧
    decimalToInteger h0 = Ok R ∧ decimalToInteger h1 = Ok C ∧
    0 ≤ R ∧ 0 ≤ C ∧
    numRows (mkGrid 3 3 [0;1;0; 1;0;1; 0;1;1]) = R ∧
    numCols (mkGrid 3 3 [0;1;0; 1;0;1; 0;1;1]) = C ∧
    length (elements (mkGrid 3 3 [0;1;0; 1;0;1; 0;1;1])) = Z.to_nat (R * C) ∧
    Forall (λ age, age = 0 ∨ age = 1) (elements (mkGrid 3 3 [0;1;0; 1;0;1; 0;1;1])).
Proof.
  split; [reflexivity|].
  apply (readInGrid_grid decimalToInteger scenarioC (mkGrid 3 3 [0;1;0; 1;0;1; 0;1;1])).
  reflexivity.
Defined.

(** X5.  With random numbers within the board, as [randomInteger] is
    asked for, [randomizeGrid] raises no index error; when its loop ends
    the grid is the 40 by 40 board with exactly 800 live cells, each of
    age 1: a number that falls on a live cell places nothing. *)
Theorem randomizeGrid_board (draws : list (Z * Z)) :
  Forall (λ d, 0 ≤ d.1 < kNumRows ∧ 0 ≤ d.2 < kNumColumns) draws →
  ∃ r, randomizeGrid draws = Ok r ∧
       ∀ g, r = Some g →
            numRows g = 40 ∧ numCols g = 40 ∧ Grid_wf g ∧
            Forall (λ age, age = 0 ∨ age = 1) (elements g) ∧
            liveCells g = 800 ∧ totalAge g = 800.
Proof.
  intros Hdraws. unfold randomizeGrid, Grid_resize.
  change ((kNumRows <? 0) || (kNumColumns <? 0)) with false. cbn [mbind result_bind].
  destruct (randomizeLoop_inv draws
              (mkGrid kNumRows kNumColumns (replicate (Z.to_nat (kNumRows * kNumColumns)) 0)) 0)
    as (r & Hr & Hinv); [|done|].
  { split; [|split; [apply countLive_replicate|unfold kNumCells; lia]].
    unfold bits_inv. cbn [numRows numCols elements].
    split_and!; [done|done|by rewrite length_replicate|].
    apply Forall_replicate. lia. }
  exists r. split; [done|]. intros g Hg.
  destruct (Hinv g Hg) as ((HR & HC & Hlen & Hbits) & Hcount & _).
  split; [exact HR|]. split; [exact HC|]. split; [|split; [|split]].
  - unfold Grid_wf. rewrite HR, HC. split_and!; [done..|].
    eapply Forall_impl; [exact Hbits|]. unfold in_int, INT_MIN, INT_MAX. cbn. lia.
  - eapply Forall_impl; [exact Hbits|]. cbn. lia.
  - exact Hcount.
  - unfold totalAge. rewrite sumAges_bits by done. exact Hcount.
Qed.

Lemma randomizeGrid_board_witness :
  Forall (λ d, 0 ≤ d.1 < kNumRows ∧ 0 ≤ d.2 < kNumColumns)
    ((3, 4) :: (3, 4) :: flat_map (λ r, map (λ c, (r, c)) (seqZ 0 40)) (seqZ 0 20)) ∧
  ∃ g,
    randomizeGrid
      ((3, 4) :: (3, 4) :: flat_map (λ r, map (λ c, (r, c)) (seqZ 0 40)) (seqZ 0 20))
    = Ok (Some g) ∧
    numRows g = 40 ∧ numCols g = 40 ∧ Grid_wf g ∧
    Forall (λ age, age = 0 ∨ age = 1) (elements g) ∧
    liveCells g = 800 ∧ totalAge g = 800.
Proof.
  assert (Forall (λ d, 0 ≤ d.1 < kNumRows ∧ 0 ≤ d.2 < kNumColumns)
            ((3, 4) :: (3, 4) :: flat_map (λ r, map (λ c, (r, c)) (seqZ 0 40)) (seqZ 0 20)))
    as Hdraws.
  { apply (bool_decide_unpack _). vm_compute. exact I. }
  split; [exact Hdraws|].
  destruct (randomizeGrid_board
              ((3, 4) :: (3, 4) :: flat_map (λ r, map (λ c, (r, c)) (seqZ 0 40)) (seqZ 0 20))
              Hdraws) as (r & Hr & Hboard).
  assert (∃ g, r = Some g) as [g ->].
  { revert Hr. vm_compute. intros [= <-]. by eexists. }
  exists g. split; [exact Hr|]. by apply Hboard.
Defined.

(** X6.  When the numbers drawn are in range and no cell is drawn twice,
    [randomizeGrid] returns after the first 800 of them: the cells of
    those 800 draws have age 1 and every other cell of the board has
    age 0. *)
Theorem randomizeGrid_distinct (draws : list (Z * Z)) :
  NoDup draws →
  Forall (λ d, 0 ≤ d.1 < kNumRows ∧ 0 ≤ d.2 < kNumColumns) draws →
  (800 ≤ length draws)%nat →
  ∃ g, randomizeGrid draws = Ok (Some g) ∧
       numRows g = 40 ∧ numCols g = 40 ∧
       ∀ r c, inBounds g r c = true →
              Grid_get g r c = Ok (if bool_decide ((r, c) ∈ take 800 draws) then 1 else 0).
Proof.
  intros Hnodup Hdraws Hmany. unfold randomizeGrid, Grid_resize.
  change ((kNumRows <? 0) || (kNumColumns <? 0)) with false. cbn [mbind result_bind].
  destruct (randomizeLoop_fresh draws []
              (mkGrid kNumRows kNumColumns (replicate (Z.to_nat (kNumRows * kNumColumns)) 0)))
    as (g & Hg & HR & HC & Hlen & Hcells); try done.
  - unfold placed_inv. cbn [numRows numCols elements].
    split_and!; [done|done|by rewrite length_replicate|].
    intros r c Hin. unfold Grid_get. rewrite Hin. cbn [elements].
    rewrite lookup_replicate_2; [done|].
    pose proof (Grid_index_lt _ _ _ Hin) as Hlt. exact Hlt.
  - unfold kNumCells. cbn [length]. lia.
  - exists g. split; [exact Hg|]. split_and!; [done..|]. exact Hcells.
Qed.

Lemma randomizeGrid_distinct_witness :
  NoDup (flat_map (λ r, map (λ c, (r, c)) (seqZ 0 40)) (seqZ 0 20)) ∧
  Forall (λ d, 0 ≤ d.1 < kNumRows ∧ 0 ≤ d.2 < kNumColumns)
    (flat_map (λ r, map (λ c, (r, c)) (seqZ 0 40)) (seqZ 0 20)) ∧
  (800 ≤ length (flat_map (λ r, map (λ c, (r, c)) (seqZ 0 40)) (seqZ 0 20)))%nat ∧
  ∃ g, randomizeGrid (flat_map (λ r, map (λ c, (r, c)) (seqZ 0 40)) (seqZ 0 20))
       = Ok (Some g) ∧
       numRows g = 40 ∧ numCols g = 40 ∧
       ∀ r c, inBounds g r c = true →
              Grid_get g r c
              = Ok (if bool_decide
                         ((r, c) ∈ take 800
                            (flat_map (λ r, map (λ c, (r, c)) (seqZ 0 40)) (seqZ 0 20)))
                    then 1 else 0).
Proof.
  assert (NoDup (flat_map (λ r, map (λ c, (r, c)) (seqZ 0 40)) (seqZ 0 20))) as Hnodup.
  { apply (bool_decide_unpack _). vm_compute. exact I. }
  assert (Forall (λ d, 0 ≤ d.1 < kNumRows ∧ 0 ≤ d.2 < kNumColumns)
            (flat_map (λ r, map (λ c, (r, c)) (seqZ 0 40)) (seqZ 0 20))) as Hdraws.
  { apply (bool_decide_unpack _). vm_compute. exact I. }
  assert (800 ≤ length (flat_map (λ r, map (λ c, (r, c)) (seqZ 0 40)) (seqZ 0 20)))%nat
    as Hmany.
  { apply (bool_decide_unpack _). vm_compute. exact I. }
  split; [exact Hnodup|]. split; [exact Hdraws|]. split; [exact Hmany|].
  apply (randomizeGrid_distinct _ Hnodup Hdraws Hmany).
Defined.

(** X7.  [newGetLine] returns the first line typed that is exactly yes
    or no, after writing the prompt and one complaint for each line
    before it, and leaves the lines after it unread; what it returns is
    yes or no.  While no such line has been typed it returns nothing. *)
Theorem newGetLine_first (prompt : string) (c : console)
    (pre : list string) (x : string) (rest : list string) :
  cin c = pre ++ x :: rest →
  Forall (λ line, yesOrNo line = false) pre → yesOrNo x = true →
  newGetLine prompt c
  = (Some x,
     mkConsole rest
       (cout c ++ prompt
          :: replicate (length pre) (String.append "Please answer yes or no." nl))) ∧
  (x = userAffirmative ∨ x = userNegative) ∧
  ∀ c', Forall (λ line, yesOrNo line = false) (cin c') → (newGetLine prompt c').1 = None.
Proof.
  intros Hcin Hpre Hx. unfold newGetLine. rewrite Hcin. split_and!.
  - rewrite newGetLineLoop_answer by done. cbn [write cout].
    by rewrite <- app_assoc.
  - unfold yesOrNo in Hx. apply orb_true_iff in Hx as [Hx|Hx];
      apply String.eqb_eq in Hx; auto.
  - intros c' Hc'. by rewrite newGetLineLoop_waiting.
Qed.

Lemma newGetLine_first_witness :
  cin (mkConsole ["maybe"; "Yes"; "no"; "yes"]%string [])
  = ["maybe"; "Yes"]%string ++ "no"%string :: ["yes"%string] ∧
  Forall (λ line, yesOrNo line = false) ["maybe"; "Yes"]%string ∧
  yesOrNo "no" = true ∧
  newGetLine "Again? " (mkConsole ["maybe"; "Yes"; "no"; "yes"]%string [])
  = (Some "no"%string,
     mkConsole ["yes"%string]
       (cout (mkConsole ["maybe"; "Yes"; "no"; "yes"]%string []) ++ "Again? "%string
          :: replicate (length ["maybe"; "Yes"]%string)
               (String.append "Please answer yes or no." nl))) ∧
  ("no"%string = userAffirmative ∨ "no"%string = userNegative) ∧
  ∀ c', Forall (λ line, yesOrNo line = false) (cin c') →
        (newGetLine "Again? " c').1 = None.
Proof.
  assert (Forall (λ line, yesOrNo line = false) ["maybe"; "Yes"]%string) as Hpre
    by (repeat (constructor; [reflexivity|]); constructor).
  split; [reflexivity|]. split; [exact Hpre|]. split; [reflexivity|].
  apply (newGetLine_first "Again? " (mkConsole ["maybe"; "Yes"; "no"; "yes"]%string [])
           ["maybe"; "Yes"]%string "no" ["yes"%string]); [reflexivity|exact Hpre|reflexivity].
Defined.

(** X8.  [newGetInteger] returns the first line typed that reads as an
    integer from 1 to 4, after writing the prompt and one reprompt for
    each line before it, and leaves the lines after it unread; whatever
    it returns lies between 1 and 4. *)
Theorem newGetInteger_first (streamInteger : string → option Z) (prompt : string)
    (c : console) (pre : list string) (x : string) (rest : list string) (value : Z) :
  cin c = pre ++ x :: rest →
  Forall (λ line, speedOf streamInteger line = None) pre →
  speedOf streamInteger x = Some value →
  newGetInteger streamInteger prompt c
  = (Some value,
     mkConsole rest
       (cout c ++ prompt
          :: replicate (length pre)
               (String.append nl "Please enter your choice between 1 and 4: "))) ∧
  ∀ c0 value' c', newGetInteger streamInteger prompt c0 = (Some value', c') →
                  simSpeedMin ≤ value' ≤ simSpeedManual.
Proof.
  intros Hcin Hpre Hx. unfold newGetInteger. rewrite Hcin. split.
  - rewrite (newGetIntegerLoop_choice streamInteger pre x rest value) by done.
    cbn [write cout]. by rewrite <- app_assoc.
  - intros c0 value' c' Hret. by eapply newGetIntegerLoop_range.
Qed.

Lemma newGetInteger_first_witness :
  cin (mkConsole ["0"; "two"; "3"; "1"]%string [])
  = ["0"; "two"]%string ++ "3"%string :: ["1"%string] ∧
  Forall (λ line, speedOf decimalStream line = None) ["0"; "two"]%string ∧
  speedOf decimalStream "3" = Some 3 ∧
  newGetInteger decimalStream "Your choice: " (mkConsole ["0"; "two"; "3"; "1"]%string [])
  = (Some 3,
     mkConsole ["1"%string]
       (cout (mkConsole ["0"; "two"; "3"; "1"]%string []) ++ "Your choice: "%string
          :: replicate (length ["0"; "two"]%string)
               (String.append nl "Please enter your choice between 1 and 4: "))) ∧
  ∀ c0 value' c', newGetInteger decimalStream "Your choice: " c0 = (Some value', c') →
                  simSpeedMin ≤ value' ≤ simSpeedManual.
Proof.
  assert (Forall (λ line, speedOf decimalStream line = None) ["0"; "two"]%string) as Hpre
    by (repeat (constructor; [reflexivity|]); constructor).
  split; [reflexivity|]. split; [exact Hpre|]. split; [reflexivity|].
  apply (newGetInteger_first decimalStream "Your choice: "
           (mkConsole ["0"; "two"; "3"; "1"]%string []) ["0"; "two"]%string "3"
           ["1"%string] 3); [reflexivity|exact Hpre|reflexivity].
Defined.

Lemma setSimulationSpeed_chosen streamInteger pauseLength c speed pause c' :
  setSimulationSpeed streamInteger pauseLength c = (Some speed, pause, c') →
  (speed = 1 ∧ pause = Some msToPauseMin) ∨ (speed = 2 ∧ pause = Some msToPauseMid) ∨
  (speed = 3 ∧ pause = Some msToPauseMax) ∨ (speed = simSpeedManual ∧ pause = pauseLength).
Proof.
  unfold setSimulationSpeed.
  destruct (newGetInteger streamInteger _ _) as [[v|] c1] eqn:Hget; [|done].
  unfold newGetInteger in Hget. apply newGetIntegerLoop_range in Hget.
  unfold simSpeedManual.
  destruct (Z.eqb_spec v 1) as [->|H1]; [intros [= <- <- <-]; auto|].
  destruct (Z.eqb_spec v 2) as [->|H2]; [intros [= <- <- <-]; auto|].
  destruct (Z.eqb_spec v 3) as [->|H3]; [intros [= <- <- <-]; auto|].
  intros [= <- <- <-]. do 3 right. split; [lia|done].
Qed.

Lemma setSimulationSpeed_waiting streamInteger pauseLength c pause c' :
  setSimulationSpeed streamInteger pauseLength c = (None, pause, c') → cin c' = [].
Proof.
  unfold setSimulationSpeed.
  destruct (newGetInteger streamInteger _ _) as [[v|] c1] eqn:Hget.
  { by repeat case_match. }
  intros [= <- <-]. unfold newGetInteger in Hget. revert Hget.
  generalize (write "Your choice: "
    (writeln (String.append tab "4 = Wait for user to hit enter between generations.")
    (writeln (String.append tab "3 = Nice and slow I can watch everything that happens.")
    (writeln (String.append tab "2 = Not too fast; this is a school zone.")
    (writeln (String.append tab "1 = As fast as this chip can go!")
    (writeln (String.append nl "You choose how fast to run the simulation.") c)))))).
  cbn [writeln write cin]. generalize (cin c). intros input.
  induction input as [|y input IH]; intros c0; [by intros [= <-]|].
  rewrite newGetIntegerLoop_step. destruct (speedOf streamInteger y); [done|]. apply IH.
Qed.

(** X9.  The speed [setSimulationSpeed] returns lies between 1 and 4, so
    its [switch] without a default leaves the pause length unassigned for
    the manual speed 4 only: the speeds 1, 2 and 3 assign 1, 100 and 500
    milliseconds, and then the last line written tells how to end the
    simulation by mouse. *)
Theorem setSimulationSpeed_pause (streamInteger : string → option Z)
    (pauseLength : option Z) (c : console) (speed : Z) (pause : option Z) (c' : console) :
  setSimulationSpeed streamInteger pauseLength c = (Some speed, pause, c') →
  1 ≤ speed ≤ 4 ∧
  (speed = 1 → pause = Some 1) ∧ (speed = 2 → pause = Some 100) ∧
  (speed = 3 → pause = Some 500) ∧ (speed = 4 → pause = pauseLength) ∧
  (speed ≠ 4 → ∃ out, cout c' = out ++ [String.append clickToEnd nl]).
Proof.
  intros Hset. pose proof (setSimulationSpeed_chosen _ _ _ _ _ _ Hset) as Hchosen.
  unfold msToPauseMin, msToPauseMid, msToPauseMax, simSpeedManual in Hchosen.
  split; [lia|].
  split_and!;
    try (intros ->; destruct Hchosen as [[? ?]|[[? ?]|[[? ?]|[? ?]]]]; first [done|lia]).
  intros Hspeed. revert Hset. unfold setSimulationSpeed.
  destruct (newGetInteger streamInteger _ _) as [[v|] c1]; [|done].
  destruct (Z.eqb_spec v 1) as [_|H1]; [intros [= <- <- <-]; by eexists|].
  destruct (Z.eqb_spec v 2) as [_|H2]; [intros [= <- <- <-]; by eexists|].
  destruct (Z.eqb_spec v 3) as [_|H3]; [intros [= <- <- <-]; by eexists|].
  intros [= <- <- <-]. destruct Hchosen as [[? _]|[[? _]|[[? _]|[? _]]]]; lia.
Qed.

Lemma setSimulationSpeed_pause_witness :
  setSimulationSpeed decimalStream None (mkConsole ["7"; "2"; "quit"]%string [])
  = (Some 2, Some 100,
     (setSimulationSpeed decimalStream None (mkConsole ["7"; "2"; "quit"]%string [])).2) ∧
  1 ≤ 2 ≤ 4 ∧
  (2 = 1 → Some 100 = Some 1) ∧ (2 = 2 → Some 100 = Some 100) ∧
  (2 = 3 → Some 100 = Some 500) ∧ (2 = 4 → Some 100 = None) ∧
  (2 ≠ 4 →
   ∃ out, cout (setSimulationSpeed decimalStream None
                  (mkConsole ["7"; "2"; "quit"]%string [])).2
          = out ++ [String.append clickToEnd nl]).
Proof.
  split; [reflexivity|].
  apply (setSimulationSpeed_pause decimalStream None
           (mkConsole ["7"; "2"; "quit"]%string []) 2 (Some 100)
           (setSimulationSpeed decimalStream None (mkConsole ["7"; "2"; "quit"]%string [])).2).
  reflexivity.
Defined.

(** ** runSimulation: the whole run *)

(** The turns [runSimulation] gives its loop are enough: a loop that has
    not stopped is out of events or out of typed lines. *)
Lemma simulationLoop_waiting kMaxAge simulationSpeed pauseLength fuel :
  ∀ s s',
    (length (sim_events s) + length (cin (sim_console s)) < fuel)%nat →
    simulationLoop kMaxAge fuel simulationSpeed pauseLength s = Ok (None, s') →
    sim_events s' = [] ∨ cin (sim_console s') = [].
Proof.
  induction fuel as [|fuel IH]; intros s s' Hfuel; [lia|].
  cbn [simulationLoop].
  destruct (calculateNextGeneration (sim_grid s)) as [scratch|e]; [|done].
  cbn [mbind result_bind].
  destruct (isStable kMaxAge (sim_grid s) scratch) as [[|]|e]; [done| |done].
  cbn [mbind result_bind].
  destruct (advanceGrid (sim_grid s) (sim_display s) scratch) as [[g d]|e]; [|done].
  cbn [mbind result_bind].
  destruct (negb (simulationSpeed =? simSpeedManual)).
  - destruct (sim_events s) as [|[| |] events'] eqn:Hev; cbn [length] in Hfuel.
    + intros [= <-]. by left.
    + done.
    + intros Hrun. eapply IH; [|exact Hrun]. cbn. lia.
    + intros Hrun. eapply IH; [|exact Hrun]. cbn. lia.
  - destruct (cin (sim_console s)) as [|line input'] eqn:Hcin; cbn [length] in Hfuel.
    + intros [= <-]. by right.
    + destruct (String.eqb line stopWord); [done|].
      intros Hrun. eapply IH; [|exact Hrun]. cbn. lia.
Qed.

Lemma runSimulation_run streamInteger kMaxAge g display c events :
  Grid_wf g →
  ∃ o s' k,
    runSimulation streamInteger kMaxAge g display c events = Ok (o, s') ∧
    Grid_wf (sim_grid s') ∧
    generations k g = Ok (sim_grid s') ∧
    redraws k g display = Ok (sim_display s') ∧
    (o = Some Stable →
     ∃ scratch, calculateNextGeneration (sim_grid s') = Ok scratch ∧
                isStable kMaxAge (sim_grid s') scratch = Ok true) ∧
    (o = Some Clicked ∨ o = Some Quit → (0 < k)%nat) ∧
    (o = None → sim_events s' = [] ∨ cin (sim_console s') = []) ∧
    Forall (λ p, p = Some msToPauseMin ∨ p = Some msToPauseMid ∨ p = Some msToPauseMax)
      (sim_paused s') ∧
    (length (sim_paused s') ≤ k)%nat.
Proof.
  intros Hwf. unfold runSimulation.
  destruct (setSimulationSpeed streamInteger None c) as [[[speed|] pause] c1] eqn:Hset.
  - destruct (simulationLoop_run kMaxAge speed pause (S (length events + length (cin c1)))
                (mkSimulation g display c1 events []) Hwf)
      as (o & s' & k & Hrun & Hwf' & Hgen & Hred & _ & Hst & Hcq & _ & _ & j & Hp & Hj & Hman).
    cbn [sim_grid sim_display sim_paused app] in *.
    exists o, s', k. split_and!; [done..| | |].
    + intros ->. eapply simulationLoop_waiting; [|exact Hrun]. cbn. lia.
    + rewrite Hp.
      destruct (setSimulationSpeed_chosen _ _ _ _ _ _ Hset)
        as [[_ ->]|[[_ ->]|[[_ ->]|[Hs _]]]];
        [apply Forall_replicate; auto..|].
      rewrite (Hman Hs). constructor.
    + rewrite Hp, length_replicate. exact Hj.
  - exists None, (mkSimulation g display c1 events []), 0%nat.
    cbn [sim_grid sim_display sim_paused sim_console sim_events generations redraws length].
    split_and!; [done..| | | |constructor|done].
    + done.
    + intros [?|?]; done.
    + intros _. right. by eapply setSimulationSpeed_waiting.
Qed.

Lemma allZero_generation g : Grid_wf g → allZero g → calculateNextGeneration g = Ok g.
Proof.
  intros Hwf Hz.
  destruct (calculateNextGeneration_spec g Hwf) as (next & Hnext & HR & HC & Hnwf & Hcells).
  rewrite Hnext. f_equal.
  destruct Hwf as (_ & HC0 & Hlen & _). destruct Hnwf as (_ & _ & Hnlen & _).
  apply Grid_ext; [done|done|lia|done|done|].
  intros r c Hin.
  assert (inBounds g r c = true) as Hin'.
  { apply inBounds_spec. rewrite <- HR, <- HC. by apply inBounds_spec. }
  rewrite (Hcells r c Hin'), (allZero_nextAge g r c Hz).
  destruct (Grid_get_lookup g r c Hlen Hin') as (v & _ & Hv).
  rewrite Hv. f_equal. symmetry. by apply (allZero_get g r c).
Qed.

Lemma allZero_stable kMaxAge g : Grid_wf g → allZero g → isStable kMaxAge g g = Ok true.
Proof.
  intros Hwf Hz. destruct (allZero_tallies g Hz) as [Hage Hcells].
  rewrite isStable_spec; [|done..|].
  - by rewrite Hage, Hcells.
  - unfold tallies_fit. rewrite Hage, Hcells. cbn.
    unfold in_int, INT_MIN, INT_MAX. lia.
Qed.

(** X10.  On a grid whose dimensions and cells are [int]s [runSimulation]
    raises no error.  The grid it ends with is the grid it was given
    after some number k of generations, of the same dimensions, and the
    display has been sent the k generations after the first in turn,
    every cell of each: k times rows times columns [drawCellAt] calls. *)
Theorem runSimulation_trace (streamInteger : string → option Z) (kMaxAge : Z)
    (g : Grid) (display : LifeDisplay) (c : console) (events : list eventType) :
  Grid_wf g →
  ∃ o s' k,
    runSimulation streamInteger kMaxAge g display c events = Ok (o, s') ∧
    generations k g = Ok (sim_grid s') ∧
    redraws k g display = Ok (sim_display s') ∧
    numRows (sim_grid s') = numRows g ∧ numCols (sim_grid s') = numCols g ∧
    Z.of_nat (length (sim_display s'))
    = Z.of_nat (length display) + Z.of_nat k * (numRows g * numCols g).
Proof.
  intros Hwf.
  destruct (runSimulation_run streamInteger kMaxAge g display c events Hwf)
    as (o & s' & k & Hrun & _ & Hgen & Hred & _).
  exists o, s', k. split_and!; [done..| | |].
  - destruct (generations_wf k g Hwf) as (final & Hfinal & _ & HR & _). congruence.
  - destruct (generations_wf k g Hwf) as (final & Hfinal & _ & _ & HC). congruence.
  - destruct (redraws_length k g display Hwf) as (display' & Hd & Hlen). congruence.
Qed.

Lemma runSimulation_trace_witness :
  Grid_wf block4 ∧
  ∃ o s' k,
    runSimulation decimalStream 12 block4 [] (mkConsole ["4"; "go"; "quit"]%string []) []
    = Ok (o, s') ∧
    generations k block4 = Ok (sim_grid s') ∧
    redraws k block4 [] = Ok (sim_display s') ∧
    numRows (sim_grid s') = numRows block4 ∧ numCols (sim_grid s') = numCols block4 ∧
    Z.of_nat (length (sim_display s'))
    = Z.of_nat (length ([] : LifeDisplay)) + Z.of_nat k * (numRows block4 * numCols block4).
Proof.
  assert (Grid_wf block4) as Hwf.
  { unfold Grid_wf, in_int, INT_MIN, INT_MAX. cbn.
    repeat split; try lia. repeat (constructor; [lia|]). constructor. }
  split; [exact Hwf|].
  apply (runSimulation_trace decimalStream 12 block4 []
           (mkConsole ["4"; "go"; "quit"]%string []) [] Hwf).
Defined.

(** X11.  How [runSimulation] ends.  When [isStable] broke the loop, the
    grid it ends with is the grid given after some number k of
    generations and the display holds the drawings of these k
    generations and nothing after them, while the next generation of
    that grid is the one found stable: that generation was computed and
    neither stored nor drawn.  A mouse click or the stop word ends it
    only after at least one generation has been stored and drawn.  When
    it has not ended, it is waiting for an event or for a line that has
    not come. *)
Theorem runSimulation_stop (streamInteger : string → option Z) (kMaxAge : Z)
    (g : Grid) (display : LifeDisplay) (c : console) (events : list eventType)
    (o : option stop) (s' : simulation) :
  Grid_wf g →
  runSimulation streamInteger kMaxAge g display c events = Ok (o, s') →
  (o = Some Stable →
   ∃ k scratch,
     generations k g = Ok (sim_grid s') ∧
     redraws k g display = Ok (sim_display s') ∧
     calculateNextGeneration (sim_grid s') = Ok scratch ∧
     isStable kMaxAge (sim_grid s') scratch = Ok true) ∧
  (o = Some Clicked ∨ o = Some Quit →
   ∃ k, generations (S k) g = Ok (sim_grid s') ∧
        redraws (S k) g display = Ok (sim_display s')) ∧
  (o = None → sim_events s' = [] ∨ cin (sim_console s') = []).
Proof.
  intros Hwf Hrun.
  destruct (runSimulation_run streamInteger kMaxAge g display c events Hwf)
    as (o0 & s0 & k & Hrun0 & _ & Hgen & Hred & Hst & Hcq & Hwait & _).
  rewrite Hrun in Hrun0. injection Hrun0 as <- <-.
  split_and!; [| |done].
  - intros Ho. destruct (Hst Ho) as (scratch & Hnext & Hstable). by exists k, scratch.
  - intros Ho. specialize (Hcq Ho). destruct k as [|k]; [lia|]. by exists k.
Qed.

Lemma runSimulation_stop_witness :
  Grid_wf block4 ∧
  ∃ o s',
    runSimulation decimalStream 3 block4 [] (mkConsole ["1"%string] [])
      [NULL_EVENT; NULL_EVENT; MOUSE_CLICKED] = Ok (o, s') ∧
    o = Some Stable ∧
    (o = Some Stable →
     ∃ k scratch,
       generations k block4 = Ok (sim_grid s') ∧
       redraws k block4 [] = Ok (sim_display s') ∧
       calculateNextGeneration (sim_grid s') = Ok scratch ∧
       isStable 3 (sim_grid s') scratch = Ok true) ∧
    (o = Some Clicked ∨ o = Some Quit →
     ∃ k, generations (S k) block4 = Ok (sim_grid s') ∧
          redraws (S k) block4 [] = Ok (sim_display s')) ∧
    (o = None → sim_events s' = [] ∨ cin (sim_console s') = []).
Proof.
  assert (Grid_wf block4) as Hwf.
  { unfold Grid_wf, in_int, INT_MIN, INT_MAX. cbn.
    repeat split; try lia. repeat (constructor; [lia|]). constructor. }
  split; [exact Hwf|]. eexists _, _. split; [vm_compute; reflexivity|].
  split; [reflexivity|].
  apply (runSimulation_stop decimalStream 3 block4 [] (mkConsole ["1"%string] [])
           [NULL_EVENT; NULL_EVENT; MOUSE_CLICKED] _ _ Hwf).
  vm_compute. reflexivity.
Defined.

(** X12.  [runSimulation] declares the pause length without a value and
    never pauses on it unassigned: every [pause] it makes is 1, 100 or
    500 milliseconds long, and it makes at most one for each [drawCellAt]
    sweep of the grid. *)
Theorem runSimulation_pauses (streamInteger : string → option Z) (kMaxAge : Z)
    (g : Grid) (display : LifeDisplay) (c : console) (events : list eventType)
    (o : option stop) (s' : simulation) :
  Grid_wf g →
  runSimulation streamInteger kMaxAge g display c events = Ok (o, s') →
  Forall (λ p, p = Some 1 ∨ p = Some 100 ∨ p = Some 500) (sim_paused s') ∧
  ∃ k, redraws k g display = Ok (sim_display s') ∧ (length (sim_paused s') ≤ k)%nat.
Proof.
  intros Hwf Hrun.
  destruct (runSimulation_run streamInteger kMaxAge g display c events Hwf)
    as (o0 & s0 & k & Hrun0 & _ & _ & Hred & _ & _ & _ & Hp & Hk).
  rewrite Hrun in Hrun0. injection Hrun0 as <- <-.
  split; [exact Hp|]. by exists k.
Qed.

Lemma runSimulation_pauses_witness :
  Grid_wf block4 ∧
  ∃ o s',
    runSimulation decimalStream 12 block4 [] (mkConsole ["3"%string] [])
      [NULL_EVENT; MOUSE_OTHER; NULL_EVENT; MOUSE_CLICKED] = Ok (o, s') ∧
    sim_paused s' = [Some 500; Some 500] ∧
    Forall (λ p, p = Some 1 ∨ p = Some 100 ∨ p = Some 500) (sim_paused s') ∧
    ∃ k, redraws k block4 [] = Ok (sim_display s') ∧ (length (sim_paused s') ≤ k)%nat.
Proof.
  assert (Grid_wf block4) as Hwf.
  { unfold Grid_wf, in_int, INT_MIN, INT_MAX. cbn.
    repeat split; try lia. repeat (constructor; [lia|]). constructor. }
  split; [exact Hwf|]. eexists _, _. split; [vm_compute; reflexivity|].
  split; [reflexivity|].
  apply (runSimulation_pauses decimalStream 12 block4 [] (mkConsole ["3"%string] [])
           [NULL_EVENT; MOUSE_OTHER; NULL_EVENT; MOUSE_CLICKED] (Some Clicked) _ Hwf).
  vm_compute. reflexivity.
Defined.

(** X13.  On a grid of dead cells only, once a speed is chosen,
    [runSimulation] ends in its first turn as stable: the grid is as it
    was, nothing is drawn, no event and no further line is taken, no
    pause is made, and the last line written is the stable one. *)
Theorem runSimulation_allZero (streamInteger : string → option Z) (kMaxAge : Z)
    (g : Grid) (display : LifeDisplay) (c : console) (events : list eventType)
    (speed : Z) (pause : option Z) (c1 : console) :
  Grid_wf g → allZero g →
  setSimulationSpeed streamInteger None c = (Some speed, pause, c1) →
  runSimulation streamInteger kMaxAge g display c events
  = Ok (Some Stable,
        mkSimulation g display (writeln "Stable Configuration" c1) events []).
Proof.
  intros Hwf Hz Hset. unfold runSimulation. rewrite Hset.
  cbn [simulationLoop sim_grid]. rewrite (allZero_generation g Hwf Hz).
  cbn [mbind result_bind]. by rewrite (allZero_stable kMaxAge g Hwf Hz).
Qed.

Lemma runSimulation_allZero_witness :
  Grid_wf (mkGrid 2 3 [0;0;0; 0;0;0]) ∧ allZero (mkGrid 2 3 [0;0;0; 0;0;0]) ∧
  setSimulationSpeed decimalStream None (mkConsole ["4"; "quit"]%string [])
  = (Some 4, None,
     (setSimulationSpeed decimalStream None (mkConsole ["4"; "quit"]%string [])).2) ∧
  runSimulation decimalStream 12 (mkGrid 2 3 [0;0;0; 0;0;0]) []
    (mkConsole ["4"; "quit"]%string []) [MOUSE_CLICKED]
  = Ok (Some Stable,
        mkSimulation (mkGrid 2 3 [0;0;0; 0;0;0]) []
          (writeln "Stable Configuration"
             (setSimulationSpeed decimalStream None (mkConsole ["4"; "quit"]%string [])).2)
          [MOUSE_CLICKED] []).
Proof.
  assert (Grid_wf (mkGrid 2 3 [0;0;0; 0;0;0])) as Hwf.
  { unfold Grid_wf, in_int, INT_MIN, INT_MAX. cbn.
    repeat split; try lia. repeat (constructor; [lia|]). constructor. }
  assert (allZero (mkGrid 2 3 [0;0;0; 0;0;0])) as Hz.
  { unfold allZero. cbn. repeat (constructor; [reflexivity|]). constructor. }
  split; [exact Hwf|]. split; [exact Hz|]. split; [reflexivity|].
  apply (runSimulation_allZero decimalStream 12 (mkGrid 2 3 [0;0;0; 0;0;0]) []
           (mkConsole ["4"; "quit"]%string []) [MOUSE_CLICKED] 4 None _ Hwf Hz).
  reflexivity.
Defined.

(** X14.  A cell ages by at most one in a generation: when no cell is
    older than m, after k generations (m + k being an [int]) no cell is
    older than m + k, no age is negative, and the dimensions are those
    of the first grid. *)
Theorem ages_after_generations (k : nat) (m : Z) (g : Grid) :
  Grid_wf g → Forall (λ age, 0 ≤ age ≤ m) (elements g) → m + Z.of_nat k ≤ INT_MAX →
  ∃ final, generations k g = Ok final ∧
           numRows final = numRows g ∧ numCols final = numCols g ∧
           Forall (λ age, 0 ≤ age ≤ m + Z.of_nat k) (elements final).
Proof.
  intros Hwf Hages Hm.
  destruct (generations_ages_bounded k m g Hwf Hages Hm) as (final & Hfinal & _ & Hfages).
  destruct (generations_wf k g Hwf) as (final' & Hfinal' & _ & HR & HC).
  exists final. split_and!; [done| | |done]; congruence.
Qed.

Lemma ages_after_generations_witness :
  Grid_wf block4 ∧ Forall (λ age, 0 ≤ age ≤ 1) (elements block4) ∧
  1 + Z.of_nat 5 ≤ INT_MAX ∧
  ∃ final, generations 5 block4 = Ok final ∧
           numRows final = numRows block4 ∧ numCols final = numCols block4 ∧
           Forall (λ age, 0 ≤ age ≤ 1 + Z.of_nat 5) (elements final).
Proof.
  assert (Grid_wf block4) as Hwf.
  { unfold Grid_wf, in_int, INT_MIN, INT_MAX. cbn.
    repeat split; try lia. repeat (constructor; [lia|]). constructor. }
  assert (Forall (λ age, 0 ≤ age ≤ 1) (elements block4)) as Hages.
  { cbn. repeat (constructor; [lia|]). constructor. }
  assert (1 + Z.of_nat 5 ≤ INT_MAX) as Hm by (unfold INT_MAX; lia).
  split; [exact Hwf|]. split; [exact Hages|]. split; [exact Hm|].
  apply (ages_after_generations 5 1 block4 Hwf Hages Hm).
Defined.

Lemma block_next R C r0 c0 v g :
  blockGrid R C r0 c0 v = Ok g → R ≤ INT_MAX → C ≤ INT_MAX → 0 < v < INT_MAX →
  ∃ next, calculateNextGeneration g = Ok next ∧ blockGrid R C r0 c0 (v + 1) = Ok next.
Proof.
  intros Hg HR HC Hv.
  assert (in_int v ∧ in_int (v + 1)) as [Hi1 Hi2]
    by (unfold in_int, INT_MIN, INT_MAX in *; lia).
  pose proof (blockGrid_wf _ _ _ _ _ _ Hg HR HC Hi1) as Hwf.
  pose proof (blockGrid_Ok _ _ _ _ _ _ Hg) as [Hb Hgeq].
  assert (numRows g = R ∧ numCols g = C) as [HgR HgC] by (by rewrite Hgeq).
  destruct (calculateNextGeneration_spec g Hwf) as (next & Hnext & HnR & HnC & Hnwf & Hcells).
  destruct (blockGrid_exists R C r0 c0 (v + 1)) as [g2 Hg2]; [lia..|].
  pose proof (blockGrid_wf _ _ _ _ _ _ Hg2 HR HC Hi2) as Hwf2.
  pose proof (blockGrid_Ok _ _ _ _ _ _ Hg2) as [_ Hg2eq].
  assert (numRows g2 = R ∧ numCols g2 = C) as [H2R H2C] by (by rewrite Hg2eq).
  exists g2. split; [|done]. rewrite Hnext. f_equal.
  destruct Hnwf as (_ & _ & Hnlen & _). destruct Hwf2 as (_ & _ & H2len & _).
  apply Grid_ext; [congruence|congruence|lia|done|done|].
  intros r c Hin.
  assert (inBounds g r c = true) as Hin1.
  { apply inBounds_spec. rewrite <- HnR, <- HnC. by apply inBounds_spec. }
  assert (inBounds g2 r c = true) as Hin2.
  { apply inBounds_spec. rewrite H2R, H2C, <- HgR, <- HgC. by apply inBounds_spec. }
  rewrite (Hcells r c Hin1), (block_nextAge_any _ _ _ _ _ _ _ _ Hg Hv Hin1).
  by rewrite (blockGrid_get _ _ _ _ _ _ _ _ Hg2 Hin2).
Qed.

Lemma block_generations R C r0 c0 k :
  ∀ v g,
    blockGrid R C r0 c0 v = Ok g → R ≤ INT_MAX → C ≤ INT_MAX →
    0 < v → v + Z.of_nat k ≤ INT_MAX →
    ∃ final, generations k g = Ok final ∧ blockGrid R C r0 c0 (v + Z.of_nat k) = Ok final.
Proof.
  induction k as [|k IH]; intros v g Hg HR HC Hv Hk.
  { exists g. split; [done|]. by rewrite Z.add_0_r. }
  destruct (block_next R C r0 c0 v g Hg HR HC ltac:(lia)) as (next & Hnext & Hblock).
  destruct (IH (v + 1) next Hblock HR HC ltac:(lia) ltac:(lia)) as (final & Hfinal & Hfb).
  exists final. cbn [generations]. rewrite Hnext. cbn [mbind result_bind].
  split; [done|]. replace (v + Z.of_nat (S k)) with (v + 1 + Z.of_nat k) by lia. done.
Qed.

(** X15.  The 2x2 block is a still life that only ages: from a block of
    age v, k generations give the same block of age v + k, the next one
    the block of age v + k + 1, and [isStable] on these two returns true
    exactly when that age has reached [kMaxAge] (the ages summed and the
    product with [kMaxAge] being [int]s). *)
Theorem block_still_life (kMaxAge R C r0 c0 v : Z) (k : nat) (g : Grid) :
  blockGrid R C r0 c0 v = Ok g → R ≤ INT_MAX → C ≤ INT_MAX →
  0 < v → 4 * (v + Z.of_nat k + 1) ≤ INT_MAX → in_int (4 * kMaxAge) →
  ∃ cur next,
    generations k g = Ok cur ∧ blockGrid R C r0 c0 (v + Z.of_nat k) = Ok cur ∧
    calculateNextGeneration cur = Ok next ∧
    blockGrid R C r0 c0 (v + Z.of_nat k + 1) = Ok next ∧
    isStable kMaxAge cur next = Ok (kMaxAge <=? v + Z.of_nat k + 1).
Proof.
  intros Hg HR HC Hv Hfit Hmax.
  destruct (block_generations R C r0 c0 k v g Hg HR HC Hv ltac:(lia))
    as (cur & Hcur & Hcb).
  destruct (block_next R C r0 c0 _ cur Hcb HR HC ltac:(lia)) as (next & Hnext & Hnb).
  exists cur, next. split_and!; [done..|].
  assert (in_int (v + Z.of_nat k) ∧ in_int (v + Z.of_nat k + 1)) as [Hi1 Hi2]
    by (unfold in_int, INT_MIN, INT_MAX in *; lia).
  pose proof (blockGrid_wf _ _ _ _ _ _ Hcb HR HC Hi1) as Hwf1.
  pose proof (blockGrid_wf _ _ _ _ _ _ Hnb HR HC Hi2) as Hwf2.
  pose proof (blockGrid_Ok _ _ _ _ _ _ Hcb) as [_ Hceq].
  pose proof (blockGrid_Ok _ _ _ _ _ _ Hnb) as [_ Hneq].
  assert (numRows cur = R ∧ numCols cur = C) as [HcR HcC] by (by rewrite Hceq).
  assert (numRows next = R ∧ numCols next = C) as [HnR HnC] by (by rewrite Hneq).
  destruct (blockGrid_tallies _ _ _ _ _ _ Hcb) as [Hage Hlive].
  destruct (blockGrid_tallies _ _ _ _ _ _ Hnb) as [Hage2 Hlive2].
  replace (0 <? v + Z.of_nat k) with true in Hlive by (symmetry; apply Z.ltb_lt; lia).
  replace (0 <? v + Z.of_nat k + 1) with true in Hlive2 by (symmetry; apply Z.ltb_lt; lia).
  rewrite isStable_spec; [|done|done|congruence|congruence|].
  - rewrite Hage, Hlive, Hage2, Hlive2. f_equal.
    replace (4 * (v + Z.of_nat k + 1) - 4 * (v + Z.of_nat k) =? 4 * 1) with true
      by (symmetry; apply Z.eqb_eq; lia).
    rewrite andb_true_r.
    destruct (Z.leb_spec kMaxAge (v + Z.of_nat k + 1)); [apply Z.leb_le|apply Z.leb_gt]; lia.
  - unfold tallies_fit. rewrite Hage, Hlive, Hage2, Hlive2.
    unfold in_int, INT_MIN, INT_MAX in *. lia.
Qed.

Lemma block_still_life_witness :
  blockGrid 4 4 1 1 1 = Ok block4 ∧ 4 ≤ INT_MAX ∧ 0 < 1 ∧
  4 * (1 + Z.of_nat 10 + 1) ≤ INT_MAX ∧ in_int (4 * 12) ∧
  ∃ cur next,
    generations 10 block4 = Ok cur ∧ blockGrid 4 4 1 1 (1 + Z.of_nat 10) = Ok cur ∧
    calculateNextGeneration cur = Ok next ∧
    blockGrid 4 4 1 1 (1 + Z.of_nat 10 + 1) = Ok next ∧
    isStable 12 cur next = Ok (12 <=? 1 + Z.of_nat 10 + 1).
Proof.
  assert (4 ≤ INT_MAX) as H4 by (unfold INT_MAX; lia).
  assert (4 * (1 + Z.of_nat 10 + 1) ≤ INT_MAX) as Hfit by (unfold INT_MAX; lia).
  assert (in_int (4 * 12)) as Hmax by (unfold in_int, INT_MIN, INT_MAX; lia).
  split; [reflexivity|]. split; [exact H4|]. split; [lia|]. split; [exact Hfit|].
  split; [exact Hmax|].
  apply (block_still_life 12 4 4 1 1 1 10 block4); [reflexivity|exact H4|exact H4|lia|exact Hfit|exact Hmax].
Defined.

Lemma liveAt_outside g x y :
  x < 0 ∨ numRows g ≤ x ∨ y < 0 ∨ numCols g ≤ y → liveAt g x y = false.
Proof.
  intros Hxy. unfold liveAt. by rewrite Grid_get_outside by by apply inBounds_outside.
Qed.

(** X16.  [countNeighbors] raises no index error wherever the cell lies,
    on the grid or off it: it returns a count from 0 to 8, and 0 for a
    cell more than one row or column away from the grid. *)
Theorem countNeighbors_range (g : Grid) (row col : Z) :
  Grid_wf g → in_int row → in_int col →
  ∃ n, countNeighbors g row col = Ok n ∧ 0 ≤ n ≤ 8 ∧
       (row < -1 ∨ numRows g < row ∨ col < -1 ∨ numCols g < col → n = 0).
Proof.
  intros Hwf Hrow Hcol. exists (liveNeighbors g row col).
  split; [by apply countNeighbors_spec|]. split; [apply liveNeighbors_range|].
  intros Hfar. unfold liveNeighbors, neighborOffsets.
  rewrite !filter_cons, filter_nil. cbn [fst snd].
  rewrite !liveAt_outside by lia. by repeat case_decide.
Qed.

Lemma countNeighbors_range_witness :
  Grid_wf block4 ∧ in_int 5 ∧ in_int (-3) ∧
  ∃ n, countNeighbors block4 5 (-3) = Ok n ∧ 0 ≤ n ≤ 8 ∧
       (5 < -1 ∨ numRows block4 < 5 ∨ -3 < -1 ∨ numCols block4 < -3 → n = 0).
Proof.
  assert (Grid_wf block4) as Hwf.
  { unfold Grid_wf, in_int, INT_MIN, INT_MAX. cbn.
    repeat split; try lia. repeat (constructor; [lia|]). constructor. }
  assert (in_int 5 ∧ in_int (-3)) as [H5 H3] by (unfold in_int, INT_MIN, INT_MAX; lia).
  split; [exact Hwf|]. split; [exact H5|]. split; [exact H3|].
  apply (countNeighbors_range block4 5 (-3) Hwf H5 H3).
Defined.

(** X17.  A file with no line left once the comment lines are removed,
    or with one such line only, that reads as an integer, makes
    [readInGrid] raise the vector's index error: it indexes the two
    dimension lines without a look at the number of lines. *)
Theorem readInGrid_few_lines (stringToInteger : string → result Z)
    (file : list string) :
  (stripComments file = [] ∨
   ∃ h0 R, stripComments file = [h0] ∧ stringToInteger h0 = Ok R) →
  readInGrid stringToInteger file = Err VectorIndexOutOfRange.
Proof.
  intros Hfew. unfold readInGrid. rewrite strip_loop_file. cbn [mbind result_bind].
  destruct Hfew as [->|(h0 & R & -> & H0)]; [done|].
  rewrite (Vector_get_lookup _ fileRowDimension h0) by done. cbn [mbind result_bind].
  by rewrite H0.
Qed.

Lemma readInGrid_few_lines_witness :
  (stripComments ["# a colony"; "3"; "# 3"; "X#X"]%string = [] ∨
   ∃ h0 R, stripComments ["# a colony"; "3"; "# 3"; "X#X"]%string = [h0] ∧
           decimalToInteger h0 = Ok R) ∧
  readInGrid decimalToInteger ["# a colony"; "3"; "# 3"; "X#X"]%string
  = Err VectorIndexOutOfRange.
Proof.
  assert (stripComments ["# a colony"; "3"; "# 3"; "X#X"]%string = [] ∨
          ∃ h0 R, stripComments ["# a colony"; "3"; "# 3"; "X#X"]%string = [h0] ∧
                  decimalToInteger h0 = Ok R) as Hfew.
  { right. exists "3"%string, 3. split; reflexivity. }
  split; [exact Hfew|].
  apply (readInGrid_few_lines decimalToInteger ["# a colony"; "3"; "# 3"; "X#X"]%string Hfew).
Defined.

Lemma bits_wf R C g :
  bits_inv R C g → 0 ≤ R ≤ INT_MAX → 0 ≤ C ≤ INT_MAX → Grid_wf g.
Proof.
  intros (HR & HC & Hlen & Hbits) HR0 HC0. unfold Grid_wf. rewrite HR, HC.
  split_and!; [lia..|done|].
  eapply Forall_impl; [exact Hbits|]. unfold in_int, INT_MIN, INT_MAX. cbn. lia.
Qed.

(** The calls of [runGame] after the grid is there: [drawGrid], then
    [runSimulation]. *)
Lemma draw_and_run streamInteger kMaxAge g display c events :
  Grid_wf g →
  ∃ display1 o s' k,
    drawGrid g display = Ok display1 ∧ display1 = display ++ cellCalls g ∧
    runSimulation streamInteger kMaxAge g display1 c events = Ok (o, s') ∧
    generations k g = Ok (sim_grid s') ∧
    redraws k g display1 = Ok (sim_display s') ∧
    Z.of_nat (length (sim_display s'))
    = Z.of_nat (length display) + (Z.of_nat k + 1) * (numRows g * numCols g).
Proof.
  intros Hwf.
  destruct (runSimulation_run streamInteger kMaxAge g (display ++ cellCalls g) c events Hwf)
    as (o & s' & k & Hrun & _ & Hgen & Hred & _).
  exists (display ++ cellCalls g), o, s', k. split_and!; [by apply drawGrid_wf|done..|].
  destruct (redraws_length k g (display ++ cellCalls g) Hwf) as (display' & Hd & Hlen).
  rewrite Hred in Hd. injection Hd as <-.
  rewrite Hlen, length_app, cellCalls_length.
  destruct Hwf as (? & ? & Hglen & _). rewrite Hglen. nia.
Qed.

(** X18.  A grid that [readInGrid] has returned (its dimensions being
    [int]s) goes through [drawGrid] and [runSimulation], in the order
    [runGame] calls them, without an error: [drawGrid] sends the display
    the cells of the grid read, and by the end of [runSimulation] the
    display holds after them the drawings of each of the k generations
    stored, in turn, and nothing else: (k + 1) times rows times columns
    calls in all. *)
Theorem readInGrid_then_runSimulation (stringToInteger : string → result Z)
    (streamInteger : string → option Z) (kMaxAge : Z) (file : list string) (g : Grid)
    (display : LifeDisplay) (c : console) (events : list eventType) :
  readInGrid stringToInteger file = Ok g →
  numRows g ≤ INT_MAX → numCols g ≤ INT_MAX →
  ∃ display1 o s' k,
    drawGrid g display = Ok display1 ∧ display1 = display ++ cellCalls g ∧
    runSimulation streamInteger kMaxAge g display1 c events = Ok (o, s') ∧
    generations k g = Ok (sim_grid s') ∧
    redraws k g display1 = Ok (sim_display s') ∧
    Z.of_nat (length (sim_display s'))
    = Z.of_nat (length display) + (Z.of_nat k + 1) * (numRows g * numCols g).
Proof.
  intros Hread HR HC.
  destruct (readInGrid_returned stringToInteger file g Hread)
    as (h0 & h1 & rows & R & C & _ & _ & _ & HR0 & HC0 & Hbits).
  apply draw_and_run. apply (bits_wf R C); [done|..].
  - destruct Hbits as (<- & _). lia.
  - destruct Hbits as (_ & <- & _). lia.
Qed.

Lemma readInGrid_then_runSimulation_witness :
  ∃ g,
    readInGrid decimalToInteger scenarioC = Ok g ∧
    numRows g ≤ INT_MAX ∧ numCols g ≤ INT_MAX ∧
    ∃ display1 o s' k,
      drawGrid g [] = Ok display1 ∧ display1 = [] ++ cellCalls g ∧
      runSimulation decimalStream 12 g display1 (mkConsole ["4"; "go"; "quit"]%string []) []
      = Ok (o, s') ∧
      generations k g = Ok (sim_grid s') ∧
      redraws k g display1 = Ok (sim_display s') ∧
      Z.of_nat (length (sim_display s'))
      = Z.of_nat (length ([] : LifeDisplay)) + (Z.of_nat k + 1) * (numRows g * numCols g).
Proof.
  eexists. split; [vm_compute; reflexivity|].
  assert (3 ≤ INT_MAX) as H3 by (unfold INT_MAX; lia).
  split; [exact H3|]. split; [exact H3|].
  apply (readInGrid_then_runSimulation decimalToInteger decimalStream 12 scenarioC _ []
           (mkConsole ["4"; "go"; "quit"]%string []) []); [vm_compute; reflexivity|exact H3|exact H3].
Defined.

(** X19.  The board [randomizeGrid] has returned, from numbers drawn
    within the board, goes through [drawGrid] and [runSimulation]
    without an error as well: [drawGrid] sends the display the 1600
    cells of the board, and by the end of [runSimulation] the display
    holds after them the drawings of each of the k generations stored,
    in turn, and nothing else: (k + 1) times 1600 calls in all. *)
Theorem randomizeGrid_then_runSimulation (streamInteger : string → option Z)
    (kMaxAge : Z) (draws : list (Z * Z)) (g : Grid)
    (display : LifeDisplay) (c : console) (events : list eventType) :
  Forall (λ d, 0 ≤ d.1 < kNumRows ∧ 0 ≤ d.2 < kNumColumns) draws →
  randomizeGrid draws = Ok (Some g) →
  ∃ display1 o s' k,
    drawGrid g display = Ok display1 ∧ display1 = display ++ cellCalls g ∧
    runSimulation streamInteger kMaxAge g display1 c events = Ok (o, s') ∧
    generations k g = Ok (sim_grid s') ∧
    redraws k g display1 = Ok (sim_display s') ∧
    Z.of_nat (length (sim_display s'))
    = Z.of_nat (length display) + (Z.of_nat k + 1) * 1600.
Proof.
  intros Hdraws. unfold randomizeGrid, Grid_resize.
  change ((kNumRows <? 0) || (kNumColumns <? 0)) with false. cbn [mbind result_bind].
  intros Hrandom.
  destruct (randomizeLoop_inv draws
              (mkGrid kNumRows kNumColumns (replicate (Z.to_nat (kNumRows * kNumColumns)) 0)) 0)
    as (r & Hr & Hinv); [|done|].
  { split; [|split; [apply countLive_replicate|unfold kNumCells; lia]].
    unfold bits_inv. cbn [numRows numCols elements].
    split_and!; [done|done|by rewrite length_replicate|].
    apply Forall_replicate. lia. }
  rewrite Hrandom in Hr. injection Hr as <-.
  destruct (Hinv g eq_refl) as (Hbits & _).
  assert (Grid_wf g) as Hwf.
  { apply (bits_wf kNumRows kNumColumns); [done|..];
      unfold kNumRows, kNumColumns, kBoardDimension, INT_MAX; lia. }
  destruct (draw_and_run streamInteger kMaxAge g display c events Hwf)
    as (display1 & o & s' & k & Hdraw & Hd1 & Hrun & Hgen & Hred & Hlen).
  exists display1, o, s', k. split_and!; [done..|].
  destruct Hbits as (HR & HC & _). rewrite Hlen, HR, HC. done.
Qed.

Lemma randomizeGrid_then_runSimulation_witness :
  Forall (λ d, 0 ≤ d.1 < kNumRows ∧ 0 ≤ d.2 < kNumColumns)
    (flat_map (λ r, map (λ c, (r, c)) (seqZ 0 40)) (seqZ 10 20)) ∧
  ∃ g,
    randomizeGrid (flat_map (λ r, map (λ c, (r, c)) (seqZ 0 40)) (seqZ 10 20))
    = Ok (Some g) ∧
    ∃ display1 o s' k,
      drawGrid g [] = Ok display1 ∧ display1 = [] ++ cellCalls g ∧
      runSimulation decimalStream 12 g display1 (mkConsole ["1"%string] []) [MOUSE_CLICKED]
      = Ok (o, s') ∧
      generations k g = Ok (sim_grid s') ∧
      redraws k g display1 = Ok (sim_display s') ∧
      Z.of_nat (length (sim_display s'))
      = Z.of_nat (length ([] : LifeDisplay)) + (Z.of_nat k + 1) * 1600.
Proof.
  assert (Forall (λ d, 0 ≤ d.1 < kNumRows ∧ 0 ≤ d.2 < kNumColumns)
            (flat_map (λ r, map (λ c, (r, c)) (seqZ 0 40)) (seqZ 10 20))) as Hdraws.
  { apply (bool_decide_unpack _). vm_compute. exact I. }
  split; [exact Hdraws|]. eexists. split; [vm_compute; reflexivity|].
  apply (randomizeGrid_then_runSimulation decimalStream 12
           (flat_map (λ r, map (λ c, (r, c)) (seqZ 0 40)) (seqZ 10 20)) _ []
           (mkConsole ["1"%string] []) [MOUSE_CLICKED] Hdraws).
  vm_compute. reflexivity.
Defined.
